(** * Retrieval pipeline of the Architectural Design Analyzer

    A shallow embedding of the Python retrieval pipeline
    (PDF parser, chunker, embedding client, vector store manager, query
    generator, the parsing of the language model's answers, the context
    block of the synthesis prompt and the orchestration loop of
    [run_full_rag_pipeline]) together with the properties its
    specification states about it and further properties of the code.

    Conventions of the embedding:
    - Python [str] is [string]; every character is a code point below 256.
    - Python [int] is [Z]; list lengths and indices that the code only
      ever uses as non-negative numbers are [nat].
    - Python [float] values are carried as rationals [Q]; the code never
      computes with them except for the back-off delay, a product of the
      initial delay with a power of two, which is exact on floats. The two
      places where that computation leaves the range of the machine numbers,
      the conversion of the power to a float and the conversion of the
      delay to nanoseconds in [time.sleep], raise [OverflowError] as they
      do in the interpreter.
    - A call that may raise returns a [Result]; the external services (the
      embedding API, the vector collection) are functions of the number of
      calls made so far and of the request, so that any sequence of answers
      and failures can be replayed. *)

From stdpp Require Import gmap strings list fin_maps pretty sorting.
From Stdlib Require Import ZArith QArith Lia Lqa Ascii.

Local Open Scope Z_scope.
Local Open Scope nat_scope.
Local Open Scope list_scope.

(** ** Python results and exceptions *)

Inductive PyExn : Type :=
  | ValueError
  | TypeError
  | AttributeError
  | KeyError
  | IndexError
  | OverflowError
  | LibraryError (msg : string).

Inductive Result (A : Type) : Type :=
  | Ok (a : A)
  | Raise (e : PyExn).

Arguments Ok {A} a.
Arguments Raise {A} e.

Definition bind {A B : Type} (r : Result A) (k : A -> Result B) : Result B :=
  match r with
  | Ok a => k a
  | Raise e => Raise e
  end.

Notation "x <- r ;;; k" := (bind r (fun x => k))
  (at level 100, r at next level, right associativity).

Definition returns {A : Type} (r : Result A) : Prop :=
  match r with Ok _ => True | Raise _ => False end.

Lemma Ok_inj {A : Type} (a b : A) : Ok a = Ok b -> a = b.
Proof. by intros [= ->]. Qed.

(** [for x in xs: body], the state going from one iteration to the
    next; an exception ends the loop. *)
Fixpoint for_loop {S X : Type} (body : S -> X -> Result S) (s : S) (xs : list X)
    : Result S :=
  match xs with
  | [] => Ok s
  | x :: rest => s' <- body s x ;;; for_loop body s' rest
  end.

#[local] Set Warnings "-register-all,-clear-no-such-hyp".

(** JSON-shaped data as [json.loads] builds it: the requirement set, and
    the metadata of a chunk. Numbers are integers. *)
Inductive value : Type :=
  | VNone
  | VBool (b : bool)
  | VInt (n : Z)
  | VStr (s : string)
  | VList (l : list value)
  | VDict (d : list (string * value)).

(** [range(0, stop, step)]: [ValueError] for a zero step, empty for a
    negative one. *)
Definition py_range_step (stop : nat) (step : Z) : Result (list nat) :=
  if decide (step = 0%Z) then Raise ValueError
  else if decide (step < 0)%Z then Ok []
  else
    let s := Z.to_nat step in
    Ok (map (fun k => k * s) (seq 0 ((stop + s - 1) / s))).

(** [l[i:i+n]] for [0 <= i]; a non-positive [n] gives the empty slice when
    [i + n <= i]. *)
Definition py_slice {A : Type} (l : list A) (i : nat) (n : Z) : list A :=
  take (Z.to_nat n) (drop i l).

(** ** Python strings *)

(** [c.isspace()] for a code point below 256. *)
Definition is_space (c : ascii) : bool :=
  let n := nat_of_ascii c in
  ((9 <=? n)%nat && (n <=? 13)%nat) || ((28 <=? n)%nat && (n <=? 32)%nat)
  || (n =? 133)%nat || (n =? 160)%nat.

Fixpoint lstrip (s : string) : string :=
  match s with
  | EmptyString => EmptyString
  | String c s' => if is_space c then lstrip s' else s
  end.

Definition string_rev (s : string) : string :=
  String.string_of_list_ascii (reverse (String.list_ascii_of_string s)).

(** [s.strip()]. *)
Definition strip (s : string) : string :=
  string_rev (lstrip (string_rev (lstrip s))).

(** [c.lower()] for a code point below 256: the letters [A-Z] and the
    capital letters of Latin-1. *)
Definition lower_char (c : ascii) : ascii :=
  let n := nat_of_ascii c in
  if ((65 <=? n)%nat && (n <=? 90)%nat)
     || ((192 <=? n)%nat && (n <=? 222)%nat && negb (n =? 215)%nat)
  then ascii_of_nat (n + 32)
  else c.

(** [s.lower()]. *)
Fixpoint lower (s : string) : string :=
  match s with
  | EmptyString => EmptyString
  | String c s' => String (lower_char c) (lower s')
  end.

(** [needle in hay] for two strings. *)
Fixpoint contains (needle hay : string) : bool :=
  String.prefix needle hay
  || match hay with
     | EmptyString => false
     | String _ hay' => contains needle hay'
     end.

(** [s[:n]]. *)
Definition first_chars (n : nat) (s : string) : string := String.substring 0 n s.

(** [bool(s)] for a string. *)
Definition nonempty (s : string) : bool :=
  match s with EmptyString => false | _ => true end.

(** ** Embedding client ([src/embedding/gemini_embedder.py]) *)

Module Embedder.
Definition Embedding : Type := list Q.

(** What [genai.embed_content] does on one call: it raises, or returns
    [result['embedding']]. *)
Inductive ApiOutcome : Type :=
  | ApiRaise (msg : string)
  | ApiReturn (embedding : list Embedding).

(** The remote API: the answer to the [k]-th call (counted from 0 over
    the whole run) with the given content and task type. *)
Definition Api : Type := nat -> list string -> string -> ApiOutcome.

Inductive Event : Type :=
  | EvCall (content : list string) (task_type : string)
  | EvSleep (seconds : Q).

Record World : Type := mkWorld {
  calls : nat;
  trace : list Event
}.

Definition world0 : World := mkWorld 0 [].

Definition do_call (w : World) (content : list string) (task_type : string) : World :=
  mkWorld (S (calls w)) (trace w ++ [EvCall content task_type]).

Definition do_sleep (w : World) (seconds : Q) : World :=
  mkWorld (calls w) (trace w ++ [EvSleep seconds]).

(** [time.sleep(seconds)] for a float. The delay is first converted to a
    count of nanoseconds held in a signed 64-bit integer: the count is
    computed as a float, [seconds * 1e9] rounded to the nearest float, and
    [OverflowError] is raised unless that float lies in [-2^63, 2^63). The
    floats next to [2^63] are [2^63 - 1024] and [2^63 + 2048] and a tie is
    rounded to [2^63], so the delay passes when
    [-(2^63 + 1024) <= seconds * 10^9 < 2^63 - 512]: a delay of more than
    9223372036.85 seconds, some 292 years, is refused, and so is the
    infinite float that a product too large for a float gives. *)
Definition sleep_overflows (seconds : Q) : bool :=
  let ns := Qmult seconds (inject_Z (10 ^ 9)) in
  Qle_bool (inject_Z (2 ^ 63 - 512)) ns
  || negb (Qle_bool (inject_Z (- (2 ^ 63 + 1024))) ns).

(** After the conversion, [ValueError] for a negative length. *)
Definition py_sleep (w : World) (seconds : Q) : Result World :=
  if sleep_overflows seconds then Raise OverflowError
  else if Qle_bool 0 seconds then Ok (do_sleep w seconds)
  else Raise ValueError.

(** [for j, embedding in enumerate(batch_embeddings):
       all_embeddings[i + j] = embedding]
    The assignment raises [IndexError] past the end of the list; the
    writes made before it stay. The boolean tells whether the loop ran
    to its end. *)
Fixpoint place_embeddings (all_embeddings : list (option Embedding)) (i : nat)
    (batch_embeddings : list Embedding) : bool * list (option Embedding) :=
  match batch_embeddings with
  | [] => (true, all_embeddings)
  | embedding :: rest =>
      if decide (i < length all_embeddings)
      then place_embeddings (<[i := Some embedding]> all_embeddings) (S i) rest
      else (false, all_embeddings)
  end.

(** The body of [try:]: the remote call and the placement of its
    answer. [false] stands for any exception reaching [except]. *)
Definition try_batch (api : Api) (w : World) (i : nat) (batch_texts : list string)
    (task_type : string) (all_embeddings : list (option Embedding))
    : bool * list (option Embedding) :=
  match api (calls w) batch_texts task_type with
  | ApiRaise _ => (false, all_embeddings)
  | ApiReturn batch_embeddings => place_embeddings all_embeddings i batch_embeddings
  end.

(** The delay before the retry numbered [current_retry], as a number:
    [initial_backoff * 2^(current_retry - 1)]. *)
Definition delay (initial_backoff : Q) (current_retry : Z) : Q :=
  Qmult initial_backoff (inject_Z (2 ^ (current_retry - 1))).

(** The first power of two that is no float: [float(2 ** 1024)] raises
    [OverflowError]. *)
Definition float_max_exponent : Z := 1024.

(** [backoff_time = initial_backoff * (2 ** (current_retry - 1))] for a
    float [initial_backoff]. The power is an [int] ([current_retry] starts
    at 0 and has just been incremented, so the exponent is not negative);
    it is converted to a
    float for the product, which raises [OverflowError] from [2 ** 1024]
    on, whatever [initial_backoff] is. The product of a float with a power
    of two is exact. *)
Definition backoff_time (initial_backoff : Q) (current_retry : Z) : Result Q :=
  if (float_max_exponent <=? current_retry - 1)%Z then Raise OverflowError
  else Ok (delay initial_backoff current_retry).

(** [while current_retry < max_retries: ...] for one batch. Every
    iteration that does not leave the loop increases [current_retry], so
    [Z.to_nat (max_retries - current_retry)] iterations are enough
    ([retry_loop_fuel] below). The delay is computed and slept in the
    [except] block: what these two lines raise leaves [embed_texts]. *)
Fixpoint retry_loop (fuel : nat) (api : Api) (i : nat) (batch_texts : list string)
    (task_type : string) (max_retries : Z) (initial_backoff : Q)
    (current_retry : Z) (w : World) (all_embeddings : list (option Embedding))
    : Result (World * list (option Embedding)) :=
  match fuel with
  | O => Ok (w, all_embeddings)
  | S fuel' =>
      if (current_retry <? max_retries)%Z then
        let w1 := do_call w batch_texts task_type in
        match try_batch api w i batch_texts task_type all_embeddings with
        | (true, out) => Ok (w1, out)
        | (false, out) =>
            let current_retry := (current_retry + 1)%Z in
            if (current_retry >=? max_retries)%Z then Ok (w1, out)
            else
              backoff_time <- backoff_time initial_backoff current_retry ;;;
              w2 <- py_sleep w1 backoff_time ;;;
              retry_loop fuel' api i batch_texts task_type max_retries
                initial_backoff current_retry w2 out
        end
      else Ok (w, all_embeddings)
  end.

(** The body of [for i in range(0, len(texts), batch_size)]. *)
Definition embed_batch (api : Api) (texts : list string) (task_type : string)
    (batch_size max_retries : Z) (initial_backoff : Q)
    (acc : World * list (option Embedding)) (i : nat)
    : Result (World * list (option Embedding)) :=
  let batch_texts := py_slice texts i batch_size in
  retry_loop (Z.to_nat max_retries) api i batch_texts task_type max_retries
    initial_backoff 0%Z acc.1 acc.2.

Definition embed_texts (api : Api) (w : World) (texts : list string)
    (task_type : string) (batch_size max_retries : Z) (initial_backoff : Q)
    : Result (list (option Embedding) * World) :=
  match texts with
  | [] => Ok ([], w)
  | _ =>
      let all_embeddings := replicate (length texts) None in
      starts <- py_range_step (length texts) batch_size ;;;
      r <- for_loop (embed_batch api texts task_type batch_size max_retries
                       initial_backoff) (w, all_embeddings) starts ;;;
      Ok (r.2, r.1)
  end.

(** Defaults of the signature. *)
Definition default_task_type : string := "RETRIEVAL_DOCUMENT".
Definition default_batch_size : Z := 100.
Definition default_max_retries : Z := 3.
Definition default_initial_backoff : Q := 1.

(** [embed_text]: [embed_texts([text], task_type, batch_size=1)[0]]. *)
Definition embed_text (api : Api) (w : World) (text : string) (task_type : string)
    : Result (option Embedding * World) :=
  r <- embed_texts api w [text] task_type 1 default_max_retries
         default_initial_backoff ;;;
  match r.1 with
  | [] => Ok (None, r.2)
  | e :: _ => Ok (e, r.2)
  end.

(** The delays that a run with [max_retries] attempts per batch can ask
    for, those before the retries 1 to [max_retries - 1], are all ones the
    client can sleep: none when [max_retries <= 1]; otherwise the initial
    delay is not negative, the largest power, [2 ** (max_retries - 2)], is
    a float, and the longest delay, the last, is one [time.sleep]
    accepts. *)
Definition delays_accepted (initial_backoff : Q) (max_retries : Z) : bool :=
  (max_retries <=? 1)%Z
  || (Qle_bool 0 initial_backoff
      && (max_retries - 2 <? float_max_exponent)%Z
      && negb (sleep_overflows (delay initial_backoff (max_retries - 1)))).

(** *** Reference description of one batch

    The events of [n] attempts on one batch, the first of them being
    attempt number [done + 1] of the batch: a call, then for every further
    attempt the sleep that precedes it and its call. The [k]-th retry
    ([k >= 1], [current_retry = k] in the source) is preceded by a sleep of
    [initial_backoff * 2^(k-1)]. *)
Definition retry_events (content : list string) (task_type : string)
    (initial_backoff : Q) (k : nat) : list Event :=
  [EvSleep (delay initial_backoff (Z.of_nat k)); EvCall content task_type].

Definition attempts_trace (content : list string) (task_type : string)
    (initial_backoff : Q) (done n : nat) : list Event :=
  match n with
  | O => []
  | S m => EvCall content task_type
           :: flat_map (retry_events content task_type initial_backoff) (seq (S done) m)
  end.

(** The first of the [n] calls numbered [c], [c+1], ... that returns, with
    the number of failed calls before it. *)
Fixpoint first_response (api : Api) (c : nat) (content : list string)
    (task_type : string) (n : nat) : option (nat * list Embedding) :=
  match n with
  | O => None
  | S n' =>
      match api c content task_type with
      | ApiReturn r => Some (0, r)
      | ApiRaise _ =>
          match first_response api (S c) content task_type n' with
          | Some (k, r) => Some (S k, r)
          | None => None
          end
      end
  end.

(** The contract of the remote call: an answer has one vector per item
    of the request. *)
Definition api_well_formed (api : Api) : Prop :=
  forall c content task_type r,
    api c content task_type = ApiReturn r -> length r = length content.

Definition attempts_made (o : option (nat * list Embedding)) (n : nat) : nat :=
  match o with
  | Some (k, _) => S k
  | None => n
  end.

(** What a batch contributes to the output: the vectors of the answer,
    or one absent marker per text. *)
Definition batch_block (o : option (nat * list Embedding)) (batch : list string)
    : list (option Embedding) :=
  match o with
  | Some (_, r) => map Some r
  | None => replicate (length batch) None
  end.

(** The batches of [texts] with the number of the call each one starts at,
    and the outcome of each. *)
Fixpoint batch_outcomes (api : Api) (c : nat) (batches : list (list string))
    (task_type : string) (n : nat)
    : list (nat * list string * option (nat * list Embedding)) :=
  match batches with
  | [] => []
  | b :: rest =>
      let o := first_response api c b task_type n in
      (c, b, o) :: batch_outcomes api (c + attempts_made o n) rest task_type n
  end.

Definition batches_of (texts : list string) (batch_size : Z) : list (list string) :=
  match py_range_step (length texts) batch_size with
  | Ok starts => map (fun i => py_slice texts i batch_size) starts
  | Raise _ => []
  end.

(** *** Facts about the placement loop *)

Lemma place_embeddings_length out i r :
  length (place_embeddings out i r).2 = length out.
Proof.
  revert out i. induction r as [|e r IH]; intros out i; simpl; [done|].
  case_decide; [|done]. by rewrite IH, length_insert.
Qed.

Lemma place_embeddings_fits out i r :
  i + length r <= length out ->
  place_embeddings out i r = (true, take i out ++ map Some r ++ drop (i + length r) out).
Proof.
  revert out i. induction r as [|e r IH]; intros out i Hfit; simpl in *.
  - by rewrite Nat.add_0_r, take_drop.
  - case_decide; [|lia].
    rewrite IH by (rewrite length_insert; lia).
    f_equal.
    assert (Hlk : (<[i:=Some e]> out) !! i = Some (Some e))
      by (apply list_lookup_insert_eq; lia).
    rewrite (take_S_r _ _ _ Hlk), take_insert_ge by lia.
    rewrite drop_insert_lt by lia.
    rewrite <- app_assoc. simpl.
    replace (S (i + length r)) with (i + S (length r)) by lia. done.
Qed.

(** *** Facts about the retry loop *)

Lemma try_batch_length api w i b t out :
  length (try_batch api w i b t out).2 = length out.
Proof.
  unfold try_batch. destruct (api _ _ _); [done|]. apply place_embeddings_length.
Qed.

Lemma delay_nonneg ib k : (0 <= ib)%Q -> (0 <= delay ib k)%Q.
Proof.
  intros Hib. unfold delay. apply Qmult_le_0_compat; [done|].
  change 0%Q with (inject_Z 0). rewrite <- Zle_Qle. apply Z.pow_nonneg. lia.
Qed.

Lemma delay_mono ib k k' :
  (0 <= ib)%Q -> (k <= k')%Z -> (delay ib k <= delay ib k')%Q.
Proof.
  intros Hib Hk. unfold delay.
  assert (Hpow : (inject_Z (2 ^ (k - 1)) <= inject_Z (2 ^ (k' - 1)))%Q).
  { rewrite <- Zle_Qle. apply Z.pow_le_mono_r; lia. }
  assert (Hlo : (0 <= inject_Z (2 ^ (k - 1)))%Q).
  { change 0%Q with (inject_Z 0). rewrite <- Zle_Qle. apply Z.pow_nonneg. lia. }
  nra.
Qed.

Lemma Qle_bool_false a b : (b < a)%Q -> Qle_bool a b = false.
Proof.
  intros Hlt. destruct (Qle_bool a b) eqn:Hle; [|done].
  apply Qle_bool_iff in Hle. by apply Qlt_not_le in Hlt.
Qed.

Lemma Qle_bool_true a b : (a <= b)%Q -> Qle_bool a b = true.
Proof. apply Qle_bool_iff. Qed.

(** A delay that is not negative and below the limit of the clock is
    slept. *)
Lemma py_sleep_accepted w seconds :
  (0 <= seconds)%Q -> sleep_overflows seconds = false ->
  py_sleep w seconds = Ok (do_sleep w seconds).
Proof.
  intros Hpos Hfit. unfold py_sleep. by rewrite Hfit, Qle_bool_true.
Qed.

Lemma sleep_overflows_below a b :
  (0 <= a)%Q -> (a <= b)%Q -> sleep_overflows b = false -> sleep_overflows a = false.
Proof.
  unfold sleep_overflows. cbv zeta. intros Ha Hab Hb.
  apply orb_false_iff in Hb as [Hhi _].
  assert (Hlt : (b * inject_Z (10 ^ 9) < inject_Z (2 ^ 63 - 512))%Q).
  { destruct (Qlt_le_dec (b * inject_Z (10 ^ 9)) (inject_Z (2 ^ 63 - 512)))
      as [|Hle]; [done|].
    apply Qle_bool_iff in Hle. congruence. }
  assert (Hnine : (0 < inject_Z (10 ^ 9))%Q) by done.
  assert (Hneg : (inject_Z (- (2 ^ 63 + 1024)) <= 0)%Q) by done.
  rewrite Qle_bool_false by nra. rewrite Qle_bool_true by nra. done.
Qed.

(** With delays that are accepted, the two lines before a retry neither
    raise: the delay is the product, and it is slept. *)
Lemma delays_accepted_retry w ib mr k :
  delays_accepted ib mr = true -> (1 <= k < mr)%Z ->
  backoff_time ib k = Ok (delay ib k) /\
  py_sleep w (delay ib k) = Ok (do_sleep w (delay ib k)).
Proof.
  unfold delays_accepted. intros Hacc Hk.
  apply orb_true_iff in Hacc as [Hone|Hacc]; [lia|].
  apply andb_true_iff in Hacc as [Hacc Hfit].
  apply andb_true_iff in Hacc as [Hib Hexp].
  apply Qle_bool_iff in Hib. apply negb_true_iff in Hfit.
  split.
  - unfold backoff_time. destruct (Z.leb_spec float_max_exponent (k - 1)); [lia|done].
  - apply py_sleep_accepted; [by apply delay_nonneg|].
    apply (sleep_overflows_below _ (delay ib (mr - 1))); [by apply delay_nonneg| |done].
    apply delay_mono; [done|lia].
Qed.


Lemma default_delays_accepted :
  delays_accepted default_initial_backoff default_max_retries = true.
Proof. vm_compute. reflexivity. Qed.

Lemma retry_loop_length fuel api i b t mr ib cr w out r :
  retry_loop fuel api i b t mr ib cr w out = Ok r -> length r.2 = length out.
Proof.
  revert cr w out. induction fuel as [|fuel IH]; intros cr w out; simpl.
  { by intros [= <-]. }
  destruct (cr <? mr)%Z; [|by intros [= <-]].
  pose proof (try_batch_length api w i b t out) as Hlen.
  destruct (try_batch api w i b t out) as [[] out']; simpl in *; [by intros [= <-]|].
  destruct (cr + 1 >=? mr)%Z; [by intros [= <-]|].
  destruct (backoff_time _ _) as [bt|e]; cbn [bind]; [|done].
  destruct (py_sleep _ _) as [w2|e]; cbn [bind]; [|done].
  intros Hrun. apply IH in Hrun. lia.
Qed.

(** The loop never stops for lack of fuel: more fuel changes nothing. *)
Lemma retry_loop_fuel fuel api i b t mr ib cr w out :
  Z.to_nat (mr - cr) <= fuel ->
  retry_loop fuel api i b t mr ib cr w out =
  retry_loop (Z.to_nat (mr - cr)) api i b t mr ib cr w out.
Proof.
  revert cr w out. induction fuel as [|fuel IH]; intros cr w out Hfuel.
  { by replace (Z.to_nat (mr - cr)) with 0 by lia. }
  destruct (Z.ltb_spec cr mr) as [Hlt|Hge].
  2:{ replace (Z.to_nat (mr - cr)) with 0 by lia. simpl.
      destruct (Z.ltb_spec cr mr); [lia|done]. }
  replace (Z.to_nat (mr - cr)) with (S (Z.to_nat (mr - (cr + 1)))) by lia.
  simpl. destruct (Z.ltb_spec cr mr); [|lia].
  destruct (try_batch api w i b t out) as [[] out']; [done|].
  destruct (cr + 1 >=? mr)%Z; [done|].
  destruct (backoff_time _ _) as [bt|e]; cbn [bind]; [|done].
  destruct (py_sleep _ _) as [w2|e]; cbn [bind]; [|done].
  apply IH. lia.
Qed.

(** The delays that are accepted are the only ones: when one of the
    delays a run can ask for is refused, a batch whose calls all raise
    ends the run with an exception. *)
Definition delay_refused (initial_backoff : Q) (current_retry : Z) : bool :=
  (float_max_exponent <=? current_retry - 1)%Z
  || sleep_overflows (delay initial_backoff current_retry)
  || negb (Qle_bool 0 (delay initial_backoff current_retry)).

Lemma delay_refused_raises w ib k :
  delay_refused ib k = true ->
  exists e, (bt <- backoff_time ib k ;;; py_sleep w bt) = Raise e.
Proof.
  unfold delay_refused, backoff_time, py_sleep. intros Href.
  destruct (float_max_exponent <=? k - 1)%Z; [by eexists|]. cbn [bind].
  destruct (sleep_overflows (delay ib k)); [by eexists|].
  destruct (Qle_bool 0 (delay ib k)); [done|by eexists].
Qed.

Lemma delays_refused ib mr :
  delays_accepted ib mr = false ->
  exists k, (1 <= k < mr)%Z /\ delay_refused ib k = true.
Proof.
  unfold delays_accepted. intros Hacc.
  apply orb_false_iff in Hacc as [Hmr Hacc]. apply Z.leb_gt in Hmr.
  apply andb_false_iff in Hacc as [Hacc|Hfit].
  - apply andb_false_iff in Hacc as [Hib|Hexp].
    + exists 1%Z. split; [lia|]. unfold delay_refused.
      replace (Qle_bool 0 (delay ib 1)) with false; [by rewrite orb_true_r|].
      symmetry. destruct (Qle_bool 0 (delay ib 1)) eqn:Hd; [|done].
      apply Qle_bool_iff in Hd. unfold delay in Hd.
      change (inject_Z (2 ^ (1 - 1))) with 1%Q in Hd.
      assert (Hpos : Qle_bool 0 ib = true) by (apply Qle_bool_iff; lra).
      congruence.
    + apply Z.ltb_ge in Hexp. unfold float_max_exponent in *.
      exists 1025%Z. split; [lia|]. done.
  - apply negb_false_iff in Hfit. exists (mr - 1)%Z. split; [lia|].
    unfold delay_refused. by rewrite Hfit, orb_true_r.
Qed.

Lemma retry_loop_refused fuel api i b t mr ib k :
  (forall c, exists msg, api c b t = ApiRaise msg) ->
  delay_refused ib k = true ->
  forall cr w out,
    (0 <= cr < k)%Z -> (k < mr)%Z -> Z.to_nat (mr - cr) <= fuel ->
    exists e, retry_loop fuel api i b t mr ib cr w out = Raise e.
Proof.
  intros Hdown Href. induction fuel as [|fuel IH]; intros cr w out Hcr Hk Hfuel; [lia|].
  simpl. destruct (Z.ltb_spec cr mr); [|lia].
  unfold try_batch. destruct (Hdown (calls w)) as [msg ->].
  destruct (Z.geb_spec (cr + 1) mr); [lia|].
  destruct (decide (k = cr + 1)%Z) as [->|Hne].
  { destruct (delay_refused_raises (do_call w b t) ib (cr + 1) Href) as [e He].
    exists e. destruct (backoff_time ib (cr + 1)) as [bt|e'];
      cbn [bind] in He |- *; [by rewrite He|by injection He as ->]. }
  destruct (backoff_time ib (cr + 1)) as [bt|e]; cbn [bind]; [|by eexists].
  destruct (py_sleep _ bt) as [w2|e]; cbn [bind]; [|by eexists].
  apply IH; lia.
Qed.

Lemma refused_delay_ends_the_run api texts t bs mr ib acc i :
  delays_accepted ib mr = false ->
  (forall c, exists msg, api c (py_slice texts i bs) t = ApiRaise msg) ->
  exists e, embed_batch api texts t bs mr ib acc i = Raise e.
Proof.
  intros Hacc Hdown. destruct (delays_refused ib mr Hacc) as (k & Hk & Href).
  unfold embed_batch.
  apply (retry_loop_refused _ _ _ _ _ _ _ k Hdown Href); lia.
Qed.

Lemma world_eta w : mkWorld (calls w) (trace w) = w.
Proof. by destruct w. Qed.

Lemma attempts_trace_S content t ib d n :
  attempts_trace content t ib d (S (S n)) =
  [EvCall content t; EvSleep (delay ib (Z.of_nat (S d)))]
  ++ attempts_trace content t ib (S d) (S n).
Proof. reflexivity. Qed.

(** Whatever the API answers, the loop returns, makes at most
    [max_retries] attempts, and its events are those of
    [attempts_trace]. *)
Lemma retry_loop_events fuel api i b t mr ib cr w out :
  delays_accepted ib mr = true -> (0 <= cr)%Z -> Z.to_nat (mr - cr) <= fuel ->
  exists m r,
    retry_loop fuel api i b t mr ib cr w out = Ok r /\
    m <= Z.to_nat (mr - cr) /\
    (m = 0 <-> (mr <= cr)%Z) /\
    calls r.1 = calls w + m /\
    trace r.1 = trace w ++ attempts_trace b t ib (Z.to_nat cr) m.
Proof.
  intros Hib. revert cr w out.
  induction fuel as [|fuel IH]; intros cr w out Hcr Hfuel.
  - exists 0, (w, out). simpl. rewrite Nat.add_0_r, app_nil_r.
    repeat split; try done; lia.
  - simpl. destruct (Z.ltb_spec cr mr) as [Hlt|Hge].
    2:{ exists 0, (w, out). simpl. rewrite Nat.add_0_r, app_nil_r.
        repeat split; try done; lia. }
    destruct (try_batch api w i b t out) as [[] out'].
    { exists 1. eexists. split; [done|]. simpl. repeat split; try done; lia. }
    destruct (Z.geb_spec (cr + 1) mr) as [Hlast|Hmore].
    { exists 1. eexists. split; [done|]. simpl. repeat split; try done; lia. }
    destruct (delays_accepted_retry (do_call w b t) ib mr (cr + 1) Hib ltac:(lia))
      as [Hbt Hsl].
    rewrite Hbt. cbn [bind]. rewrite Hsl. cbn [bind].
    destruct (IH (cr + 1)%Z
                (do_sleep (do_call w b t) (delay ib (cr + 1))) out')
      as (m & r & Hrun & Hm & Hm0 & Hcalls & Htrace); [lia|lia|].
    destruct m as [|m]; [lia|].
    exists (S (S m)), r. split; [done|].
    rewrite Hcalls, Htrace. simpl calls. simpl trace.
    repeat split; try lia.
    rewrite attempts_trace_S, <- !app_assoc. simpl.
    replace (Z.to_nat (cr + 1)) with (S (Z.to_nat cr)) by lia.
    replace (Z.of_nat (S (Z.to_nat cr))) with (cr + 1)%Z by lia.
    done.
Qed.

(** When every answer fits into the output list, the loop stops at the
    first call that returns and writes its vectors at [i ..]; when no call
    returns, it makes all its attempts and leaves the output as it was. *)
Lemma retry_loop_first_response fuel api i b t mr ib cr w out :
  delays_accepted ib mr = true -> (0 <= cr)%Z -> Z.to_nat (mr - cr) <= fuel ->
  (forall k r, first_response api (calls w) b t (Z.to_nat (mr - cr)) = Some (k, r) ->
               i + length r <= length out) ->
  let n := Z.to_nat (mr - cr) in
  let o := first_response api (calls w) b t n in
  retry_loop fuel api i b t mr ib cr w out =
    Ok (mkWorld (calls w + attempts_made o n)
          (trace w ++ attempts_trace b t ib (Z.to_nat cr) (attempts_made o n)),
        match o with
        | Some (_, r) => take i out ++ map Some r ++ drop (i + length r) out
        | None => out
        end).
Proof.
  intros Hib. revert cr w.
  induction fuel as [|fuel IH]; intros cr w Hcr Hfuel Hfit.
  - simpl. replace (Z.to_nat (mr - cr)) with 0 by lia. simpl.
    by rewrite Nat.add_0_r, app_nil_r, world_eta.
  - simpl. destruct (Z.ltb_spec cr mr) as [Hlt|Hge].
    2:{ replace (Z.to_nat (mr - cr)) with 0 by lia. simpl.
        by rewrite Nat.add_0_r, app_nil_r, world_eta. }
    revert Hfit.
    replace (Z.to_nat (mr - cr)) with (S (Z.to_nat (mr - (cr + 1)))) by lia.
    unfold try_batch. simpl first_response.
    destruct (api (calls w) b t) as [msg|r] eqn:Hapi; intros Hfit.
    + destruct (Z.geb_spec (cr + 1) mr) as [Hlast|Hmore].
      * replace (Z.to_nat (mr - (cr + 1))) with 0 by lia. simpl.
        unfold do_call. by rewrite Nat.add_1_r.
      * destruct (delays_accepted_retry (do_call w b t) ib mr (cr + 1) Hib ltac:(lia))
          as [Hbt Hsl].
        rewrite Hbt. cbn [bind]. rewrite Hsl. cbn [bind].
        rewrite IH; [|lia|lia|].
        2:{ simpl calls. intros k r Hk. apply (Hfit (S k) r). by rewrite Hk. }
        simpl calls. simpl trace.
        remember (first_response api (S (calls w)) b t (Z.to_nat (mr - (cr + 1)))) as o'.
        assert (Hpos : exists x, attempts_made o' (Z.to_nat (mr - (cr + 1))) = S x).
        { destruct o' as [[k r]|]; simpl; [by eexists|].
          exists (Z.to_nat (mr - (cr + 1)) - 1). lia. }
        destruct Hpos as [x Hx].
        assert (Hmade : attempts_made
                          match o' with Some (k, r) => Some (S k, r) | None => None end
                          (S (Z.to_nat (mr - (cr + 1)))) = S (S x)).
        { destruct o' as [[k r]|]; simpl in *; lia. }
        rewrite Hmade, Hx, attempts_trace_S, <- !app_assoc. simpl.
        replace (Z.to_nat (cr + 1)) with (S (Z.to_nat cr)) by lia.
        replace (Z.of_nat (S (Z.to_nat cr))) with (cr + 1)%Z by lia.
        do 2 f_equal; [f_equal; lia|].
        by destruct o' as [[k r]|].
    + rewrite place_embeddings_fits by eauto. simpl.
      unfold do_call. by rewrite Nat.add_1_r.
Qed.

(** *** The batch loop against its description by outcomes *)

Definition outcomes_output
    (outs : list (nat * list string * option (nat * list Embedding)))
    : list (option Embedding) :=
  concat (map (fun x => batch_block x.2 x.1.2) outs).

Definition outcomes_calls
    (outs : list (nat * list string * option (nat * list Embedding))) (n : nat) : nat :=
  sum_list (map (fun x => attempts_made x.2 n) outs).

Definition outcomes_trace (task_type : string) (initial_backoff : Q) (n : nat)
    (outs : list (nat * list string * option (nat * list Embedding))) : list Event :=
  concat (map (fun x => attempts_trace x.1.2 task_type initial_backoff 0
                          (attempts_made x.2 n)) outs).

Lemma first_response_Some api c b t n k r :
  first_response api c b t n = Some (k, r) ->
  k < n /\ api (c + k) b t = ApiReturn r /\
  forall j, j < k -> exists msg, api (c + j) b t = ApiRaise msg.
Proof.
  revert c k. induction n as [|n IH]; intros c k; simpl; [done|].
  destruct (api c b t) as [msg|r0] eqn:Hapi.
  - destruct (first_response api (S c) b t n) as [[k' r']|] eqn:Hrec; [|done].
    intros [= <- <-]. destruct (IH _ _ Hrec) as (Hk & Hret & Hfail).
    split; [lia|]. split; [by rewrite <- Nat.add_succ_comm|].
    intros [|j] Hj; [rewrite Nat.add_0_r; eauto|].
    rewrite <- Nat.add_succ_comm. apply Hfail. lia.
  - intros [= <- <-]. split; [lia|]. split; [by rewrite Nat.add_0_r|]. lia.
Qed.


Lemma batch_block_length api c b t n :
  api_well_formed api ->
  length (batch_block (first_response api c b t n) b) = length b.
Proof.
  intros Hwf. destruct (first_response api c b t n) as [[k r]|] eqn:Ho; simpl.
  - rewrite length_map. apply first_response_Some in Ho as (_ & Hret & _). eauto.
  - by rewrite length_replicate.
Qed.

Lemma embed_batch_step api texts t bs mr ib w pre i :
  api_well_formed api -> delays_accepted ib mr = true ->
  length pre = i ->
  i + length (py_slice texts i bs) <= length texts ->
  let b := py_slice texts i bs in
  let n := Z.to_nat mr in
  let o := first_response api (calls w) b t n in
  embed_batch api texts t bs mr ib (w, pre ++ replicate (length texts - i) None) i =
    Ok (mkWorld (calls w + attempts_made o n)
          (trace w ++ attempts_trace b t ib 0 (attempts_made o n)),
        (pre ++ batch_block o b) ++ replicate (length texts - i - length b) None).
Proof.
  intros Hwf Hib Hpre Hlen. cbv zeta. unfold embed_batch. simpl fst. simpl snd.
  remember (py_slice texts i bs) as b eqn:Hb. clear Hb.
  rewrite retry_loop_first_response; try lia; try done.
  2:{ intros k r Hret. apply first_response_Some in Hret as (_ & Hret & _).
      apply Hwf in Hret. rewrite length_app, length_replicate. lia. }
  rewrite Z.sub_0_r. do 2 f_equal.
  destruct (first_response api (calls w) b t (Z.to_nat mr)) as [[k r]|] eqn:Ho; simpl.
  - apply first_response_Some in Ho as (_ & Hret & _). apply Hwf in Hret.
    rewrite take_app_length' by done.
    rewrite drop_app_ge by lia. rewrite drop_replicate, <- app_assoc.
    do 3 f_equal. lia.
  - rewrite <- app_assoc. f_equal. rewrite <- replicate_add. f_equal. lia.
Qed.

Lemma py_slice_length {A : Type} (l : list A) i (bs : Z) :
  length (py_slice l i bs) = min (Z.to_nat bs) (length l - i).
Proof. unfold py_slice. by rewrite length_take, length_drop. Qed.

Lemma n_batches_lt len s j : 0 < s -> j < (len + s - 1) / s -> j * s < len.
Proof.
  intros Hs Hj.
  pose proof (Nat.div_mod_eq (len + s - 1) s) as Hdm.
  pose proof (Nat.mod_upper_bound (len + s - 1) s) as Hmod.
  nia.
Qed.

Lemma n_batches_cover len s : 0 < s -> len <= (len + s - 1) / s * s.
Proof.
  intros Hs.
  pose proof (Nat.div_mod_eq (len + s - 1) s) as Hdm.
  pose proof (Nat.mod_upper_bound (len + s - 1) s) as Hmod.
  nia.
Qed.

Lemma fold_batches api texts t bs mr ib m :
  forall k w pre,
  api_well_formed api -> delays_accepted ib mr = true -> (0 < bs)%Z ->
  length pre = min (k * Z.to_nat bs) (length texts) ->
  (forall j, k <= j < k + m -> j * Z.to_nat bs < length texts) ->
  let outs := batch_outcomes api (calls w)
                (map (fun j => py_slice texts (j * Z.to_nat bs) bs) (seq k m))
                t (Z.to_nat mr) in
  for_loop (embed_batch api texts t bs mr ib)
        (w, pre ++ replicate (length texts - k * Z.to_nat bs) None)
        (map (fun j => j * Z.to_nat bs) (seq k m)) =
    Ok (mkWorld (calls w + outcomes_calls outs (Z.to_nat mr))
          (trace w ++ outcomes_trace t ib (Z.to_nat mr) outs),
        (pre ++ outcomes_output outs)
          ++ replicate (length texts - (k + m) * Z.to_nat bs) None).
Proof.
  induction m as [|m IH]; intros k w pre Hwf Hib Hbs Hpre Hin; cbv zeta.
  - simpl. unfold outcomes_calls, outcomes_trace, outcomes_output. simpl.
    by rewrite !Nat.add_0_r, !app_nil_r, world_eta.
  - simpl seq. simpl map. cbn [for_loop].
    assert (Hk : k * Z.to_nat bs < length texts) by (apply Hin; lia).
    pose proof (py_slice_length texts (k * Z.to_nat bs) bs) as Hlb.
    rewrite embed_batch_step; [|done|done|lia|lia]. cbn [bind].
    set (b := py_slice texts (k * Z.to_nat bs) bs) in *.
    set (o := first_response api (calls w) b t (Z.to_nat mr)).
    replace (length texts - k * Z.to_nat bs - length b)
      with (length texts - S k * Z.to_nat bs) by lia.
    rewrite IH; try done.
    + simpl calls. simpl trace.
      unfold outcomes_calls, outcomes_trace, outcomes_output. simpl.
      fold o. do 2 f_equal.
      * f_equal; [lia|]. by rewrite <- app_assoc.
      * rewrite <- !app_assoc. do 3 f_equal. f_equal. lia.
    + rewrite length_app. unfold o. rewrite batch_block_length by done. lia.
    + intros j Hj. apply Hin. lia.
Qed.

(** [embed_texts] computes the concatenation of the blocks of its
    batches, each batch starting at the call the previous one stopped at. *)
Lemma embed_texts_outcomes api w texts t bs mr ib :
  api_well_formed api -> delays_accepted ib mr = true -> (0 < bs)%Z ->
  let outs := batch_outcomes api (calls w) (batches_of texts bs) t (Z.to_nat mr) in
  embed_texts api w texts t bs mr ib =
    Ok (outcomes_output outs,
        mkWorld (calls w + outcomes_calls outs (Z.to_nat mr))
          (trace w ++ outcomes_trace t ib (Z.to_nat mr) outs)).
Proof.
  intros Hwf Hib Hbs. cbv zeta. unfold embed_texts, batches_of, py_range_step.
  destruct (decide (bs = 0%Z)) as [|_]; [lia|].
  destruct (decide (bs < 0)%Z) as [|_]; [lia|].
  destruct texts as [|x texts'] eqn:Htexts.
  - simpl length. rewrite (Nat.div_small (0 + Z.to_nat bs - 1)) by lia.
    unfold outcomes_calls, outcomes_trace, outcomes_output. simpl.
    by rewrite Nat.add_0_r, app_nil_r, world_eta.
  - rewrite <- Htexts. clear Htexts x texts'. cbn [bind].
    pose proof (fold_batches api texts t bs mr ib
                  ((length texts + Z.to_nat bs - 1) / Z.to_nat bs) 0 w [] Hwf Hib Hbs)
      as Hfold.
    simpl in Hfold. rewrite Nat.sub_0_r in Hfold.
    rewrite map_map, Hfold; [|done|].
    + pose proof (n_batches_cover (length texts) (Z.to_nat bs) ltac:(lia)).
      replace (length texts - _) with 0 by lia. simpl. by rewrite app_nil_r.
    + intros j Hj. apply n_batches_lt; lia.
Qed.

Lemma first_response_all_raise api c b t n :
  (forall a, a < n -> exists msg, api (c + a) b t = ApiRaise msg) ->
  first_response api c b t n = None.
Proof.
  revert c. induction n as [|n IH]; intros c Hall; simpl; [done|].
  destruct (Hall 0 ltac:(lia)) as [msg Hmsg]. rewrite Nat.add_0_r in Hmsg.
  rewrite Hmsg, IH; [done|].
  intros a Ha. rewrite Nat.add_succ_comm. apply Hall. lia.
Qed.




Lemma for_loop_embed_batch_length api texts t bs mr ib starts acc r :
  for_loop (embed_batch api texts t bs mr ib) acc starts = Ok r ->
  length r.2 = length acc.2.
Proof.
  revert acc. induction starts as [|i starts IH]; intros acc; simpl.
  { by intros [= <-]. }
  destruct (embed_batch api texts t bs mr ib acc i) as [acc'|e] eqn:Hstep;
    cbn [bind]; [|done].
  intros Hrun. rewrite (IH _ Hrun). unfold embed_batch in Hstep.
  by apply retry_loop_length in Hstep.
Qed.

Lemma for_loop_embed_batch_returns api texts t bs mr ib starts :
  delays_accepted ib mr = true ->
  forall acc, exists r, for_loop (embed_batch api texts t bs mr ib) acc starts = Ok r.
Proof.
  intros Hib. induction starts as [|i starts IH]; intros acc; simpl; [by eexists|].
  unfold embed_batch at 1.
  destruct (retry_loop_events (Z.to_nat mr) api i (py_slice texts i bs) t mr ib 0
              acc.1 acc.2 Hib) as (m & r & -> & _); [lia|lia|].
  cbn [bind]. apply IH.
Qed.








Lemma embed_texts_returns api w texts t bs mr ib :
  bs <> 0%Z -> delays_accepted ib mr = true ->
  exists res w',
    embed_texts api w texts t bs mr ib = Ok (res, w') /\ length res = length texts.
Proof.
  intros Hbs Hib. unfold embed_texts, py_range_step.
  destruct texts as [|x texts]; [by exists [], w|].
  destruct (decide (bs = 0%Z)); [done|].
  destruct (decide (bs < 0)%Z); cbn [bind for_loop].
  - eexists _, _. split; [done|]. simpl. by rewrite length_replicate.
  - match goal with
    | |- context [for_loop ?f ?acc ?starts] =>
        destruct (for_loop_embed_batch_returns api (x :: texts) t bs mr ib starts
                    Hib acc) as [r Hr]
    end.
    rewrite Hr. cbn [bind]. eexists _, _. split; [done|].
    apply for_loop_embed_batch_length in Hr. rewrite Hr. simpl.
    by rewrite length_replicate.
Qed.

Lemma embed_texts_negative_batch api w texts t bs mr ib :
  (bs < 0)%Z ->
  embed_texts api w texts t bs mr ib = Ok (replicate (length texts) None, w).
Proof.
  intros Hbs. unfold embed_texts, py_range_step.
  destruct texts as [|x texts]; [done|].
  destruct (decide (bs = 0%Z)); [lia|].
  destruct (decide (bs < 0)%Z); [done|lia].
Qed.

(** A zero batch size makes [range] raise before any call is made. *)
Lemma embed_texts_zero_batch api w x texts t mr ib :
  embed_texts api w (x :: texts) t 0 mr ib = Raise ValueError.
Proof. reflexivity. Qed.


(** **** Length and order of the result *)


(** **** Retry policy of one batch *)


(** **** Isolation of a failing batch *)


(** **** Concrete runs *)

(** A remote service that answers every request, one vector per text. *)
Definition api_demo : Api :=
  fun _ content _ => ApiReturn (map (fun s => [inject_Z (Z.of_nat (String.length s))]) content).

(** The same service, failing on every request that holds [bad]. *)
Definition api_fail_on (bad : string) : Api :=
  fun c content t =>
    if bool_decide (bad ∈ content) then ApiRaise "unavailable"
    else api_demo c content t.

(** A service that is down. *)
Definition api_down : Api := fun _ _ _ => ApiRaise "unavailable".


Lemma api_demo_well_formed : api_well_formed api_demo.
Proof. intros c content t r [= <-]. by rewrite length_map. Qed.


(** Five texts in batches of two, the second batch failing: its calls
    are retried with sleeps of 1 and 2 seconds, its two entries stay
    absent, the batches around it are embedded. *)
Example embed_texts_isolated_run :
  embed_texts (api_fail_on "c") world0 ["a"; "b"; "c"; "d"; "e"]
    "RETRIEVAL_DOCUMENT" 2 3 1 =
  Ok ([Some [1%Q]; Some [1%Q]; None; None; Some [1%Q]],
   mkWorld 5
     [EvCall ["a"; "b"] "RETRIEVAL_DOCUMENT";
      EvCall ["c"; "d"] "RETRIEVAL_DOCUMENT"; EvSleep 1;
      EvCall ["c"; "d"] "RETRIEVAL_DOCUMENT"; EvSleep 2;
      EvCall ["c"; "d"] "RETRIEVAL_DOCUMENT";
      EvCall ["e"] "RETRIEVAL_DOCUMENT"]).
Proof. vm_compute. reflexivity. Qed.

(** With the defaults a batch that keeps failing costs three calls and
    two sleeps. *)
Example embed_texts_down_run :
  embed_texts api_down world0 ["a"] "RETRIEVAL_QUERY" default_batch_size
    default_max_retries default_initial_backoff =
  Ok ([None],
   mkWorld 3
     [EvCall ["a"] "RETRIEVAL_QUERY"; EvSleep 1;
      EvCall ["a"] "RETRIEVAL_QUERY"; EvSleep 2;
      EvCall ["a"] "RETRIEVAL_QUERY"]).
Proof. vm_compute. reflexivity. Qed.

(** [max_retries = 0]: the loop body never runs, no call is made. *)
Example embed_texts_no_attempt_run :
  embed_texts api_demo world0 ["a"] "RETRIEVAL_QUERY" 100 0 1 = Ok ([None], world0).
Proof. vm_compute. reflexivity. Qed.

(** An answer with more vectors than the last batch has texts: the first
    vector is written, the second assignment raises, and the batch is
    retried although its entry is already filled. *)
Example embed_texts_long_answer_run :
  embed_texts (fun _ _ _ => ApiReturn [[1%Q]; [2%Q]]) world0 ["a"]
    "RETRIEVAL_QUERY" 100 3 1 =
  Ok ([Some [1%Q]],
   mkWorld 3
     [EvCall ["a"] "RETRIEVAL_QUERY"; EvSleep 1;
      EvCall ["a"] "RETRIEVAL_QUERY"; EvSleep 2;
      EvCall ["a"] "RETRIEVAL_QUERY"]).
Proof. vm_compute. reflexivity. Qed.

(** A negative initial back-off: the first failure makes [time.sleep]
    raise, and the exception leaves [embed_texts]. *)
Example embed_texts_negative_backoff_run :
  embed_texts api_down world0 ["a"] "RETRIEVAL_QUERY" 100 3 (-1) = Raise ValueError.
Proof. vm_compute. reflexivity. Qed.

(** An initial back-off of [1e10] seconds is more than [time.sleep]
    takes: the first failure of the first batch ends the run with
    [OverflowError], and the second batch is never attempted. So does a
    back-off of one second once it has been doubled 34 times. *)
Example embed_texts_long_backoff_run :
  delays_accepted (inject_Z (10 ^ 10)) 3 = false /\
  embed_texts (api_fail_on "a") world0 ["a"; "b"] "RETRIEVAL_QUERY" 1 3
    (inject_Z (10 ^ 10)) = Raise OverflowError /\
  delays_accepted 1 35 = true /\ delays_accepted 1 36 = false /\
  embed_texts api_down world0 ["a"] "RETRIEVAL_QUERY" 100 36 1 = Raise OverflowError.
Proof. repeat split; vm_compute; reflexivity. Qed.

(** With 1100 attempts allowed and no back-off at all the delay before
    the retry 1025 cannot be computed, [2 ** 1024] being no float: the
    run ends with [OverflowError] after 1025 calls; 1025 attempts are
    still within reach. *)
Example embed_texts_many_retries_run :
  delays_accepted 0 1100 = false /\
  embed_texts api_down world0 ["a"] "RETRIEVAL_QUERY" 100 1100 0
    = Raise OverflowError /\
  delays_accepted 0 1025 = true /\
  (exists r, embed_texts api_down world0 ["a"] "RETRIEVAL_QUERY" 100 1025 0
               = Ok ([None], r) /\ calls r = 1025).
Proof.
  split; [vm_compute; reflexivity|]. split; [vm_compute; reflexivity|].
  split; [vm_compute; reflexivity|].
  eexists. split; [vm_compute; reflexivity|]. reflexivity.
Qed.




(** *** Cost and edge cases of [embed_texts] *)

Lemma for_loop_embed_batch_calls api texts t bs mr ib starts :
  delays_accepted ib mr = true ->
  forall acc, exists r,
    for_loop (embed_batch api texts t bs mr ib) acc starts = Ok r /\
    calls acc.1 + length starts * min 1 (Z.to_nat mr) <= calls r.1 /\
    calls r.1 <= calls acc.1 + length starts * Z.to_nat mr.
Proof.
  intros Hib. remember (min 1 (Z.to_nat mr)) as lo eqn:Hlo0.
  induction starts as [|i starts IH]; intros acc; cbn [for_loop length].
  { exists acc. split; [done|]. lia. }
  unfold embed_batch at 1.
  destruct (retry_loop_events (Z.to_nat mr) api i (py_slice texts i bs) t mr ib 0
              acc.1 acc.2 Hib) as (m & r & -> & Hm & Hm0 & Hcalls & _); [lia|lia|].
  cbn [bind].
  destruct (IH r) as (r' & -> & Hlo & Hhi).
  exists r'. split; [done|].
  rewrite Z.sub_0_r in Hm.
  assert (lo <= m) by (destruct m; lia).
  split; nia.
Qed.

Lemma for_loop_embed_batch_no_attempt api texts t bs mr ib starts acc :
  (mr <= 0)%Z ->
  for_loop (embed_batch api texts t bs mr ib) acc starts = Ok acc.
Proof.
  intros Hmr. induction starts as [|i starts IH]; simpl; [done|].
  unfold embed_batch at 1. replace (Z.to_nat mr) with 0 by lia. simpl.
  by destruct acc.
Qed.


(** X2. The inputs for which no call is made: an empty list of texts
    gives the empty list, whatever the other arguments; a batch size of
    zero with texts to embed makes [range] raise [ValueError]; a negative
    batch size, or a [max_retries] that is not positive, gives one absent
    marker per text. *)
Theorem embed_texts_without_call api w texts t bs mr ib :
  (texts = [] -> embed_texts api w texts t bs mr ib = Ok ([], w)) /\
  (texts <> [] -> bs = 0%Z ->
     embed_texts api w texts t bs mr ib = Raise ValueError) /\
  ((bs < 0)%Z \/ (bs <> 0%Z /\ (mr <= 0)%Z) ->
     embed_texts api w texts t bs mr ib = Ok (replicate (length texts) None, w)).
Proof.
  split; [by intros ->|]. split.
  - intros Hne ->. by destruct texts.
  - intros [Hneg|[Hbs Hmr]]; [by apply embed_texts_negative_batch|].
    unfold embed_texts, py_range_step.
    destruct texts as [|x texts]; [done|].
    destruct (decide (bs = 0%Z)); [done|].
    destruct (decide (bs < 0)%Z); [done|]. cbn [bind].
    by rewrite for_loop_embed_batch_no_attempt.
Qed.

(** *** A remote call that never fails *)

Lemma embed_batch_step_quiet api texts t bs mr ib w pre i r :
  (0 < mr)%Z ->
  length pre = i ->
  i + length (py_slice texts i bs) <= length texts ->
  api (calls w) (py_slice texts i bs) t = ApiReturn r ->
  length r = length (py_slice texts i bs) ->
  embed_batch api texts t bs mr ib (w, pre ++ replicate (length texts - i) None) i =
    Ok (do_call w (py_slice texts i bs) t,
        (pre ++ map Some r)
          ++ replicate (length texts - i - length (py_slice texts i bs)) None).
Proof.
  intros Hmr Hpre Hlen Hret Hr. unfold embed_batch. simpl fst. simpl snd.
  remember (py_slice texts i bs) as b eqn:Hb. clear Hb.
  destruct (Z.to_nat mr) as [|fuel] eqn:Hfuel; [lia|]. simpl.
  destruct (Z.ltb_spec 0 mr); [|lia].
  unfold try_batch. rewrite Hret.
  rewrite place_embeddings_fits by (rewrite length_app, length_replicate; lia).
  do 2 f_equal.
  rewrite take_app_length' by done.
  rewrite drop_app_ge by lia. rewrite drop_replicate, <- app_assoc.
  do 3 f_equal. lia.
Qed.

Lemma for_loop_quiet api texts t bs mr ib m :
  api_well_formed api ->
  (forall c b, exists r, api c b t = ApiReturn r) ->
  (0 < bs)%Z -> (0 < mr)%Z ->
  forall k w pre,
  length pre = min (k * Z.to_nat bs) (length texts) ->
  (forall j, k <= j < k + m -> j * Z.to_nat bs < length texts) ->
  exists out,
    for_loop (embed_batch api texts t bs mr ib)
      (w, pre ++ replicate (length texts - k * Z.to_nat bs) None)
      (map (fun j => j * Z.to_nat bs) (seq k m)) =
    Ok (mkWorld (calls w + m)
          (trace w ++ map (fun j => EvCall (py_slice texts (j * Z.to_nat bs) bs) t)
                        (seq k m)),
        (pre ++ map Some out)
          ++ replicate (length texts - (k + m) * Z.to_nat bs) None) /\
    length (pre ++ map Some out) = min ((k + m) * Z.to_nat bs) (length texts).
Proof.
  intros Hwf Hret Hbs Hmr. induction m as [|m IH]; intros k w pre Hpre Hin.
  - exists []. simpl. rewrite !Nat.add_0_r, !app_nil_r, world_eta. done.
  - simpl seq. simpl map. cbn [for_loop].
    assert (Hk : k * Z.to_nat bs < length texts) by (apply Hin; lia).
    pose proof (py_slice_length texts (k * Z.to_nat bs) bs) as Hlb.
    destruct (Hret (calls w) (py_slice texts (k * Z.to_nat bs) bs)) as [r Hr].
    pose proof (Hwf _ _ _ _ Hr) as Hlr.
    rewrite (embed_batch_step_quiet _ _ _ _ _ _ _ _ _ r); [|done|lia|lia|done|done].
    cbn [bind].
    set (b := py_slice texts (k * Z.to_nat bs) bs) in *.
    replace (length texts - k * Z.to_nat bs - length b)
      with (length texts - S k * Z.to_nat bs) by lia.
    destruct (IH (S k) (do_call w b t) (pre ++ map Some r)) as (out & Hrun & Hlen).
    + rewrite length_app, length_map. lia.
    + intros j Hj. apply Hin. lia.
    + exists (r ++ out). rewrite Hrun. simpl calls. simpl trace.
      rewrite map_app, !app_assoc in *.
      replace (S k + m) with (k + S m) in * by lia.
      split; [|done]. do 2 f_equal.
      f_equal; [lia|]. by rewrite <- app_assoc.
Qed.

(** X3. When the remote call never fails and keeps its contract, no
    entry of the result is absent, one call is made per batch and the
    client never sleeps, whatever the initial back-off: the trace of the
    run is the list of the calls, batch after batch. *)
Theorem embed_texts_all_succeed api w texts t bs mr ib :
  api_well_formed api ->
  (forall c b, exists r, api c b t = ApiReturn r) ->
  (0 < bs)%Z -> (0 < mr)%Z ->
  exists res w',
    embed_texts api w texts t bs mr ib = Ok (res, w') /\
    length res = length texts /\
    (forall p, p < length texts -> exists e, res !! p = Some (Some e)) /\
    calls w' = calls w + (length texts + Z.to_nat bs - 1) / Z.to_nat bs /\
    trace w' = trace w ++ map (fun b => EvCall b t) (batches_of texts bs).
Proof.
  intros Hwf Hret Hbs Hmr. unfold embed_texts, batches_of, py_range_step.
  destruct (decide (bs = 0%Z)) as [|_]; [lia|].
  destruct (decide (bs < 0)%Z) as [|_]; [lia|].
  destruct texts as [|x texts'] eqn:Htexts.
  { exists [], w. simpl length.
    rewrite (Nat.div_small (0 + Z.to_nat bs - 1)) by lia. simpl.
    rewrite Nat.add_0_r, app_nil_r. repeat split; try done. lia. }
  rewrite <- Htexts. clear Htexts x texts'. cbn [bind].
  destruct (for_loop_quiet api texts t bs mr ib
              ((length texts + Z.to_nat bs - 1) / Z.to_nat bs) Hwf Hret Hbs Hmr 0 w [])
    as (out & Hrun & Hlen); [done| |].
  { intros j Hj. apply n_batches_lt; lia. }
  simpl in Hrun, Hlen. rewrite Nat.sub_0_r in Hrun.
  rewrite Hrun. cbn [bind].
  pose proof (n_batches_cover (length texts) (Z.to_nat bs) ltac:(lia)).
  replace (length texts - _) with 0 by lia. simpl. rewrite app_nil_r.
  eexists _, _. split; [done|]. rewrite length_map in Hlen.
  split; [rewrite length_map; lia|]. split; [|split; [done|]].
  - intros p Hp. destruct (lookup_lt_is_Some_2 out p ltac:(lia)) as [e He].
    exists e. by rewrite list_lookup_fmap, He.
  - by rewrite !map_map.
Qed.

(** *** [embed_text] *)

Lemma place_embeddings_single x r :
  (place_embeddings [x] 0 r).2 = [match r with [] => x | e :: _ => Some e end].
Proof. destruct r as [|e [|e' r]]; reflexivity. Qed.

(** An entry of a one-text run: absent, or the first vector of an
    answer to the request. *)
Definition answer_head (api : Api) (text : string) (t : string)
    (x : option Embedding) : Prop :=
  x = None \/ exists c r e, api c [text] t = ApiReturn r /\ r !! 0 = Some e /\ x = Some e.

Lemma retry_loop_single fuel api text t mr ib :
  forall cr w x r,
    answer_head api text t x ->
    retry_loop fuel api 0 [text] t mr ib cr w [x] = Ok r ->
    exists x', r.2 = [x'] /\ answer_head api text t x'.
Proof.
  induction fuel as [|fuel IH]; intros cr w x r Hx; simpl.
  { intros [= <-]. by exists x. }
  destruct (cr <? mr)%Z; [|intros [= <-]; by exists x].
  assert (Hstep : exists x', (try_batch api w 0 [text] t [x]).2 = [x'] /\
                             answer_head api text t x').
  { unfold try_batch. destruct (api (calls w) [text] t) as [msg|a] eqn:Hapi.
    - by exists x.
    - rewrite place_embeddings_single. eexists. split; [done|].
      destruct a as [|e a]; [done|]. right. by exists (calls w), (e :: a), e. }
  destruct Hstep as (x' & Hout & Hx').
  destruct (try_batch api w 0 [text] t [x]) as [[] out']; simpl in Hout; subst out'.
  { intros [= <-]. by exists x'. }
  destruct (cr + 1 >=? mr)%Z; [intros [= <-]; by exists x'|].
  destruct (backoff_time _ _) as [bt|e]; cbn [bind]; [|done].
  destruct (py_sleep _ _) as [w2|e]; cbn [bind]; [|done].
  by apply IH.
Qed.

(** X4. [embed_text] returns for every text, whatever the remote call
    does, after at most three calls; its result is absent or the first
    vector of an answer to the request [[text]]. It is absent with three
    calls made when the three calls raise, and it is the vector of the
    first answer, with one call made, when that answer holds one
    vector. *)
Theorem embed_text_outcome api w text t :
  exists res w',
    embed_text api w text t = Ok (res, w') /\
    calls w <= calls w' <= calls w + 3 /\
    answer_head api text t res /\
    ((forall a, a < 3 -> exists msg, api (calls w + a) [text] t = ApiRaise msg) ->
       res = None /\ calls w' = calls w + 3) /\
    (forall e, api (calls w) [text] t = ApiReturn [e] ->
       res = Some e /\ calls w' = calls w + 1).
Proof.
  destruct (retry_loop_events 3 api 0 [text] t 3 1 0 w [None])
    as (m & r & Hrun & Hm & _ & Hcalls & _); [done|lia|lia|].
  destruct (retry_loop_single 3 api text t 3 1 0 w None r) as (x' & Hout & Hx');
    [by left|done|].
  pose proof (retry_loop_first_response 3 api 0 [text] t 3 1 0 w [None]
                ltac:(done) ltac:(lia) ltac:(lia)) as Hfirst.
  cbv zeta in Hfirst. change (Z.to_nat (3 - 0)) with 3 in Hfirst, Hm.
  assert (Hemb : embed_texts api w [text] t 1 default_max_retries
                   default_initial_backoff = Ok (r.2, r.1)).
  { unfold embed_texts.
    change (py_range_step (length [text]) 1) with (Ok (A:=list nat) [0]).
    cbn [bind for_loop]. unfold embed_batch. cbn [fst snd].
    change (retry_loop (Z.to_nat default_max_retries) api 0 (py_slice [text] 0 1) t
              default_max_retries default_initial_backoff 0 w
              (replicate (length [text]) None) = Ok r) in Hrun.
    by rewrite Hrun. }
  unfold embed_text. rewrite Hemb. cbn [bind fst snd]. rewrite Hout.
  exists x', r.1. split; [done|]. split; [lia|]. split; [done|]. split.
  - intros Hall. apply first_response_all_raise in Hall.
    rewrite Hall in Hfirst. rewrite Hfirst in Hrun by done.
    apply Ok_inj in Hrun. subst r. simpl in *. split; [congruence|lia].
  - intros e He.
    assert (Hfr : first_response api (calls w) [text] t 3 = Some (0, [e]))
      by (simpl; by rewrite He).
    rewrite Hfr in Hfirst. rewrite Hfirst in Hrun by (by intros k r' [= <- <-]).
    apply Ok_inj in Hrun. subst r. simpl in *. split; [congruence|lia].
Qed.


Lemma embed_texts_all_succeed_witness :
  api_well_formed api_demo /\
  (forall c b, exists r, api_demo c b "RETRIEVAL_DOCUMENT" = ApiReturn r) /\
  (0 < 2)%Z /\ (0 < 3)%Z /\
  exists res w',
    embed_texts api_demo world0 ["a"; "b"; "c"] "RETRIEVAL_DOCUMENT" 2 3 (-1)
      = Ok (res, w') /\
    calls w' = 2.
Proof.
  split; [apply api_demo_well_formed|].
  split; [intros c b; by eexists|]. split; [lia|]. split; [lia|].
  destruct (embed_texts_all_succeed api_demo world0 ["a"; "b"; "c"]
              "RETRIEVAL_DOCUMENT" 2 3 (-1) api_demo_well_formed
              (fun c b => ex_intro _ _ eq_refl) ltac:(lia) ltac:(lia))
    as (res & w' & Hres & _ & _ & Hcalls & _).
  exists res, w'. split; [exact Hres|exact Hcalls].
Defined.

(** *** Time spent sleeping *)













End Embedder.

(** ** Vector store manager ([src/vector_store/chroma_manager.py]) *)

Module Chroma.

Definition Metadata : Type := list (string * value).

Record IndexRecord : Type := mkRecord {
  rec_embedding : Embedder.Embedding;
  rec_metadata : Metadata;
  rec_document : string
}.

(** Modelled from the spec: the collection of the vector database, a
    third-party service that is not part of the sources. It holds
    records [(id, vector, text, metadata)] keyed by [id] (spec 3,
    IndexRecord). [add_calls] counts the calls of [collection.add]. *)
Record Collection : Type := mkCollection {
  records : gmap string IndexRecord;
  add_calls : nat
}.

Definition empty_collection : Collection := mkCollection ∅ 0.

(** [collection.count()]. *)
Definition collection_count (col : Collection) : nat := size (records col).

(** Modelled from the spec: what [collection.add] does with a record
    whose id is in the collection. The specification has it replaced
    (spec 4.3, "overwritten in place", and the comment in [add_documents]
    that takes [add] to upsert): [Replace]. A store that keeps the record
    it holds is [Keep]; one that rejects the batch raises. *)
Inductive AddPolicy : Type :=
  | Replace
  | Keep.

(** The collection as [add_documents] meets it: the policy of [add], and
    whether its [k]-th call raises. *)
Record Backend : Type := mkBackend {
  add_policy : AddPolicy;
  add_raises : nat -> bool
}.

(** The rows of four parallel lists. *)
Definition rows (ids : list string) (embeddings : list Embedder.Embedding)
    (metadatas : list Metadata) (documents : list string)
    : list (string * IndexRecord) :=
  zip ids (zip_with (fun e md => mkRecord e md.1 md.2) embeddings (zip metadatas documents)).

Definition write_row (policy : AddPolicy) (m : gmap string IndexRecord)
    (row : string * IndexRecord) : gmap string IndexRecord :=
  match policy, m !! row.1 with
  | Keep, Some _ => m
  | _, _ => <[row.1 := row.2]> m
  end.

Definition write_rows (policy : AddPolicy) (m : gmap string IndexRecord)
    (rs : list (string * IndexRecord)) : gmap string IndexRecord :=
  foldl (write_row policy) m rs.

(** Modelled from the spec: [collection.add(ids, embeddings, metadatas,
    documents)]. A call that raises writes nothing. *)
Definition collection_add (backend : Backend) (col : Collection)
    (ids : list string) (embeddings : list Embedder.Embedding)
    (metadatas : list Metadata) (documents : list string)
    : Result unit * Collection :=
  if add_raises backend (add_calls col)
  then (Raise (LibraryError "add"), mkCollection (records col) (S (add_calls col)))
  else (Ok tt,
        mkCollection (write_rows (add_policy backend) (records col)
                        (rows ids embeddings metadatas documents))
          (S (add_calls col))).

(** The body of [for i in range(0, len(ids), batch_size)]: the four
    slices, and [collection.add] inside [try]; an exception is reported
    and the loop goes on. *)
Definition add_batch (backend : Backend) (ids : list string)
    (embeddings : list Embedder.Embedding) (metadatas : list Metadata)
    (documents : list string) (batch_size : Z) (col : Collection) (i : nat)
    : Collection :=
  let batch_ids := py_slice ids i batch_size in
  let batch_embeddings := py_slice embeddings i batch_size in
  let batch_metadatas := py_slice metadatas i batch_size in
  let batch_documents := py_slice documents i batch_size in
  (collection_add backend col batch_ids batch_embeddings batch_metadatas batch_documents).2.

Definition same_lengths (ids : list string) (embeddings : list Embedder.Embedding)
    (metadatas : list Metadata) (documents : list string) : bool :=
  bool_decide (length ids = length embeddings)
  && bool_decide (length embeddings = length metadatas)
  && bool_decide (length metadatas = length documents).

Definition add_documents (backend : Backend) (col : Collection)
    (ids : list string) (embeddings : list Embedder.Embedding)
    (metadatas : list Metadata) (documents : list string) (batch_size : Z)
    : Result unit * Collection :=
  if negb (same_lengths ids embeddings metadatas documents) then (Ok tt, col)
  else
    match ids with
    | [] => (Ok tt, col)
    | _ =>
        match py_range_step (length ids) batch_size with
        | Raise e => (Raise e, col)
        | Ok starts =>
            (Ok tt, foldl (add_batch backend ids embeddings metadatas documents batch_size)
                      col starts)
        end
    end.

(** What [collection.query] gives back: the parallel arrays of the
    matches of every query embedding; an array that was not asked for is
    [None]. *)
Record QueryResult : Type := mkQueryResult {
  qr_ids : list (list string);
  qr_documents : option (list (list string));
  qr_metadatas : option (list (list Metadata));
  qr_distances : option (list (list Q))
}.

(** The collection's [query] method, an external call. *)
Definition CollectionQuery : Type :=
  list Embedder.Embedding -> Z -> option Metadata -> option Metadata -> list string
  -> Result QueryResult.

Definition default_include : list string := ["metadatas"; "documents"; "distances"].

(** [query_collection]: [None] without query embeddings, and [None] when
    the call inside [try] raises. *)
Definition query_collection (collection_query : CollectionQuery)
    (query_embeddings : list Embedder.Embedding) (n_results : Z)
    (where_filter where_document_filter : option Metadata) (include : list string)
    : Result (option QueryResult) :=
  match query_embeddings with
  | [] => Ok None
  | _ =>
      match collection_query query_embeddings n_results where_filter
              where_document_filter include with
      | Ok results => Ok (Some results)
      | Raise _ => Ok None
      end
  end.

(** *** Writing rows *)

Lemma write_row_dom policy (m : gmap string IndexRecord) row :
  is_Some (m !! row.1) -> dom (write_row policy m row) = dom m.
Proof.
  intros Hin. unfold write_row.
  destruct policy, (m !! row.1) eqn:Hrow; try done; try by destruct Hin.
  apply dom_insert_lookup_L. by rewrite Hrow.
Qed.

Lemma write_row_present policy (m : gmap string IndexRecord) row :
  is_Some (write_row policy m row !! row.1).
Proof.
  unfold write_row.
  destruct policy, (m !! row.1) eqn:Hrow; rewrite ?lookup_insert_eq, ?Hrow; by eexists.
Qed.

Lemma write_row_other policy (m : gmap string IndexRecord) row id :
  row.1 <> id -> write_row policy m row !! id = m !! id.
Proof.
  intros Hne. unfold write_row.
  destruct policy, (m !! row.1); by rewrite ?lookup_insert_ne.
Qed.

Lemma write_row_mono policy (m : gmap string IndexRecord) row id :
  is_Some (m !! id) -> is_Some (write_row policy m row !! id).
Proof.
  intros Hin. destruct (decide (row.1 = id)) as [<-|Hne].
  - apply write_row_present.
  - by rewrite write_row_other.
Qed.

Lemma write_rows_dom policy rs :
  forall m : gmap string IndexRecord,
    (forall row, row ∈ rs -> is_Some (m !! row.1)) ->
    dom (write_rows policy m rs) = dom m.
Proof.
  induction rs as [|row rs IH]; intros m Hin; [done|].
  unfold write_rows in *. simpl. rewrite IH.
  - apply write_row_dom. apply Hin. by left.
  - intros row' Hrow'. apply write_row_mono. apply Hin. by right.
Qed.

Lemma write_rows_app policy (m : gmap string IndexRecord) rs1 rs2 :
  write_rows policy m (rs1 ++ rs2) = write_rows policy (write_rows policy m rs1) rs2.
Proof. unfold write_rows. apply foldl_app. Qed.

Lemma write_rows_other policy rs :
  forall (m : gmap string IndexRecord) id,
    id ∉ rs.*1 -> write_rows policy m rs !! id = m !! id.
Proof.
  induction rs as [|row rs IH]; intros m id Hid; [done|].
  unfold write_rows in *. simpl in *.
  rewrite IH by (intros ?; apply Hid; by right).
  apply write_row_other. intros Heq. apply Hid. rewrite <- Heq. by left.
Qed.

(** Under [Replace] the record found under an id is the one of its last
    row. *)
Lemma write_rows_last rs :
  forall (m : gmap string IndexRecord) p id r,
    rs !! p = Some (id, r) ->
    id ∉ (drop (S p) rs).*1 ->
    write_rows Replace m rs !! id = Some r.
Proof.
  induction rs as [|row rs IH]; intros m p id r Hp Hlast; [done|].
  destruct p as [|p]; simpl in *.
  - injection Hp as ->. unfold write_rows. simpl.
    fold (write_rows Replace (<[id:=r]> m) rs).
    rewrite write_rows_other by done. apply lookup_insert_eq.
  - unfold write_rows. simpl. by eapply IH.
Qed.

(** Under [Keep] a record that is in the collection stays as it is. *)
Lemma write_rows_kept rs :
  forall (m : gmap string IndexRecord) id r,
    m !! id = Some r -> write_rows Keep m rs !! id = Some r.
Proof.
  induction rs as [|row rs IH]; intros m id r Hid; [done|].
  unfold write_rows in *. simpl. apply IH.
  unfold write_row. destruct (m !! row.1) eqn:Hrow; [done|].
  rewrite lookup_insert_ne; [done|]. intros Heq. rewrite Heq in Hrow. congruence.
Qed.

Lemma write_rows_present policy rs :
  forall (m : gmap string IndexRecord) row,
    row ∈ rs -> is_Some (write_rows policy m rs !! row.1).
Proof.
  induction rs as [|row0 rs IH] using rev_ind; intros m row Hrow.
  - by apply elem_of_nil in Hrow.
  - rewrite write_rows_app. unfold write_rows at 1. simpl.
    apply elem_of_app in Hrow as [Hrow|Hrow].
    + apply write_row_mono. by apply IH.
    + apply list_elem_of_singleton in Hrow. subst. apply write_row_present.
Qed.

Lemma rows_slice ids embeddings metadatas documents i (bs : Z) :
  rows (py_slice ids i bs) (py_slice embeddings i bs) (py_slice metadatas i bs)
       (py_slice documents i bs)
  = py_slice (rows ids embeddings metadatas documents) i bs.
Proof.
  unfold rows, py_slice.
  by rewrite !zip_with_drop, !zip_with_take.
Qed.

Lemma rows_ids ids embeddings metadatas documents :
  length ids = length embeddings -> length embeddings = length metadatas ->
  length metadatas = length documents ->
  (rows ids embeddings metadatas documents).*1 = ids.
Proof.
  intros H1 H2 H3. unfold rows. apply fst_zip.
  rewrite length_zip_with, length_zip_with. lia.
Qed.

Lemma rows_elem_of ids embeddings metadatas documents row :
  row ∈ rows ids embeddings metadatas documents -> row.1 ∈ ids.
Proof. unfold rows. destruct row as [id r]. apply elem_of_zip_l. Qed.

Lemma rows_lookup ids embeddings metadatas documents p id e md d :
  ids !! p = Some id -> embeddings !! p = Some e -> metadatas !! p = Some md ->
  documents !! p = Some d ->
  rows ids embeddings metadatas documents !! p = Some (id, mkRecord e md d).
Proof.
  intros Hid He Hmd Hd. unfold rows.
  rewrite !lookup_zip_with, Hid, He, Hmd, Hd. done.
Qed.

(** *** The batch loop of [add_documents] *)

Section AddDocuments.

Variable backend : Backend.
Variables (ids : list string) (embeddings : list Embedder.Embedding)
          (metadatas : list Metadata) (documents : list string).
Variable batch_size : Z.

Let all_rows := rows ids embeddings metadatas documents.
Let step := add_batch backend ids embeddings metadatas documents batch_size.

Lemma add_batch_calls col i : add_calls (step col i) = S (add_calls col).
Proof.
  unfold step, add_batch, collection_add. by destruct (add_raises backend (add_calls col)).
Qed.

Lemma add_batch_records col i :
  records (step col i) =
    if add_raises backend (add_calls col) then records col
    else write_rows (add_policy backend) (records col) (py_slice all_rows i batch_size).
Proof.
  unfold step, add_batch, collection_add.
  destruct (add_raises backend (add_calls col)); simpl; [done|]. by rewrite rows_slice.
Qed.

Lemma py_slice_elem_of {A : Type} (l : list A) i (bs : Z) x :
  x ∈ py_slice l i bs -> x ∈ l.
Proof.
  unfold py_slice. intros Hx.
  apply (subseteq_drop i l). by apply (subseteq_take (Z.to_nat bs) (drop i l)).
Qed.

Lemma add_batch_dom col i :
  (forall id, id ∈ ids -> is_Some (records col !! id)) ->
  dom (records (step col i)) = dom (records col).
Proof.
  intros Hin. rewrite add_batch_records.
  destruct (add_raises backend (add_calls col)); [done|].
  apply write_rows_dom. intros row Hrow.
  apply Hin. eapply rows_elem_of. eapply py_slice_elem_of. exact Hrow.
Qed.

Lemma fold_add_batch_dom starts :
  forall col,
    (forall id, id ∈ ids -> is_Some (records col !! id)) ->
    dom (records (foldl step col starts)) = dom (records col).
Proof.
  induction starts as [|i starts IH]; intros col Hin; simpl; [done|].
  rewrite IH.
  - by apply add_batch_dom.
  - intros id Hid. apply elem_of_dom. rewrite add_batch_dom by done.
    apply elem_of_dom. by apply Hin.
Qed.

Lemma fold_add_batch_calls starts :
  forall col, add_calls (foldl step col starts) = add_calls col + length starts.
Proof.
  induction starts as [|i starts IH]; intros col; simpl; [lia|].
  rewrite IH, add_batch_calls. lia.
Qed.

Lemma fold_add_batch_no_raise m :
  forall k col,
    (0 < batch_size)%Z ->
    (forall j, add_calls col <= j < add_calls col + m -> add_raises backend j = false) ->
    records (foldl step col (map (fun j => j * Z.to_nat batch_size) (seq k m))) =
      write_rows (add_policy backend) (records col)
        (take (m * Z.to_nat batch_size) (drop (k * Z.to_nat batch_size) all_rows)).
Proof.
  induction m as [|m IH]; intros k col Hbs Hok; [done|].
  simpl seq. simpl map. simpl foldl.
  rewrite IH; [|done|].
  - rewrite add_batch_records, Hok by lia.
    rewrite <- write_rows_app. f_equal. unfold py_slice.
    replace (drop (S k * Z.to_nat batch_size) all_rows)
      with (drop (Z.to_nat batch_size) (drop (k * Z.to_nat batch_size) all_rows))
      by (rewrite drop_drop; f_equal; lia).
    rewrite take_take_drop. f_equal.
  - intros j Hj. rewrite add_batch_calls in Hj. apply Hok. lia.
Qed.

End AddDocuments.

Lemma add_documents_dom backend col ids embeddings metadatas documents bs :
  (forall id, id ∈ ids -> is_Some (records col !! id)) ->
  dom (records (add_documents backend col ids embeddings metadatas documents bs).2)
    = dom (records col).
Proof.
  intros Hin. unfold add_documents.
  destruct (negb _); [done|]. destruct ids as [|id0 ids']; [done|].
  destruct (py_range_step _ _) as [starts|e]; [|done].
  simpl. by apply fold_add_batch_dom.
Qed.

(** Without a failing call, a call of [add_documents] with lists of one
    length and a positive batch size writes all the rows, in order. *)
Lemma add_documents_no_raise backend col ids embeddings metadatas documents bs :
  same_lengths ids embeddings metadatas documents = true ->
  (0 < bs)%Z ->
  let col1 := (add_documents backend col ids embeddings metadatas documents bs).2 in
  (forall j, add_calls col <= j < add_calls col1 -> add_raises backend j = false) ->
  records col1 = write_rows (add_policy backend) (records col)
                   (rows ids embeddings metadatas documents).
Proof.
  intros Hlen Hbs. cbv zeta. unfold add_documents, py_range_step. rewrite Hlen. simpl negb.
  destruct (decide (bs = 0%Z)) as [|_]; [lia|].
  destruct (decide (bs < 0)%Z) as [|_]; [lia|].
  destruct ids as [|id0 ids']; [done|].
  remember (id0 :: ids') as ids eqn:Hids. clear Hids.
  cbn [snd fst]. rewrite fold_add_batch_calls, length_map, length_seq.
  intros Hok. rewrite fold_add_batch_no_raise by done.
  rewrite drop_0, take_ge; [done|].
  pose proof (Embedder.n_batches_cover (length ids) (Z.to_nat bs) ltac:(lia)) as Hcover.
  unfold rows. rewrite length_zip_with. lia.
Qed.

Lemma add_documents_nothing_to_do backend col ids embeddings metadatas documents bs :
  same_lengths ids embeddings metadatas documents = false \/ (bs <= 0)%Z ->
  (add_documents backend col ids embeddings metadatas documents bs).2 = col.
Proof.
  unfold add_documents, py_range_step. intros [->|Hbs]; [done|].
  destruct (negb _); [done|]. destruct ids as [|id0 ids']; [done|].
  destruct (decide (bs = 0%Z)); [done|].
  destruct (decide (bs < 0)%Z); [done|lia].
Qed.

Lemma collection_count_dom col1 col2 :
  dom (records col1) = dom (records col2) -> collection_count col1 = collection_count col2.
Proof.
  intros Hdom. unfold collection_count.
  by rewrite <- (size_dom (records col1)), <- (size_dom (records col2)), Hdom.
Qed.

Lemma same_lengths_true ids embeddings metadatas documents :
  same_lengths ids embeddings metadatas documents = true ->
  length ids = length embeddings /\ length embeddings = length metadatas /\
  length metadatas = length documents.
Proof.
  unfold same_lengths. intros H.
  apply andb_prop in H as [H H3]. apply andb_prop in H as [H1 H2].
  by rewrite !bool_decide_eq_true in H1, H2, H3.
Qed.

(** *** Upsert *)

(** C3. [add_documents] on ids that are all in the collection leaves
    [count()] and the set of ids as they were, whether [add] replaces or
    keeps the record of an existing id (a). Where [add] replaces it, as
    the specification has it, the record found under an id afterwards is
    the one of its last row in the call, when no call of the collection
    raised (b). And when a first call went through, the same call a
    second time leaves [count()] and the set of ids unchanged, whatever the
    collection does during it (c). *)
Theorem upsert_idempotent backend col ids embeddings metadatas documents bs :
  let col1 := (add_documents backend col ids embeddings metadatas documents bs).2 in
  let col2 := (add_documents backend col1 ids embeddings metadatas documents bs).2 in
  ((forall id, id ∈ ids -> is_Some (records col !! id)) ->
     collection_count col1 = collection_count col /\
     dom (records col1) = dom (records col)) /\
  (add_policy backend = Replace ->
   same_lengths ids embeddings metadatas documents = true -> (0 < bs)%Z ->
   (forall j, add_calls col <= j < add_calls col1 -> add_raises backend j = false) ->
   forall p id e md d,
     ids !! p = Some id -> embeddings !! p = Some e ->
     metadatas !! p = Some md -> documents !! p = Some d ->
     id ∉ drop (S p) ids ->
     records col1 !! id = Some (mkRecord e md d)) /\
  ((forall j, add_calls col <= j < add_calls col1 -> add_raises backend j = false) ->
     collection_count col2 = collection_count col1 /\
     dom (records col2) = dom (records col1)).
Proof.
  cbv zeta. split; [|split].
  - intros Hin.
    pose proof (add_documents_dom backend col ids embeddings metadatas documents bs Hin).
    split; [by apply collection_count_dom|done].
  - intros Hpolicy Hlen Hbs Hok p id e md d Hid He Hmd Hd Hlast.
    rewrite add_documents_no_raise, Hpolicy by done.
    apply (write_rows_last _ _ p); [by apply rows_lookup|].
    apply same_lengths_true in Hlen as (H1 & H2 & H3).
    by rewrite fmap_drop, rows_ids.
  - intros Hok.
    destruct (same_lengths ids embeddings metadatas documents) eqn:Hlen.
    2:{ rewrite !add_documents_nothing_to_do by (by left). done. }
    destruct (decide (0 < bs)%Z) as [Hbs|Hbs].
    2:{ rewrite !add_documents_nothing_to_do by (right; lia). done. }
    assert (Hin : forall id, id ∈ ids ->
              is_Some (records (add_documents backend col ids embeddings metadatas
                                  documents bs).2 !! id)).
    { intros id Hid. rewrite add_documents_no_raise by done.
      assert (Hrows : id ∈ (rows ids embeddings metadatas documents).*1).
      { apply same_lengths_true in Hlen as (H1 & H2 & H3). by rewrite rows_ids. }
      apply list_elem_of_fmap in Hrows as (row & -> & Hrow).
      by apply write_rows_present. }
    pose proof (add_documents_dom backend _ ids embeddings metadatas documents bs Hin).
    split; [by apply collection_count_dom|done].
Qed.

(** Two chunks written twice, in batches of one: two records, before and
    after the second call, for both policies; with a changed text the
    second call replaces the record under [Replace] and leaves it under
    [Keep]. *)
Example upsert_twice_run :
  let ids := ["c1"; "c2"] in
  let embs := [[1%Q]; [2%Q]] in
  let metas := [[("p", VInt 1)]; [("p", VInt 2)]] in
  let docs := ["one"; "two"] in
  forall policy,
    let backend := mkBackend policy (fun _ => false) in
    let col1 := (add_documents backend empty_collection ids embs metas docs 1).2 in
    let col2 := (add_documents backend col1 ids embs metas docs 1).2 in
    let col3 := (add_documents backend col1 ids embs metas ["one"; "deux"] 1).2 in
    collection_count col1 = 2 /\ collection_count col2 = 2 /\
    records col2 !! "c2" = Some (mkRecord [2%Q] [("p", VInt 2)] "two") /\
    collection_count col3 = 2 /\
    records col3 !! "c2" =
      Some (mkRecord [2%Q] [("p", VInt 2)]
              match policy with Replace => "deux" | Keep => "two" end).
Proof. cbv zeta. intros []; vm_compute; done. Qed.

(** *** Query *)

(** C10. [query_collection] returns for every input: [None] without
    query embeddings (the collection is not asked), [None] when the
    collection's query raises, and the collection's answer otherwise. *)
Theorem query_collection_total (collection_query : CollectionQuery)
    query_embeddings n_results where_filter where_document_filter include :
  exists v,
    query_collection collection_query query_embeddings n_results where_filter
      where_document_filter include = Ok v /\
    (query_embeddings = [] -> v = None) /\
    (forall e, collection_query query_embeddings n_results where_filter
                 where_document_filter include = Raise e -> v = None) /\
    (forall results, query_embeddings <> [] ->
       collection_query query_embeddings n_results where_filter
         where_document_filter include = Ok results -> v = Some results).
Proof.
  unfold query_collection.
  destruct query_embeddings as [|q qs].
  - exists None. repeat split; try done.
  - destruct (collection_query (q :: qs) n_results where_filter
                where_document_filter include) as [results|e] eqn:Hq.
    + exists (Some results). repeat split; try done. by intros r _ [= ->].
    + exists None. repeat split; done.
Qed.

(** *** What [add_documents] leaves alone, and what it writes *)

Lemma write_rows_mono policy rs :
  forall (m : gmap string IndexRecord) id,
    is_Some (m !! id) -> is_Some (write_rows policy m rs !! id).
Proof.
  induction rs as [|row rs IH]; intros m id Hid; [done|].
  unfold write_rows in *. simpl. apply IH. by apply write_row_mono.
Qed.

Lemma size_list_to_set_le (l : list string) :
  size (list_to_set l : gset string) <= length l.
Proof.
  induction l as [|x l IH].
  - rewrite list_to_set_nil, size_empty. done.
  - rewrite list_to_set_cons, size_union_alt, size_singleton. simpl length.
    pose proof (subseteq_size (list_to_set l ∖ {[x]}) (list_to_set l : gset string)
                  ltac:(set_solver)).
    lia.
Qed.

Section AddDocumentsFrame.

Variable backend : Backend.
Variables (ids : list string) (embeddings : list Embedder.Embedding)
          (metadatas : list Metadata) (documents : list string).
Variable batch_size : Z.

Let all_rows := rows ids embeddings metadatas documents.
Let step := add_batch backend ids embeddings metadatas documents batch_size.

Lemma add_batch_other col i id :
  id ∉ ids -> records (step col i) !! id = records col !! id.
Proof.
  intros Hid. unfold step. rewrite add_batch_records.
  destruct (add_raises backend (add_calls col)); [done|].
  apply write_rows_other. intros Hin. apply Hid.
  apply list_elem_of_fmap in Hin as (row & -> & Hrow).
  eapply rows_elem_of. eapply py_slice_elem_of. exact Hrow.
Qed.

Lemma add_batch_mono col i id :
  is_Some (records col !! id) -> is_Some (records (step col i) !! id).
Proof.
  intros Hid. unfold step. rewrite add_batch_records.
  destruct (add_raises backend (add_calls col)); [done|]. by apply write_rows_mono.
Qed.

Lemma add_batch_kept col i id r :
  add_policy backend = Keep ->
  records col !! id = Some r -> records (step col i) !! id = Some r.
Proof.
  intros Hkeep Hid. unfold step. rewrite add_batch_records, Hkeep.
  destruct (add_raises backend (add_calls col)); [done|]. by apply write_rows_kept.
Qed.

Lemma fold_add_batch_other starts id :
  id ∉ ids ->
  forall col, records (foldl step col starts) !! id = records col !! id.
Proof.
  intros Hid. induction starts as [|i starts IH]; intros col; simpl; [done|].
  by rewrite IH, add_batch_other.
Qed.

Lemma fold_add_batch_mono starts id :
  forall col,
    is_Some (records col !! id) -> is_Some (records (foldl step col starts) !! id).
Proof.
  induction starts as [|i starts IH]; intros col Hid; simpl; [done|].
  apply IH. by apply add_batch_mono.
Qed.

Lemma fold_add_batch_kept starts id r :
  add_policy backend = Keep ->
  forall col,
    records col !! id = Some r -> records (foldl step col starts) !! id = Some r.
Proof.
  intros Hkeep. induction starts as [|i starts IH]; intros col Hid; simpl; [done|].
  apply IH. by apply add_batch_kept.
Qed.

(** The id at position [p] is written by the call of its batch when that
    call does not raise. *)
Lemma fold_add_batch_present m :
  forall k col p row,
    (0 < batch_size)%Z ->
    all_rows !! p = Some row ->
    k <= p / Z.to_nat batch_size < k + m ->
    add_raises backend (add_calls col + (p / Z.to_nat batch_size - k)) = false ->
    is_Some (records (foldl step col (map (fun j => j * Z.to_nat batch_size) (seq k m)))
               !! row.1).
Proof.
  induction m as [|m IH]; intros k col p row Hbs Hrow Hk Hok; [lia|].
  simpl seq. simpl map. simpl foldl.
  destruct (decide (p / Z.to_nat batch_size = k)) as [Heq|Hne].
  - apply fold_add_batch_mono. unfold step. rewrite add_batch_records.
    replace (p / Z.to_nat batch_size - k) with 0 in Hok by lia.
    rewrite Nat.add_0_r in Hok. rewrite Hok.
    apply write_rows_present.
    pose proof (Nat.div_mod_eq p (Z.to_nat batch_size)) as Hdm.
    pose proof (Nat.mod_upper_bound p (Z.to_nat batch_size) ltac:(lia)) as Hmod.
    apply (list_elem_of_lookup_2 _ (p - k * Z.to_nat batch_size)).
    unfold py_slice. rewrite lookup_take_lt by nia. rewrite lookup_drop.
    rewrite <- Hrow. f_equal. nia.
  - apply (IH (S k) (step col (k * Z.to_nat batch_size)) p); [done|done|lia|].
    unfold step. rewrite add_batch_calls.
    replace (S (add_calls col) + (p / Z.to_nat batch_size - S k))
      with (add_calls col + (p / Z.to_nat batch_size - k)) by lia.
    done.
Qed.

End AddDocumentsFrame.

(** X5. With lists of one length and a positive batch size
    [add_documents] returns normally and calls [collection.add] once per
    batch, [ceil(len(ids) / batch_size)] times, whether these calls raise
    or not; a call that raises costs its own batch only: every id whose
    batch was added without an exception is in the collection
    afterwards. *)
Theorem add_documents_batch_isolation
    backend col ids embeddings metadatas documents bs :
  same_lengths ids embeddings metadatas documents = true -> (0 < bs)%Z ->
  let r := add_documents backend col ids embeddings metadatas documents bs in
  r.1 = Ok tt /\
  add_calls r.2 = add_calls col + (length ids + Z.to_nat bs - 1) / Z.to_nat bs /\
  forall p id,
    ids !! p = Some id ->
    add_raises backend (add_calls col + p / Z.to_nat bs) = false ->
    is_Some (records r.2 !! id).
Proof.
  intros Hlen Hbs. cbv zeta. unfold add_documents, py_range_step. rewrite Hlen.
  simpl negb. cbv iota.
  destruct (decide (bs = 0%Z)) as [|_]; [lia|].
  destruct (decide (bs < 0)%Z) as [|_]; [lia|].
  apply same_lengths_true in Hlen as (H1 & H2 & H3).
  destruct ids as [|id0 ids'] eqn:Hids.
  { simpl. rewrite (Nat.div_small (0 + Z.to_nat bs - 1)) by lia.
    split; [done|]. split; [lia|]. by intros p id. }
  rewrite <- Hids in *. clear Hids id0 ids'. cbn [fst snd].
  split; [done|].
  split; [by rewrite fold_add_batch_calls, length_map, length_seq|].
  intros p id Hp Hok.
  assert (Hplt : p < length ids) by (by eapply lookup_lt_Some).
  destruct (lookup_lt_is_Some_2 embeddings p ltac:(lia)) as [e He].
  destruct (lookup_lt_is_Some_2 metadatas p ltac:(lia)) as [md Hmd].
  destruct (lookup_lt_is_Some_2 documents p ltac:(lia)) as [d Hd].
  pose proof (rows_lookup _ _ _ _ _ _ _ _ _ Hp He Hmd Hd) as Hrow.
  apply (fold_add_batch_present backend ids embeddings metadatas documents bs
           _ 0 col p (id, mkRecord e md d)); [done|done| |by rewrite Nat.sub_0_r].
  split; [lia|]. simpl.
  pose proof (Embedder.n_batches_cover (length ids) (Z.to_nat bs) ltac:(lia)).
  apply Nat.Div0.div_lt_upper_bound. lia.
Qed.

(** X6. [add_documents] touches the records of the ids it is given and
    no other: the record of any other id is as it was, no id leaves the
    collection, and [count()] does not decrease and grows by
    [len(ids)] at most. On a store whose [add] keeps the record of an
    existing id, every record that was in the collection is unchanged. *)
Theorem add_documents_frame backend col ids embeddings metadatas documents bs :
  let col1 := (add_documents backend col ids embeddings metadatas documents bs).2 in
  (forall id, id ∉ ids -> records col1 !! id = records col !! id) /\
  (forall id, is_Some (records col !! id) -> is_Some (records col1 !! id)) /\
  collection_count col <= collection_count col1 <= collection_count col + length ids /\
  (add_policy backend = Keep ->
   forall id r, records col !! id = Some r -> records col1 !! id = Some r).
Proof.
  cbv zeta.
  assert (Hother : forall id, id ∉ ids ->
            records (add_documents backend col ids embeddings metadatas documents bs).2
              !! id = records col !! id).
  { intros id Hid. unfold add_documents.
    destruct (negb _); [done|]. destruct ids as [|id0 ids'] eqn:Hids; [done|].
    rewrite <- Hids in *. destruct (py_range_step _ _) as [starts|e]; [|done].
    cbn [snd]. by apply fold_add_batch_other. }
  assert (Hmono : forall id, is_Some (records col !! id) ->
            is_Some (records (add_documents backend col ids embeddings metadatas
                                documents bs).2 !! id)).
  { intros id Hid. unfold add_documents.
    destruct (negb _); [done|]. destruct ids as [|id0 ids'] eqn:Hids; [done|].
    rewrite <- Hids in *. destruct (py_range_step _ _) as [starts|e]; [|done].
    cbn [snd]. by apply fold_add_batch_mono. }
  split; [done|]. split; [done|]. split.
  - unfold collection_count. rewrite <- !size_dom.
    set (col1 := (add_documents backend col ids embeddings metadatas documents bs).2)
      in *.
    assert (Hlo : dom (records col) ⊆ dom (records col1)).
    { intros id Hid. apply elem_of_dom. apply Hmono. by apply elem_of_dom. }
    assert (Hhi : dom (records col1) ⊆ dom (records col) ∪ list_to_set ids).
    { intros id Hid. destruct (decide (id ∈ ids)) as [Hin|Hout]; [set_solver|].
      apply elem_of_union_l. apply elem_of_dom. rewrite <- Hother by done.
      by apply elem_of_dom. }
    apply subseteq_size in Hlo, Hhi.
    pose proof (size_list_to_set_le ids) as Hids.
    rewrite size_union_alt in Hhi.
    pose proof (subseteq_size (list_to_set ids ∖ dom (records col))
                  (list_to_set ids : gset string) ltac:(set_solver)).
    lia.
  - intros Hkeep id r Hid. unfold add_documents.
    destruct (negb _); [done|]. destruct ids as [|id0 ids'] eqn:Hids; [done|].
    rewrite <- Hids in *. destruct (py_range_step _ _) as [starts|e]; [|done].
    cbn [snd]. by apply fold_add_batch_kept.
Qed.

(** X7. The calls [add_documents] answers without touching the
    collection: lists of different lengths, an empty list of ids and a
    negative batch size are passed over in silence, the function
    returning normally; a batch size of zero, with rows to add, makes
    [range] raise [ValueError]. *)
Theorem add_documents_passes_over backend col ids embeddings metadatas documents bs :
  (same_lengths ids embeddings metadatas documents = false \/ ids = [] \/ (bs < 0)%Z ->
     add_documents backend col ids embeddings metadatas documents bs = (Ok tt, col)) /\
  (same_lengths ids embeddings metadatas documents = true -> ids <> [] -> bs = 0%Z ->
     add_documents backend col ids embeddings metadatas documents bs
       = (Raise ValueError, col)).
Proof.
  unfold add_documents, py_range_step. split.
  - intros [->|[->|Hbs]]; [done|by destruct (negb _)|].
    destruct (negb _); [done|]. destruct ids; [done|].
    destruct (decide (bs = 0%Z)); [lia|]. by destruct (decide (bs < 0)%Z).
  - intros -> Hne ->. by destruct ids.
Qed.

(** Three rows in batches of one, the second call of [add] raising: three
    calls are made, and the first and the third row are stored. *)
Example add_documents_isolated_run :
  let backend := mkBackend Replace (fun k => bool_decide (k = 1)) in
  let r := add_documents backend empty_collection ["a"; "b"; "c"]
             [[1%Q]; [2%Q]; [3%Q]] [[]; []; []] ["x"; "y"; "z"] 1 in
  r.1 = Ok tt /\ add_calls r.2 = 3 /\
  records r.2 !! "a" = Some (mkRecord [1%Q] [] "x") /\
  records r.2 !! "b" = None /\
  records r.2 !! "c" = Some (mkRecord [3%Q] [] "z").
Proof. vm_compute. done. Qed.

Lemma add_documents_batch_isolation_witness :
  let backend := mkBackend Replace (fun k => bool_decide (k = 1)) in
  same_lengths ["a"; "b"; "c"] [[1%Q]; [2%Q]; [3%Q]] [[]; []; []] ["x"; "y"; "z"] = true /\
  (0 < 1)%Z /\
  is_Some (records (add_documents backend empty_collection ["a"; "b"; "c"]
                      [[1%Q]; [2%Q]; [3%Q]] [[]; []; []] ["x"; "y"; "z"] 1).2 !! "c").
Proof.
  cbv zeta. split; [reflexivity|]. split; [lia|].
  destruct (add_documents_batch_isolation
              (mkBackend Replace (fun k => bool_decide (k = 1))) empty_collection
              ["a"; "b"; "c"] [[1%Q]; [2%Q]; [3%Q]] [[]; []; []] ["x"; "y"; "z"] 1
              eq_refl ltac:(lia)) as (_ & _ & Hin).
  apply (Hin 2 "c"); reflexivity.
Defined.

End Chroma.

(** ** Retrieval loop of [run_full_rag_pipeline] ([run_query_service.py]) *)

Module Orchestrator.

Import Chroma.

Record RetrievedContext : Type := mkContext {
  ctx_id : string;
  ctx_text : string;
  ctx_metadata : Metadata;
  ctx_distance : Q
}.

(** [Config.RAG_NUM_RETRIEVED_CHUNKS]. *)
Definition RAG_NUM_RETRIEVED_CHUNKS : Z := 5.

(** The two services the loop talks to: the embedding API, and the
    collection's query as it answers its [k]-th call. *)
Record Env : Type := mkEnv {
  env_api : Embedder.Api;
  env_query : nat -> CollectionQuery
}.

Record RunState : Type := mkRun {
  embed_world : Embedder.World;
  queries_made : nat
}.

(** [arr[0][j]] for an array of the result that may be [None]. *)
Definition subscript_0_j {A : Type} (arr : option (list (list A))) (j : nat) : Result A :=
  match arr with
  | None => Raise TypeError
  | Some [] => Raise IndexError
  | Some (row :: _) =>
      match row !! j with
      | Some x => Ok x
      | None => Raise IndexError
      end
  end.

(** [for j in range(len(retrieved_docs['ids'][0])):
       current_query_contexts.append({...})] *)
Fixpoint collect_contexts (retrieved_docs : QueryResult) (js : list nat)
    : Result (list RetrievedContext) :=
  match js with
  | [] => Ok []
  | j :: rest =>
      id <- subscript_0_j (Some (qr_ids retrieved_docs)) j ;;;
      text <- subscript_0_j (qr_documents retrieved_docs) j ;;;
      metadata <- subscript_0_j (qr_metadatas retrieved_docs) j ;;;
      distance <- subscript_0_j (qr_distances retrieved_docs) j ;;;
      tail <- collect_contexts retrieved_docs rest ;;;
      Ok (mkContext id text metadata distance :: tail)
  end.

(** [current_query_contexts] for the answer of [query_collection]:
    empty unless [retrieved_docs], [retrieved_docs.get('ids')] and
    [retrieved_docs['ids'][0]] are all truthy. *)
Definition contexts_from (retrieved_docs : option QueryResult)
    : Result (list RetrievedContext) :=
  match retrieved_docs with
  | Some rd =>
      match qr_ids rd with
      | (_ :: _) as ids0 :: _ => collect_contexts rd (seq 0 (length ids0))
      | _ => Ok []
      end
  | None => Ok []
  end.

(** The body of [for i, query_text in enumerate(rag_queries)]: the list
    recorded for [query_text]. *)
Definition retrieve_one (env : Env) (st : RunState) (query_text : string)
    : Result (RunState * list RetrievedContext) :=
  embedded <- Embedder.embed_texts (env_api env) (embed_world st) [query_text]
                "RETRIEVAL_QUERY" Embedder.default_batch_size
                Embedder.default_max_retries Embedder.default_initial_backoff ;;;
  let query_embedding_list := embedded.1 in
  match query_embedding_list with
  | Some (x :: v) :: _ =>
      let query_embedding := x :: v in
      retrieved_docs <- query_collection (env_query env (queries_made st))
                          [query_embedding] RAG_NUM_RETRIEVED_CHUNKS None None
                          default_include ;;;
      current_query_contexts <- contexts_from retrieved_docs ;;;
      Ok (mkRun embedded.2 (S (queries_made st)), current_query_contexts)
  | _ => Ok (mkRun embedded.2 (queries_made st), [])
  end.

Fixpoint retrieve_contexts (env : Env) (rag_queries : list string) (st : RunState)
    (all_retrieved_contexts : gmap string (list RetrievedContext))
    : Result (RunState * gmap string (list RetrievedContext)) :=
  match rag_queries with
  | [] => Ok (st, all_retrieved_contexts)
  | query_text :: rest =>
      r <- retrieve_one env st query_text ;;;
      retrieve_contexts env rest r.1 (<[query_text := r.2]> all_retrieved_contexts)
  end.

(** The collection answers with parallel arrays: one document, one
    metadata and one distance for every id of the first row. *)
Definition parallel_arrays (r : QueryResult) : Prop :=
  forall ids0 rest, qr_ids r = ids0 :: rest ->
    (exists d0 dr, qr_documents r = Some (d0 :: dr) /\ length d0 = length ids0) /\
    (exists m0 mr, qr_metadatas r = Some (m0 :: mr) /\ length m0 = length ids0) /\
    (exists s0 sr, qr_distances r = Some (s0 :: sr) /\ length s0 = length ids0).

Definition collection_well_formed (env : Env) : Prop :=
  forall k embs n wf wdf inc r,
    env_query env k embs n wf wdf inc = Ok r -> parallel_arrays r.

(** *** Every step of the loop returns *)

Lemma subscript_0_j_in_range {A : Type} (row : list A) rest j :
  j < length row -> exists x, subscript_0_j (Some (row :: rest)) j = Ok x.
Proof.
  intros Hj. simpl. destruct (lookup_lt_is_Some_2 row j Hj) as [x ->]. by exists x.
Qed.

Lemma collect_contexts_returns rd ids0 rest js :
  parallel_arrays rd -> qr_ids rd = ids0 :: rest ->
  (forall j, j ∈ js -> j < length ids0) ->
  exists ctxs, collect_contexts rd js = Ok ctxs /\ length ctxs = length js.
Proof.
  intros Hpar Hids Hjs.
  destruct (Hpar _ _ Hids) as ((d0 & dr & Hd & Hdl) & (m0 & mr & Hm & Hml)
                               & (s0 & sr & Hs & Hsl)).
  induction js as [|j js IH]; [by exists []|].
  assert (Hj : j < length ids0) by (apply Hjs; by left).
  destruct IH as (tail & Htail & Hlen); [intros j' Hj'; apply Hjs; by right|].
  cbn [collect_contexts]. rewrite Hids, Hd, Hm, Hs, Htail.
  destruct (subscript_0_j_in_range ids0 rest j Hj) as [x1 ->].
  destruct (subscript_0_j_in_range d0 dr j ltac:(lia)) as [x2 ->].
  destruct (subscript_0_j_in_range m0 mr j ltac:(lia)) as [x3 ->].
  destruct (subscript_0_j_in_range s0 sr j ltac:(lia)) as [x4 ->].
  cbn [bind]. eexists. split; [done|]. simpl. by rewrite Hlen.
Qed.

Lemma contexts_from_returns retrieved_docs :
  (forall rd, retrieved_docs = Some rd -> parallel_arrays rd) ->
  exists ctxs, contexts_from retrieved_docs = Ok ctxs.
Proof.
  intros Hpar. destruct retrieved_docs as [rd|]; [|by exists []]. simpl.
  destruct (qr_ids rd) as [|[|id0 ids0] rest] eqn:Hids; [by exists []|by exists []|].
  destruct (collect_contexts_returns rd (id0 :: ids0) rest
              (seq 0 (length (id0 :: ids0))) (Hpar rd eq_refl) Hids)
    as (ctxs & Hctxs & _).
  - intros j Hj. apply elem_of_seq in Hj. lia.
  - by exists ctxs.
Qed.

Lemma retrieve_one_returns env st q :
  collection_well_formed env ->
  exists st2 ctxs, retrieve_one env st q = Ok (st2, ctxs).
Proof.
  intros Hwf. unfold retrieve_one.
  destruct (Embedder.embed_texts_returns (env_api env) (embed_world st) [q]
              "RETRIEVAL_QUERY" Embedder.default_batch_size
              Embedder.default_max_retries Embedder.default_initial_backoff)
    as (res & w' & -> & Hlen); [done|done|].
  cbn [bind fst snd].
  destruct res as [|[[|x v]|] res']; try (by eexists _, _).
  unfold query_collection.
  destruct (env_query env (queries_made st) [x :: v] RAG_NUM_RETRIEVED_CHUNKS
              None None default_include) as [r|e] eqn:Hr; cbn [bind].
  - destruct (contexts_from_returns (Some r)) as [ctxs ->].
    + intros rd [= <-]. by eapply Hwf.
    + by eexists _, _.
  - by eexists _, _.
Qed.

(** *** The loop as a whole *)

Lemma retrieve_contexts_app env pre post :
  forall st m,
    retrieve_contexts env (pre ++ post) st m =
      (r <- retrieve_contexts env pre st m ;;; retrieve_contexts env post r.1 r.2).
Proof.
  induction pre as [|q pre IH]; intros st m; simpl; [done|].
  destruct (retrieve_one env st q) as [[st2 ctxs]|e]; simpl; [|done]. apply IH.
Qed.

Lemma retrieve_contexts_returns env queries :
  collection_well_formed env ->
  forall st m0,
    exists st' m,
      retrieve_contexts env queries st m0 = Ok (st', m) /\
      dom m = list_to_set queries ∪ dom m0.
Proof.
  intros Hwf. induction queries as [|q queries IH]; intros st m0; simpl.
  - exists st, m0. split; [done|]. set_solver.
  - destruct (retrieve_one_returns env st q Hwf) as (st2 & ctxs & ->). simpl.
    destruct (IH st2 (<[q:=ctxs]> m0)) as (st' & m & -> & Hdom).
    exists st', m. split; [done|]. rewrite Hdom, dom_insert_L. set_solver.
Qed.

Lemma retrieve_contexts_untouched env post q :
  q ∉ post ->
  forall st m0 st' m,
    retrieve_contexts env post st m0 = Ok (st', m) -> m !! q = m0 !! q.
Proof.
  intros Hq. induction post as [|q' post IH]; intros st m0 st' m; simpl.
  - by intros [= _ <-].
  - destruct (retrieve_one env st q') as [[st2 ctxs]|e]; simpl; [|done].
    intros Hrun. rewrite (IH ltac:(set_solver) _ _ _ _ Hrun).
    apply lookup_insert_ne. set_solver.
Qed.

(** *** The contexts of one answer, row by row *)

Lemma subscript_0_j_Ok {A : Type} (arr : option (list (list A))) j x :
  subscript_0_j arr j = Ok x ->
  exists row rest, arr = Some (row :: rest) /\ row !! j = Some x.
Proof.
  destruct arr as [[|row rest]|]; simpl; try done.
  destruct (row !! j) as [y|] eqn:Hy; [|done].
  intros [= <-]. by exists row, rest.
Qed.

Lemma collect_contexts_aligned rd js :
  forall ctxs,
    collect_contexts rd js = Ok ctxs ->
    length ctxs = length js /\
    forall k c j, ctxs !! k = Some c -> js !! k = Some j ->
      subscript_0_j (Some (qr_ids rd)) j = Ok (ctx_id c) /\
      subscript_0_j (qr_documents rd) j = Ok (ctx_text c) /\
      subscript_0_j (qr_metadatas rd) j = Ok (ctx_metadata c) /\
      subscript_0_j (qr_distances rd) j = Ok (ctx_distance c).
Proof.
  induction js as [|j0 js IH]; intros ctxs; cbn [collect_contexts].
  { intros [= <-]. split; [done|]. by intros k c j. }
  destruct (subscript_0_j (Some (qr_ids rd)) j0) as [x1|] eqn:H1; cbn [bind]; [|done].
  destruct (subscript_0_j (qr_documents rd) j0) as [x2|] eqn:H2; cbn [bind]; [|done].
  destruct (subscript_0_j (qr_metadatas rd) j0) as [x3|] eqn:H3; cbn [bind]; [|done].
  destruct (subscript_0_j (qr_distances rd) j0) as [x4|] eqn:H4; cbn [bind]; [|done].
  destruct (collect_contexts rd js) as [tail|] eqn:Htail; cbn [bind]; [|done].
  intros [= <-]. destruct (IH tail eq_refl) as [Hlen Hal].
  split; [simpl; by rewrite Hlen|].
  intros [|k] c j; simpl.
  - by intros [= <-] [= <-].
  - apply Hal.
Qed.

(** The contexts built from an answer, row by row. *)
Lemma contexts_from_rows rd ctxs ids0 rest :
  qr_ids rd = ids0 :: rest ->
  contexts_from (Some rd) = Ok ctxs ->
  length ctxs = length ids0 /\
  forall j c, ctxs !! j = Some c ->
    subscript_0_j (Some (qr_ids rd)) j = Ok (ctx_id c) /\
    subscript_0_j (qr_documents rd) j = Ok (ctx_text c) /\
    subscript_0_j (qr_metadatas rd) j = Ok (ctx_metadata c) /\
    subscript_0_j (qr_distances rd) j = Ok (ctx_distance c).
Proof.
  intros Hids. unfold contexts_from. rewrite Hids.
  destruct ids0 as [|id0 ids0'] eqn:Hrow.
  { intros [= <-]. split; [done|]. by intros j c. }
  rewrite <- Hrow in *. intros Hrun.
  apply collect_contexts_aligned in Hrun as [Hlen Hal].
  rewrite length_seq in Hlen. split; [done|].
  intros j c Hc.
  assert (Hj : j < length ids0) by (rewrite <- Hlen; by eapply lookup_lt_Some).
  rewrite <- Hids. exact (Hal j c j Hc (lookup_seq_lt _ _ _ Hj)).
Qed.

(** *** Coverage of the queries *)

(** C1. For every list of queries (the collection answering with
    parallel arrays) the loop returns a context map whose keys are exactly
    the input queries, one key per query. The list recorded for a query
    is the one computed at its last occurrence. It is empty when the
    embedding of the query is absent (or an empty vector). Otherwise the
    collection is asked once, for that embedding and
    [n_results = RAG_NUM_RETRIEVED_CHUNKS], and the list holds what it
    retrieved: nothing when the call raises or the answer has no row of
    ids, and else one context per id of the first row, in the order of
    the row, the context at position [j] made of the id, the document, the
    metadata and the distance that the answer holds at position [j]. *)
Theorem retrieval_covers_every_query env st queries :
  collection_well_formed env ->
  exists st' m,
    retrieve_contexts env queries st ∅ = Ok (st', m) /\
    (forall q, q ∈ queries <-> is_Some (m !! q)) /\
    (NoDup queries -> size m = length queries) /\
    (forall pre q post, queries = pre ++ q :: post -> q ∉ post ->
       exists st1 m1 st2 ctxs,
         retrieve_contexts env pre st ∅ = Ok (st1, m1) /\
         retrieve_one env st1 q = Ok (st2, ctxs) /\
         m !! q = Some ctxs /\
         let embedded :=
           Embedder.embed_texts (env_api env) (embed_world st1) [q] "RETRIEVAL_QUERY"
             100 3 1 in
         (forall w', embedded = Ok ([None], w') \/ embedded = Ok ([Some []], w') ->
            ctxs = [] /\ queries_made st2 = queries_made st1) /\
         (forall v w', embedded = Ok ([Some v], w') -> v <> [] ->
            queries_made st2 = S (queries_made st1) /\
            match env_query env (queries_made st1) [v] RAG_NUM_RETRIEVED_CHUNKS
                    None None default_include with
            | Raise _ => ctxs = []
            | Ok rd =>
                match qr_ids rd with
                | [] => ctxs = []
                | ids0 :: _ =>
                    length ctxs = length ids0 /\
                    forall j c, ctxs !! j = Some c ->
                      ids0 !! j = Some (ctx_id c) /\
                      (exists d0 dr, qr_documents rd = Some (d0 :: dr) /\
                                     d0 !! j = Some (ctx_text c)) /\
                      (exists m0 mr, qr_metadatas rd = Some (m0 :: mr) /\
                                     m0 !! j = Some (ctx_metadata c)) /\
                      (exists s0 sr, qr_distances rd = Some (s0 :: sr) /\
                                     s0 !! j = Some (ctx_distance c))
                end
            end)).
Proof.
  intros Hwf.
  destruct (retrieve_contexts_returns env queries Hwf st ∅) as (st' & m & Hrun & Hdom).
  exists st', m. split; [done|]. split; [|split].
  - intros q. rewrite <- elem_of_dom, Hdom. set_solver.
  - intros Hnd. rewrite <- size_dom, Hdom, dom_empty_L, (right_id_L ∅ (∪)).
    by apply size_list_to_set.
  - intros pre q post -> Hq.
    rewrite retrieve_contexts_app in Hrun.
    destruct (retrieve_contexts_returns env pre Hwf st ∅) as (st1 & m1 & Hpre & _).
    rewrite Hpre in Hrun. simpl in Hrun.
    destruct (retrieve_one_returns env st1 q Hwf) as (st2 & ctxs & Hone).
    rewrite Hone in Hrun. simpl in Hrun.
    exists st1, m1, st2, ctxs. split; [done|]. split; [done|].
    split.
    { rewrite (retrieve_contexts_untouched env post q Hq _ _ _ _ Hrun).
      apply lookup_insert_eq. }
    cbv zeta. unfold retrieve_one in Hone.
    change Embedder.default_batch_size with 100%Z in Hone.
    change Embedder.default_max_retries with 3%Z in Hone.
    change Embedder.default_initial_backoff with 1%Q in Hone.
    split.
    + intros w' [Hemb|Hemb]; rewrite Hemb in Hone; simpl in Hone;
        by injection Hone as <- <-.
    + intros v w' Hemb Hv. rewrite Hemb in Hone. cbn [bind fst snd] in Hone.
      destruct v as [|x v]; [done|].
      unfold query_collection in Hone.
      set (answer := env_query env (queries_made st1)
                       [(x :: v) : Embedder.Embedding] RAG_NUM_RETRIEVED_CHUNKS
                       None None default_include).
      match type of Hone with
      | context [env_query env ?k ?e ?n ?wf ?wdf ?inc] =>
          change (env_query env k e n wf wdf inc) with answer in Hone
      end.
      destruct answer as [rd|e]; cbn [bind] in Hone.
      2:{ simpl in Hone. by injection Hone as <- <-. }
      destruct (contexts_from (Some rd)) as [c|e] eqn:Hctx; cbn [bind] in Hone; [|done].
      injection Hone as <- <-. split; [done|].
      destruct (qr_ids rd) as [|ids0 rest] eqn:Hids.
      { unfold contexts_from in Hctx. rewrite Hids in Hctx. by injection Hctx as <-. }
      destruct (contexts_from_rows rd c ids0 rest Hids Hctx) as [Hlen Hal].
      split; [done|]. intros j c0 Hc.
      destruct (Hal j c0 Hc) as (H1 & H2 & H3 & H4).
      apply subscript_0_j_Ok in H1 as (row & rest' & Heq & H1).
      rewrite Hids in Heq. injection Heq as <- <-.
      apply subscript_0_j_Ok in H2 as (d0 & dr & Hd & H2).
      apply subscript_0_j_Ok in H3 as (m0 & mr & Hm & H3).
      apply subscript_0_j_Ok in H4 as (s0 & sr & Hs & H4).
      split; [done|]. split; [by exists d0, dr|].
      split; [by exists m0, mr|by exists s0, sr].
Qed.

(** A collection that answers every query with one match. *)
Definition one_match : CollectionQuery :=
  fun _ _ _ _ _ =>
    Ok (mkQueryResult [["chunk-1"]] (Some [["a passage"]])
          (Some [[[("original_page_number", VInt 3)]]]) (Some [[0.25%Q]])).

Definition env_demo : Env := mkEnv (Embedder.api_fail_on "stairs") (fun _ => one_match).

Definition run0 : RunState := mkRun Embedder.world0 0.

Lemma env_demo_well_formed : collection_well_formed env_demo.
Proof.
  intros k embs n wf wdf inc r [= <-] ids0 rest [= <- <-].
  repeat split; by eexists _, _.
Qed.

(** Two queries, the embedding of the second failing: both are keys of
    the map, the second with an empty list. *)
Example retrieval_run :
  exists st' m,
    retrieve_contexts env_demo ["kitchen"; "stairs"] run0 ∅ = Ok (st', m) /\
    m !! "kitchen" = Some [mkContext "chunk-1" "a passage"
                             [("original_page_number", VInt 3)] 0.25%Q] /\
    m !! "stairs" = Some [] /\
    queries_made st' = 1.
Proof. eexists _, _. split; [reflexivity|]. vm_compute. done. Qed.

Lemma retrieval_covers_every_query_witness :
  collection_well_formed env_demo /\
  exists st' m,
    retrieve_contexts env_demo ["kitchen"; "stairs"] run0 ∅ = Ok (st', m) /\
    size m = 2.
Proof.
  split; [exact env_demo_well_formed|].
  destruct (retrieval_covers_every_query env_demo run0 ["kitchen"; "stairs"]
              env_demo_well_formed) as (st' & m & Hrun & _ & Hsize & _).
  exists st', m. split; [exact Hrun|]. apply Hsize.
  apply NoDup_cons. split; [set_solver|]. apply NoDup_singleton.
Defined.

(** *** Cost of the loop *)

(** The embedding of one query with the defaults of [embed_texts]. *)
Lemma embed_query_calls api w q :
  exists res w',
    Embedder.embed_texts api w [q] "RETRIEVAL_QUERY" Embedder.default_batch_size
      Embedder.default_max_retries Embedder.default_initial_backoff = Ok (res, w') /\
    Embedder.calls w <= Embedder.calls w' <= Embedder.calls w + 3.
Proof.
  unfold Embedder.embed_texts.
  change (py_range_step (length [q]) Embedder.default_batch_size)
    with (Ok (A:=list nat) [0]).
  cbn [bind].
  destruct (Embedder.for_loop_embed_batch_calls api [q] "RETRIEVAL_QUERY"
              Embedder.default_batch_size Embedder.default_max_retries
              Embedder.default_initial_backoff [0] ltac:(done)
              (w, replicate (length [q]) None)) as (r & -> & Hlo & Hhi).
  cbn [bind]. exists r.2, r.1. split; [done|].
  change (Z.to_nat Embedder.default_max_retries) with 3 in Hlo, Hhi.
  simpl in Hlo, Hhi. lia.
Qed.

Lemma embed_query_down api w q :
  (forall c b t, exists msg, api c b t = Embedder.ApiRaise msg) ->
  exists w',
    Embedder.embed_texts api w [q] "RETRIEVAL_QUERY" Embedder.default_batch_size
      Embedder.default_max_retries Embedder.default_initial_backoff = Ok ([None], w') /\
    Embedder.calls w' = Embedder.calls w + 3.
Proof.
  intros Hdown.
  assert (Hwf : Embedder.api_well_formed api).
  { intros c content t r Hr. destruct (Hdown c content t) as [msg Hmsg]. congruence. }
  rewrite Embedder.embed_texts_outcomes by done.
  change (Embedder.batches_of [q] Embedder.default_batch_size) with [[q]].
  change (Z.to_nat Embedder.default_max_retries) with 3.
  cbn [Embedder.batch_outcomes].
  rewrite Embedder.first_response_all_raise by (intros a _; apply Hdown).
  eexists. split; [reflexivity|]. unfold Embedder.outcomes_calls. simpl. lia.
Qed.

Lemma retrieve_one_cost env st q st2 ctxs :
  retrieve_one env st q = Ok (st2, ctxs) ->
  queries_made st <= queries_made st2 <= S (queries_made st) /\
  Embedder.calls (embed_world st) <= Embedder.calls (embed_world st2)
    <= Embedder.calls (embed_world st) + 3.
Proof.
  unfold retrieve_one.
  destruct (embed_query_calls (env_api env) (embed_world st) q)
    as (res & w' & -> & Hcalls).
  cbn [bind fst snd].
  destruct res as [|[[|x v]|] res']; try (intros [= <- _]; simpl; lia).
  destruct (query_collection _ _ _ _ _ _) as [rd|e]; cbn [bind]; [|done].
  destruct (contexts_from rd) as [c|e]; cbn [bind]; [|done].
  intros [= <- _]. simpl. lia.
Qed.

(** X8. A run of the retrieval loop that returns has asked the
    collection at most once per query and the embedding service at most
    three times per query. *)
Theorem retrieval_cost env queries :
  forall st m0 st' m,
    retrieve_contexts env queries st m0 = Ok (st', m) ->
    queries_made st <= queries_made st' <= queries_made st + length queries /\
    Embedder.calls (embed_world st) <= Embedder.calls (embed_world st')
      <= Embedder.calls (embed_world st) + 3 * length queries.
Proof.
  induction queries as [|q queries IH]; intros st m0 st' m; simpl.
  { intros [= <- _]. lia. }
  destruct (retrieve_one env st q) as [[st2 ctxs]|e] eqn:Hone; cbn [bind]; [|done].
  intros Hrun. apply retrieve_one_cost in Hone. apply IH in Hrun.
  simpl in Hrun. lia.
Qed.

(** X9. When the embedding service is down (every call raises) the loop
    still returns: the collection is never asked, three calls are spent
    on each query, and every query is recorded with an empty list of
    contexts. *)
Theorem retrieval_with_embedder_down env queries :
  (forall c b t, exists msg, env_api env c b t = Embedder.ApiRaise msg) ->
  forall st m0,
    exists st' m,
      retrieve_contexts env queries st m0 = Ok (st', m) /\
      queries_made st' = queries_made st /\
      Embedder.calls (embed_world st')
        = Embedder.calls (embed_world st) + 3 * length queries /\
      (forall q, q ∈ queries -> m !! q = Some []) /\
      (forall q, q ∉ queries -> m !! q = m0 !! q).
Proof.
  intros Hdown. induction queries as [|q queries IH]; intros st m0; simpl.
  { exists st, m0. split; [done|]. split; [done|]. split; [lia|].
    split; [|done]. intros q Hq. by apply elem_of_nil in Hq. }
  unfold retrieve_one at 1.
  destruct (embed_query_down (env_api env) (embed_world st) q Hdown) as (w' & -> & Hw').
  cbn [bind fst snd].
  destruct (IH (mkRun w' (queries_made st)) (<[q:=[]]> m0))
    as (st' & m & -> & Hq & Hc & Hin & Hout).
  exists st', m. split; [done|]. simpl in Hq, Hc.
  split; [done|]. split; [lia|]. split.
  - intros q' Hq'. destruct (decide (q' ∈ queries)) as [Hlater|Hnot]; [by apply Hin|].
    apply elem_of_cons in Hq' as [->|Hq']; [|done].
    rewrite Hout by done. apply lookup_insert_eq.
  - intros q' Hq'. rewrite Hout by set_solver. apply lookup_insert_ne. set_solver.
Qed.

(** *** The contexts of one answer *)

(** X10. The contexts recorded for an answer of the collection follow
    its first row: there is one context per id of the row, in the order
    of the row, and the context at position [j] pairs the id, the
    document, the metadata and the distance that the answer holds at
    position [j]. *)
Theorem contexts_follow_the_answer rd ctxs ids0 rest :
  qr_ids rd = ids0 :: rest ->
  contexts_from (Some rd) = Ok ctxs ->
  length ctxs = length ids0 /\
  forall j c, ctxs !! j = Some c ->
    ids0 !! j = Some (ctx_id c) /\
    (exists d0 dr, qr_documents rd = Some (d0 :: dr) /\ d0 !! j = Some (ctx_text c)) /\
    (exists m0 mr, qr_metadatas rd = Some (m0 :: mr) /\
                   m0 !! j = Some (ctx_metadata c)) /\
    (exists s0 sr, qr_distances rd = Some (s0 :: sr) /\
                   s0 !! j = Some (ctx_distance c)).
Proof.
  intros Hids. unfold contexts_from. rewrite Hids.
  destruct ids0 as [|id0 ids0'] eqn:Hrow.
  { intros [= <-]. split; [done|]. by intros j c. }
  rewrite <- Hrow in *. intros Hrun.
  apply collect_contexts_aligned in Hrun as [Hlen Hal].
  rewrite length_seq in Hlen. split; [done|].
  intros j c Hc.
  assert (Hj : j < length ids0) by (rewrite <- Hlen; by eapply lookup_lt_Some).
  destruct (Hal j c j Hc (lookup_seq_lt _ _ _ Hj)) as (H1 & H2 & H3 & H4).
  apply subscript_0_j_Ok in H1 as (row & rest' & Heq & H1).
  rewrite Hids in Heq. injection Heq as <- <-.
  apply subscript_0_j_Ok in H2 as (d0 & dr & Hd & H2).
  apply subscript_0_j_Ok in H3 as (m0 & mr & Hm & H3).
  apply subscript_0_j_Ok in H4 as (s0 & sr & Hs & H4).
  split; [done|]. split; [by exists d0, dr|]. split; [by exists m0, mr|by exists s0, sr].
Qed.

Lemma retrieval_cost_witness :
  exists st' m,
    retrieve_contexts env_demo ["kitchen"; "stairs"] run0 ∅ = Ok (st', m) /\
    queries_made st' <= 2.
Proof.
  eexists _, _. split; [reflexivity|].
  apply (retrieval_cost env_demo ["kitchen"; "stairs"] run0 ∅ _ _ eq_refl).
Defined.

Lemma retrieval_with_embedder_down_witness :
  (forall c b t, exists msg,
     env_api (mkEnv Embedder.api_down (fun _ => one_match)) c b t
       = Embedder.ApiRaise msg) /\
  exists st' m,
    retrieve_contexts (mkEnv Embedder.api_down (fun _ => one_match))
      ["kitchen"; "stairs"] run0 ∅ = Ok (st', m) /\
    queries_made st' = 0.
Proof.
  split; [intros c b t; by eexists|].
  destruct (retrieval_with_embedder_down (mkEnv Embedder.api_down (fun _ => one_match))
              ["kitchen"; "stairs"] (fun c b t => ex_intro _ _ eq_refl) run0 ∅)
    as (st' & m & Hrun & Hq & _).
  exists st', m. split; [exact Hrun|exact Hq].
Defined.

Lemma contexts_follow_the_answer_witness :
  let rd := mkQueryResult [["chunk-1"; "chunk-2"]] (Some [["one"; "two"]])
              (Some [[[]; []]]) (Some [[0.25%Q; 0.5%Q]]) in
  exists ctxs,
    contexts_from (Some rd) = Ok ctxs /\ length ctxs = 2.
Proof.
  cbv zeta. eexists. split; [reflexivity|].
  apply (contexts_follow_the_answer
           (mkQueryResult [["chunk-1"; "chunk-2"]] (Some [["one"; "two"]])
              (Some [[[]; []]]) (Some [[0.25%Q; 0.5%Q]]))
           _ ["chunk-1"; "chunk-2"] [] eq_refl eq_refl).
Defined.

End Orchestrator.

(** ** Facts about [strip] and the reversal of strings *)

Lemma string_app_cons c (a b : string) : String c a +:+ b = String c (a +:+ b).
Proof. reflexivity. Qed.

Lemma string_app_nil_r (a : string) : a +:+ "" = a.
Proof. induction a as [|c a IH]; [done|]. by rewrite string_app_cons, IH. Qed.

Lemma string_app_assoc (a b c : string) : (a +:+ b) +:+ c = a +:+ (b +:+ c).
Proof. induction a as [|x a IH]; [done|]. by rewrite !string_app_cons, IH. Qed.

Lemma string_app_length (a b : string) :
  String.length (a +:+ b) = String.length a + String.length b.
Proof. induction a as [|x a IH]; [done|]. rewrite string_app_cons. simpl. by rewrite IH. Qed.

Lemma list_ascii_of_string_app (a b : string) :
  String.list_ascii_of_string (a +:+ b)
    = String.list_ascii_of_string a ++ String.list_ascii_of_string b.
Proof. induction a as [|x a IH]; [done|]. rewrite string_app_cons. simpl. by rewrite IH. Qed.

Lemma string_of_list_ascii_app (l1 l2 : list ascii) :
  String.string_of_list_ascii (l1 ++ l2)
    = String.string_of_list_ascii l1 +:+ String.string_of_list_ascii l2.
Proof. induction l1 as [|x l1 IH]; [done|]. simpl. by rewrite IH, string_app_cons. Qed.

Lemma string_rev_involutive s : string_rev (string_rev s) = s.
Proof.
  unfold string_rev.
  by rewrite String.list_ascii_of_string_of_list_ascii, reverse_involutive,
    String.string_of_list_ascii_of_string.
Qed.

Lemma string_rev_app (a b : string) :
  string_rev (a +:+ b) = string_rev b +:+ string_rev a.
Proof.
  unfold string_rev.
  by rewrite list_ascii_of_string_app, reverse_app, string_of_list_ascii_app.
Qed.

Lemma string_rev_length s : String.length (string_rev s) = String.length s.
Proof.
  induction s as [|c s IH]; [done|].
  change (String c s) with (String c "" +:+ s).
  rewrite string_rev_app, !string_app_length, IH. simpl. lia.
Qed.

Lemma lstrip_idem s : lstrip (lstrip s) = lstrip s.
Proof.
  induction s as [|c s IH]; [done|]. simpl.
  destruct (is_space c) eqn:Hc; [done|]. simpl. by rewrite Hc.
Qed.

Lemma lstrip_head s c r : lstrip s = String c r -> is_space c = false.
Proof.
  induction s as [|a s IH]; [done|]. simpl.
  destruct (is_space a) eqn:Ha; [done|]. by intros [= <- _].
Qed.

(** [lstrip] removes a prefix of white space. *)
Lemma lstrip_prefix s : exists ws, s = ws +:+ lstrip s /\ lstrip ws = "".
Proof.
  induction s as [|c s (ws & Hs & Hws)]; [by exists ""|]. simpl.
  destruct (is_space c) eqn:Hc.
  - exists (String c ws). rewrite string_app_cons, <- Hs. simpl. by rewrite Hc.
  - by exists "".
Qed.

Lemma lstrip_app_space ws s : lstrip ws = "" -> lstrip (ws +:+ s) = lstrip s.
Proof.
  induction ws as [|c ws IH]; [done|]. rewrite string_app_cons. simpl.
  destruct (is_space c); [done|]. discriminate.
Qed.

Lemma lstrip_app_head s c r t :
  lstrip s = String c r -> lstrip (s +:+ t) = String c r +:+ t.
Proof.
  induction s as [|a s IH]; [done|]. rewrite string_app_cons. simpl.
  destruct (is_space a); [done|]. by intros [= <- <-].
Qed.

(** The result of [strip] has white space at neither end. *)
Lemma strip_stripped s :
  lstrip (strip s) = strip s /\ lstrip (string_rev (strip s)) = string_rev (strip s).
Proof.
  unfold strip. rewrite string_rev_involutive. split; [|apply lstrip_idem].
  destruct (lstrip_prefix (string_rev (lstrip s))) as (ws & Hrev & Hws).
  remember (lstrip (string_rev (lstrip s))) as x eqn:Hx. clear Hx.
  apply (f_equal string_rev) in Hrev.
  rewrite string_rev_involutive, string_rev_app in Hrev.
  destruct (string_rev x) as [|c r]; [done|].
  rewrite string_app_cons in Hrev. simpl.
  by rewrite (lstrip_head (lstrip s) c (r +:+ string_rev ws))
    by (by rewrite lstrip_idem).
Qed.

Lemma lstrip_length s : String.length (lstrip s) <= String.length s.
Proof.
  induction s as [|c s IH]; [done|]. simpl. destruct (is_space c); simpl; lia.
Qed.

Lemma strip_length s : String.length (strip s) <= String.length s.
Proof.
  unfold strip. rewrite string_rev_length.
  pose proof (lstrip_length (string_rev (lstrip s))) as H1.
  rewrite string_rev_length in H1.
  pose proof (lstrip_length s). lia.
Qed.

Lemma strip_fixed s :
  lstrip s = s -> lstrip (string_rev s) = string_rev s -> strip s = s.
Proof. intros H1 H2. unfold strip. by rewrite H1, H2, string_rev_involutive. Qed.

Lemma strip_idem s : strip (strip s) = strip s.
Proof. destruct (strip_stripped s). by apply strip_fixed. Qed.

(** ** Chunker ([src/data_ingestion/chunking.py]) *)

Module Chunker.

(** A UUID in its canonical text form. *)
Definition UUID : Type := string.

(** The text splitter of [langchain_text_splitters], a third-party
    package that the sources import: its configuration as the chunker
    sets it ([length_function=len], [is_separator_regex=False]). *)
Record TextSplitter : Type := mkSplitter {
  chunk_size : Z;
  splitter_overlap : Z;
  splitter_separators : option (list string)
}.

(** The constructor of the splitter: it returns a splitter or raises. *)
Definition SplitterConstructor : Type :=
  Z -> Z -> option (list string) -> Result TextSplitter.

(** Modelled from the library: the checks of the constructor of
    [RecursiveCharacterTextSplitter]. It raises [ValueError] for an
    overlap larger than the chunk size; releases that also reject a
    non-positive size and a negative overlap are [strict]. *)
Definition langchain_splitter (strict : bool) : SplitterConstructor :=
  fun chunk_size chunk_overlap separators =>
    if strict && (chunk_size <=? 0)%Z then Raise ValueError
    else if strict && (chunk_overlap <? 0)%Z then Raise ValueError
    else if (chunk_overlap >? chunk_size)%Z then Raise ValueError
    else Ok (mkSplitter chunk_size chunk_overlap separators).

Record AdvancedTextChunker : Type := mkChunker {
  chunk_target_size : Z;
  chunk_overlap : Z;
  separators : option (list string);
  id_namespace_uuid : UUID;
  min_chunk_length_for_metadata : Z;
  text_splitter : TextSplitter
}.

Definition default_namespace : UUID := "00000000-0000-0000-0000-000000000000".

(** [AdvancedTextChunker.__init__]: the attributes are stored, then the
    splitter is built by the library's constructor; nothing is checked
    here, and nothing the constructor raises is caught. *)
Definition init (RecursiveCharacterTextSplitter : SplitterConstructor)
    (chunk_target_size chunk_overlap : Z)
    (separators : option (list string)) (id_namespace_uuid : UUID)
    (min_chunk_length_for_metadata : Z) : Result AdvancedTextChunker :=
  splitter <- RecursiveCharacterTextSplitter chunk_target_size chunk_overlap
                separators ;;;
  Ok (mkChunker chunk_target_size chunk_overlap separators id_namespace_uuid
        min_chunk_length_for_metadata splitter).

(** A page as [pages_to_chunks] reads it, with the two keys it looks up. *)
Record Page : Type := mkPage {
  page_number : option Z;
  text_content : option string
}.

Record ChunkMetadata : Type := mkMeta {
  source_document : string;
  original_page_number : Z;
  chunk_sequence_on_page : nat;
  chunk_length_chars : option nat
}.

Record Chunk : Type := mkChunk {
  chunk_id : string;
  chunk_text : string;
  chunk_metadata : ChunkMetadata
}.

(** [f"{source_document_name}_p{page_number}_chunk{seq}_{text[:50]}"]. *)
Definition id_content_string (source_document_name : string) (page_number : Z)
    (seq : nat) (cleaned_chunk_text : string) : string :=
  source_document_name +:+ "_p" +:+ pretty page_number +:+ "_chunk" +:+ pretty seq
  +:+ "_" +:+ first_chars 50 cleaned_chunk_text.

Section PagesToChunks.

(** [uuid.uuid5(namespace, name)] of the standard library, as text, and
    [split_text] of the splitter: two functions of their arguments. *)
Variable uuid5 : UUID -> string -> string.
Variable split_text : TextSplitter -> string -> list string.

(** [for chunk_seq_on_page, chunk_text in enumerate(split_texts)], from
    the index [chunk_seq_on_page] on. *)
Fixpoint chunks_of_splits (self : AdvancedTextChunker) (source_document_name : string)
    (page_number : Z) (chunk_seq_on_page : nat) (split_texts : list string)
    : list Chunk :=
  match split_texts with
  | [] => []
  | chunk_text :: rest =>
      let cleaned_chunk_text := strip chunk_text in
      let tail := chunks_of_splits self source_document_name page_number
                    (S chunk_seq_on_page) rest in
      if nonempty cleaned_chunk_text then
        let id := uuid5 (id_namespace_uuid self)
                    (id_content_string source_document_name page_number
                       (chunk_seq_on_page + 1) cleaned_chunk_text) in
        let len := String.length cleaned_chunk_text in
        mkChunk id cleaned_chunk_text
          (mkMeta source_document_name page_number (chunk_seq_on_page + 1)
             (if (Z.of_nat len >=? min_chunk_length_for_metadata self)%Z
              then Some len else None))
        :: tail
      else tail
  end.

(** The body of [for page_idx, page in enumerate(pages_data)]. *)
Definition chunks_of_page (self : AdvancedTextChunker) (source_document_name : string)
    (page : Page) : list Chunk :=
  let page_text := default "" (text_content page) in
  let page_number := default 0%Z (page_number page) in
  if nonempty (strip page_text) then
    chunks_of_splits self source_document_name page_number 0
      (split_text (text_splitter self) page_text)
  else [].

Definition pages_to_chunks (self : AdvancedTextChunker) (pages_data : list Page)
    (source_document_name : string) : list Chunk :=
  flat_map (chunks_of_page self source_document_name) pages_data.

End PagesToChunks.

(** *** Construction *)

Lemma langchain_splitter_accepts strict target overlap seps :
  (0 < target)%Z -> (0 <= overlap <= target)%Z ->
  langchain_splitter strict target overlap seps = Ok (mkSplitter target overlap seps).
Proof.
  intros Ht Ho. unfold langchain_splitter.
  replace (target <=? 0)%Z with false by lia.
  replace (overlap <? 0)%Z with false by lia.
  replace (overlap >? target)%Z with false by lia.
  by rewrite !andb_false_r.
Qed.

Lemma langchain_splitter_rejects strict target overlap seps :
  (target < overlap)%Z ->
  langchain_splitter strict target overlap seps = Raise ValueError.
Proof.
  intros Hgt. unfold langchain_splitter.
  destruct (strict && (target <=? 0)%Z); [done|].
  destruct (strict && (overlap <? 0)%Z); [done|].
  replace (overlap >? target)%Z with true by lia. done.
Qed.

(** C5, as the code has it. [__init__] has no check of its own: it
    fails, at construction time, exactly when the constructor of the text
    splitter raises for the target size and the overlap, and with the
    same exception; otherwise the chunker is built with the two values as
    given. The library's constructor raises [ValueError] for an overlap
    larger than the target size. It accepts, in every release, a positive
    target size with an overlap from 0 up to the target size: an overlap
    equal to a positive target size builds a chunker. *)
Theorem init_delegates_validation (new_splitter : SplitterConstructor)
    target overlap seps ns ml :
  (forall e, new_splitter target overlap seps = Raise e ->
     init new_splitter target overlap seps ns ml = Raise e) /\
  (forall splitter, new_splitter target overlap seps = Ok splitter ->
     init new_splitter target overlap seps ns ml =
       Ok (mkChunker target overlap seps ns ml splitter)) /\
  (forall strict, (target < overlap)%Z ->
     init (langchain_splitter strict) target overlap seps ns ml = Raise ValueError) /\
  (forall strict, (0 < target)%Z -> (0 <= overlap <= target)%Z ->
     init (langchain_splitter strict) target overlap seps ns ml =
       Ok (mkChunker target overlap seps ns ml (mkSplitter target overlap seps))) /\
  (forall strict, (0 < target)%Z ->
     init (langchain_splitter strict) target target seps ns ml =
       Ok (mkChunker target target seps ns ml (mkSplitter target target seps))).
Proof.
  unfold init. split; [|split; [|split; [|split]]].
  - by intros e ->.
  - by intros splitter ->.
  - intros strict Hgt. by rewrite langchain_splitter_rejects.
  - intros strict Ht Ho. by rewrite langchain_splitter_accepts.
  - intros strict Ht. by rewrite langchain_splitter_accepts by lia.
Qed.

(** C5, as the specification words it, fails: an overlap equal to the
    target size is accepted, by every release of the splitter. *)
Lemma init_accepts_overlap_equal_to_target :
  init (langchain_splitter false) 500 500 None default_namespace 20 =
    Ok (mkChunker 500 500 None default_namespace 20 (mkSplitter 500 500 None)) /\
  init (langchain_splitter true) 500 500 None default_namespace 20 =
    Ok (mkChunker 500 500 None default_namespace 20 (mkSplitter 500 500 None)).
Proof. split; reflexivity. Qed.

(** A target size of 0 with an overlap of 0: whether the chunker is
    built depends on the release of the splitter, the releases that check
    the size refuse it. *)
Example init_zero_size_run :
  init (langchain_splitter false) 0 0 None default_namespace 20 =
    Ok (mkChunker 0 0 None default_namespace 20 (mkSplitter 0 0 None)) /\
  init (langchain_splitter true) 0 0 None default_namespace 20 = Raise ValueError.
Proof. split; reflexivity. Qed.

(** The configuration of [config.py], target 500 and overlap 50, is
    accepted; an overlap of 501 is not. *)
Example init_config_run :
  init (langchain_splitter true) 500 50 None default_namespace 20 =
    Ok (mkChunker 500 50 None default_namespace 20 (mkSplitter 500 50 None)) /\
  init (langchain_splitter true) 500 501 None default_namespace 20 = Raise ValueError.
Proof. split; reflexivity. Qed.

(** *** Chunk ids *)

Section ChunkIds.

Variable uuid5 : UUID -> string -> string.
Variable split_text : TextSplitter -> string -> list string.

(** The id a chunk must have, from its own fields and the namespace. *)
Definition content_address (ns : UUID) (c : Chunk) : string :=
  uuid5 ns (id_content_string (source_document (chunk_metadata c))
              (original_page_number (chunk_metadata c))
              (chunk_sequence_on_page (chunk_metadata c))
              (chunk_text c)).

Lemma id_content_string_first_chars src pg seq t1 t2 :
  first_chars 50 t1 = first_chars 50 t2 ->
  id_content_string src pg seq t1 = id_content_string src pg seq t2.
Proof. unfold id_content_string. by intros ->. Qed.

Lemma chunks_of_splits_address self src pg splits :
  forall seq c,
    c ∈ chunks_of_splits uuid5 self src pg seq splits ->
    chunk_id c = content_address (id_namespace_uuid self) c.
Proof.
  induction splits as [|t splits IH]; intros seq c; simpl.
  - intros Hc. by apply elem_of_nil in Hc.
  - destruct (nonempty (strip t)); [|apply IH].
    intros Hc. apply elem_of_cons in Hc as [->|Hc]; [done|by eapply IH].
Qed.

Lemma pages_to_chunks_address self pages src c :
  c ∈ pages_to_chunks uuid5 split_text self pages src ->
  chunk_id c = content_address (id_namespace_uuid self) c.
Proof.
  unfold pages_to_chunks. rewrite list_elem_of_In, in_flat_map.
  intros (page & _ & Hc). apply list_elem_of_In in Hc.
  unfold chunks_of_page in Hc.
  destruct (nonempty _); [|by apply elem_of_nil in Hc].
  by eapply chunks_of_splits_address.
Qed.

Lemma chunks_of_splits_ids self1 self2 src pg splits :
  id_namespace_uuid self1 = id_namespace_uuid self2 ->
  forall seq,
    chunk_id <$> chunks_of_splits uuid5 self1 src pg seq splits =
    chunk_id <$> chunks_of_splits uuid5 self2 src pg seq splits.
Proof.
  intros Hns. induction splits as [|t splits IH]; intros seq; simpl; [done|].
  destruct (nonempty (strip t)); [|apply IH].
  rewrite !fmap_cons. simpl. by rewrite Hns, IH.
Qed.

(** C8. The id of every chunk is the UUID of the namespace and of the
    string made of the source name, the page number, the sequence number
    on the page and the first 50 characters of the stripped text; two
    chunks that agree on these components have one id, and chunkers with
    one namespace and one splitter give one id sequence on the same
    pages and source name. *)
Theorem chunk_id_content_address self1 self2 pages1 pages2 src1 src2 :
  id_namespace_uuid self1 = id_namespace_uuid self2 ->
  (forall c, c ∈ pages_to_chunks uuid5 split_text self1 pages1 src1 ->
     chunk_id c =
       uuid5 (id_namespace_uuid self1)
         (source_document (chunk_metadata c) +:+ "_p"
          +:+ pretty (original_page_number (chunk_metadata c)) +:+ "_chunk"
          +:+ pretty (chunk_sequence_on_page (chunk_metadata c)) +:+ "_"
          +:+ first_chars 50 (chunk_text c))) /\
  (forall c1 c2,
     c1 ∈ pages_to_chunks uuid5 split_text self1 pages1 src1 ->
     c2 ∈ pages_to_chunks uuid5 split_text self2 pages2 src2 ->
     source_document (chunk_metadata c1) = source_document (chunk_metadata c2) ->
     original_page_number (chunk_metadata c1) = original_page_number (chunk_metadata c2) ->
     chunk_sequence_on_page (chunk_metadata c1)
       = chunk_sequence_on_page (chunk_metadata c2) ->
     first_chars 50 (chunk_text c1) = first_chars 50 (chunk_text c2) ->
     chunk_id c1 = chunk_id c2) /\
  (text_splitter self1 = text_splitter self2 -> pages1 = pages2 -> src1 = src2 ->
     chunk_id <$> pages_to_chunks uuid5 split_text self1 pages1 src1 =
     chunk_id <$> pages_to_chunks uuid5 split_text self2 pages2 src2).
Proof.
  intros Hns. split; [|split].
  - intros c Hc. by rewrite (pages_to_chunks_address _ _ _ _ Hc).
  - intros c1 c2 Hc1 Hc2 Hsrc Hpg Hseq Htext.
    rewrite (pages_to_chunks_address _ _ _ _ Hc1), (pages_to_chunks_address _ _ _ _ Hc2).
    unfold content_address. rewrite Hns, Hsrc, Hpg, Hseq.
    f_equal. by apply id_content_string_first_chars.
  - intros Hsplit <- <-. unfold pages_to_chunks.
    induction pages1 as [|page pages IH]; simpl; [done|].
    rewrite !fmap_app, IH. f_equal.
    unfold chunks_of_page. rewrite Hsplit.
    destruct (nonempty _); [|done]. by apply chunks_of_splits_ids.
Qed.

End ChunkIds.

(** *** A concrete run *)

(** Stand-ins for the two library functions: a name-based id that
    keeps its arguments readable, and a splitter that cuts at ['|']. *)
Definition demo_uuid5 (ns : UUID) (name : string) : string := ns +:+ "/" +:+ name.

Fixpoint split_on_bar (acc : string) (s : string) : list string :=
  match s with
  | EmptyString => [string_rev acc]
  | String c s' =>
      if Ascii.eqb c "|"%char then string_rev acc :: split_on_bar "" s'
      else split_on_bar (String c acc) s'
  end.

Definition demo_split_text (_ : TextSplitter) (s : string) : list string :=
  split_on_bar "" s.

Definition demo_chunker (ml : Z) : AdvancedTextChunker :=
  mkChunker 500 50 None "ns" ml (mkSplitter 500 50 None).

(** A blank page is skipped, a blank piece gives no chunk but keeps its
    sequence number, and the length is recorded from the threshold on. *)
Example pages_to_chunks_run :
  pages_to_chunks demo_uuid5 demo_split_text (demo_chunker 5)
    [mkPage (Some 1%Z) (Some "  "); mkPage (Some 2%Z) (Some " alpha beta | |gamma")]
    "book.pdf" =
  [mkChunk "ns/book.pdf_p2_chunk1_alpha beta" "alpha beta"
     (mkMeta "book.pdf" 2 1 (Some 10));
   mkChunk "ns/book.pdf_p2_chunk3_gamma" "gamma"
     (mkMeta "book.pdf" 2 3 (Some 5))].
Proof. vm_compute. reflexivity. Qed.

Lemma chunk_id_content_address_witness :
  id_namespace_uuid (demo_chunker 5) = id_namespace_uuid (demo_chunker 20) /\
  chunk_id <$> pages_to_chunks demo_uuid5 demo_split_text (demo_chunker 5)
                 [mkPage (Some 2%Z) (Some " alpha beta | |gamma")] "book.pdf" =
  chunk_id <$> pages_to_chunks demo_uuid5 demo_split_text (demo_chunker 20)
                 [mkPage (Some 2%Z) (Some " alpha beta | |gamma")] "book.pdf".
Proof.
  split; [reflexivity|].
  destruct (chunk_id_content_address demo_uuid5 demo_split_text
              (demo_chunker 5) (demo_chunker 20)
              [mkPage (Some 2%Z) (Some " alpha beta | |gamma")]
              [mkPage (Some 2%Z) (Some " alpha beta | |gamma")]
              "book.pdf" "book.pdf" eq_refl) as (_ & _ & Hids).
  apply Hids; reflexivity.
Defined.

(** *** The string that is hashed into an id *)

(** No character of [s] is [c]. *)
Fixpoint free_of (c : ascii) (s : string) : bool :=
  match s with
  | EmptyString => true
  | String a s' => negb (Ascii.eqb a c) && free_of c s'
  end.

Lemma free_of_split c (a a' b b' : string) :
  free_of c a = true -> free_of c a' = true ->
  a +:+ String c b = a' +:+ String c b' -> a = a' /\ b = b'.
Proof.
  revert a'. induction a as [|x a IH]; intros [|x' a'] Ha Ha'; simpl in *.
  - by intros [= ->].
  - rewrite string_app_cons. intros [= <- _].
    by rewrite Ascii.eqb_refl in Ha'.
  - rewrite string_app_cons. intros [= -> _].
    by rewrite Ascii.eqb_refl in Ha.
  - rewrite !string_app_cons. intros [= <- Heq].
    apply andb_prop in Ha as [_ Ha]. apply andb_prop in Ha' as [_ Ha'].
    destruct (IH a' Ha Ha' Heq) as [-> ->]. done.
Qed.

Lemma pretty_N_go_free x :
  forall s, free_of "_" s = true -> free_of "_" (pretty_N_go x s) = true.
Proof.
  induction (N.lt_wf_0 x) as [x _ IH]; intros s Hs.
  assert (x = 0 \/ 0 < x)%N as [->|Hx] by lia; [by rewrite pretty_N_go_0|].
  rewrite pretty_N_go_step by done. apply IH; [by apply N.div_lt|].
  simpl. rewrite Hs, andb_true_r.
  unfold pretty_N_char. by repeat case_match.
Qed.

Lemma pretty_N_free (x : N) : free_of "_" (pretty x) = true.
Proof.
  unfold pretty, pretty_N. case_decide; [done|]. by apply pretty_N_go_free.
Qed.

Lemma pretty_nat_free (n : nat) : free_of "_" (pretty n) = true.
Proof. apply pretty_N_free. Qed.

Lemma pretty_Z_free (z : Z) : free_of "_" (pretty z) = true.
Proof.
  destruct z as [|p|p]; [done|apply pretty_N_free|].
  unfold pretty, pretty_Z. rewrite string_app_cons. simpl.
  apply (pretty_N_free (Npos p)).
Qed.

(** For one source name the string determines the page number, the
    sequence number and the 50 characters of the text. *)
Lemma id_content_string_inj src pg1 pg2 seq1 seq2 t1 t2 :
  id_content_string src pg1 seq1 t1 = id_content_string src pg2 seq2 t2 ->
  pg1 = pg2 /\ seq1 = seq2 /\ first_chars 50 t1 = first_chars 50 t2.
Proof.
  unfold id_content_string. intros Heq.
  apply (inj (String.app src)) in Heq.
  apply (inj (String.app "_p")) in Heq.
  change ("_chunk" +:+ ?x) with (String "_" ("chunk" +:+ x)) in Heq.
  apply free_of_split in Heq as [Hpg Heq]; try apply pretty_Z_free.
  apply (inj (String.app "chunk")) in Heq.
  change ("_" +:+ ?x) with (String "_" x) in Heq.
  apply free_of_split in Heq as [Hseq Heq]; try apply pretty_nat_free.
  split; [by apply (inj pretty)|]. split; [by apply (inj pretty)|done].
Qed.

(** *** The chunks of a document *)

Section Chunks.

Variable uuid5 : UUID -> string -> string.
Variable split_text : TextSplitter -> string -> list string.

(** The string hashed into the id of a chunk, from the chunk's fields. *)
Definition chunk_name (c : Chunk) : string :=
  id_content_string (source_document (chunk_metadata c))
    (original_page_number (chunk_metadata c))
    (chunk_sequence_on_page (chunk_metadata c)) (chunk_text c).

(** The page has text that is not only white space. *)
Definition has_text (page : Page) : bool :=
  nonempty (strip (default "" (text_content page))).

Lemma chunks_of_splits_elem_of self src pg splits :
  forall seq c,
    c ∈ chunks_of_splits uuid5 self src pg seq splits ->
    exists k piece,
      splits !! k = Some piece /\
      chunk_text c = strip piece /\ nonempty (chunk_text c) = true /\
      source_document (chunk_metadata c) = src /\
      original_page_number (chunk_metadata c) = pg /\
      chunk_sequence_on_page (chunk_metadata c) = seq + k + 1 /\
      chunk_length_chars (chunk_metadata c) =
        (if (Z.of_nat (String.length (chunk_text c))
               >=? min_chunk_length_for_metadata self)%Z
         then Some (String.length (chunk_text c)) else None).
Proof.
  induction splits as [|t splits IH]; intros seq c; simpl.
  { intros Hc. by apply elem_of_nil in Hc. }
  assert (Htail : c ∈ chunks_of_splits uuid5 self src pg (S seq) splits ->
            exists k piece, (t :: splits) !! k = Some piece /\
              chunk_text c = strip piece /\ nonempty (chunk_text c) = true /\
              source_document (chunk_metadata c) = src /\
              original_page_number (chunk_metadata c) = pg /\
              chunk_sequence_on_page (chunk_metadata c) = seq + k + 1 /\
              chunk_length_chars (chunk_metadata c) =
                (if (Z.of_nat (String.length (chunk_text c))
                       >=? min_chunk_length_for_metadata self)%Z
                 then Some (String.length (chunk_text c)) else None)).
  { intros Hc. destruct (IH _ _ Hc) as (k & piece & Hk & H1 & H2 & H3 & H4 & H5 & H6).
    exists (S k), piece. repeat split; try done. lia. }
  destruct (nonempty (strip t)) eqn:Hne; [|done].
  intros Hc. apply elem_of_cons in Hc as [->|Hc]; [|by apply Htail].
  exists 0, t. simpl. repeat split; try done. lia.
Qed.

(** X11. Every chunk [pages_to_chunks] returns is made from one piece
    that the splitter gave for a page with text: its text is that piece
    stripped, it is not empty, has white space at neither end and is no
    longer than the piece; its
    metadata holds the source name, the number of the page (0 for a page
    without one), the position of the piece among the pieces of the page,
    counted from 1, and the length of the text when that length reaches
    [min_chunk_length_for_metadata], no length otherwise. *)
Theorem chunk_of_a_piece self pages src c :
  c ∈ pages_to_chunks uuid5 split_text self pages src ->
  exists page k piece,
    page ∈ pages /\ has_text page = true /\
    split_text (text_splitter self) (default "" (text_content page)) !! k = Some piece /\
    chunk_text c = strip piece /\
    nonempty (chunk_text c) = true /\
    strip (chunk_text c) = chunk_text c /\
    String.length (chunk_text c) <= String.length piece /\
    source_document (chunk_metadata c) = src /\
    original_page_number (chunk_metadata c) = default 0%Z (page_number page) /\
    chunk_sequence_on_page (chunk_metadata c) = k + 1 /\
    chunk_length_chars (chunk_metadata c) =
      (if (Z.of_nat (String.length (chunk_text c))
             >=? min_chunk_length_for_metadata self)%Z
       then Some (String.length (chunk_text c)) else None).
Proof.
  unfold pages_to_chunks. rewrite list_elem_of_In, in_flat_map.
  intros (page & Hpage & Hc). apply list_elem_of_In in Hpage, Hc.
  unfold chunks_of_page in Hc.
  destruct (nonempty (strip (default "" (text_content page)))) eqn:Htext;
    [|by apply elem_of_nil in Hc].
  apply chunks_of_splits_elem_of in Hc
    as (k & piece & Hk & H1 & H2 & H3 & H4 & H5 & H6).
  exists page, k, piece. repeat split; try done.
  - by rewrite H1, strip_idem.
  - rewrite H1. apply strip_length.
Qed.

(** *** Distinct names *)

Lemma chunk_name_inj c1 c2 :
  source_document (chunk_metadata c1) = source_document (chunk_metadata c2) ->
  chunk_name c1 = chunk_name c2 ->
  original_page_number (chunk_metadata c1) = original_page_number (chunk_metadata c2) /\
  chunk_sequence_on_page (chunk_metadata c1) = chunk_sequence_on_page (chunk_metadata c2).
Proof.
  unfold chunk_name. intros -> Hname.
  by apply id_content_string_inj in Hname as (? & ? & _).
Qed.

Lemma chunks_of_splits_seq self src pg splits :
  forall seq,
    Forall (fun c => original_page_number (chunk_metadata c) = pg /\
                     source_document (chunk_metadata c) = src /\
                     seq < chunk_sequence_on_page (chunk_metadata c))
           (chunks_of_splits uuid5 self src pg seq splits) /\
    NoDup ((fun c => chunk_sequence_on_page (chunk_metadata c))
             <$> chunks_of_splits uuid5 self src pg seq splits).
Proof.
  induction splits as [|t splits IH]; intros seq; simpl.
  { split; constructor. }
  destruct (IH (S seq)) as [Hall Hnd].
  assert (Hall' : Forall (fun c => original_page_number (chunk_metadata c) = pg /\
                     source_document (chunk_metadata c) = src /\
                     seq < chunk_sequence_on_page (chunk_metadata c))
                    (chunks_of_splits uuid5 self src pg (S seq) splits)).
  { eapply Forall_impl; [exact Hall|]. intros c (H1 & H2 & H3). repeat split; [done..|lia]. }
  destruct (nonempty (strip t)); [|done].
  split.
  - constructor; [|done]. simpl. repeat split; [done..|lia].
  - rewrite fmap_cons. simpl. constructor; [|done].
    intros Hin. apply list_elem_of_fmap in Hin as (c & Hc & Hin).
    rewrite Forall_forall in Hall. destruct (Hall c Hin) as (_ & _ & Hlt). lia.
Qed.

Lemma chunks_of_page_seq self src page :
  Forall (fun c => original_page_number (chunk_metadata c)
                     = default 0%Z (page_number page) /\
                   source_document (chunk_metadata c) = src)
         (chunks_of_page uuid5 split_text self src page) /\
  NoDup ((fun c => chunk_sequence_on_page (chunk_metadata c))
           <$> chunks_of_page uuid5 split_text self src page).
Proof.
  unfold chunks_of_page. destruct (nonempty _).
  - destruct (chunks_of_splits_seq self src (default 0%Z (page_number page))
                (split_text (text_splitter self) (default "" (text_content page))) 0)
      as [Hall Hnd].
    split; [|done]. eapply Forall_impl; [exact Hall|]. by intros c (H1 & H2 & _).
  - split; constructor.
Qed.

(** X12. In a document whose pages carry different numbers, as the
    pages of the PDF parser do, no two chunks are given the same string
    to hash: the names from which the ids are computed are pairwise
    different, so that two chunks can only share an id when [uuid5]
    itself collides. *)
Theorem chunk_names_distinct self pages src :
  NoDup ((fun page => default 0%Z (page_number page)) <$> pages) ->
  NoDup (chunk_name <$> pages_to_chunks uuid5 split_text self pages src).
Proof.
  intros Hpages. unfold pages_to_chunks.
  induction pages as [|page pages IH]; [constructor|].
  rewrite fmap_cons in Hpages. apply NoDup_cons in Hpages as [Hpage Hpages].
  simpl. rewrite fmap_app. apply NoDup_app.
  destruct (chunks_of_page_seq self src page) as [Hall Hnd].
  rewrite Forall_forall in Hall.
  split; [|split; [|by apply IH]].
  - apply NoDup_fmap_2_strong; [|by eapply NoDup_fmap_1].
    intros c1 c2 Hc1 Hc2 Hname.
    apply chunk_name_inj in Hname as [_ Hseq];
      [|destruct (Hall c1 Hc1) as [_ ->]; by destruct (Hall c2 Hc2) as [_ ->]].
    revert c1 c2 Hc1 Hc2 Hseq. clear Hall.
    induction (chunks_of_page uuid5 split_text self src page) as [|c l IHl];
      intros c1 c2 Hc1 Hc2 Hseq; [by apply elem_of_nil in Hc1|].
    rewrite fmap_cons in Hnd. apply NoDup_cons in Hnd as [Hc Hnd].
    apply elem_of_cons in Hc1 as [->|Hc1]; apply elem_of_cons in Hc2 as [->|Hc2].
    + done.
    + exfalso. apply Hc. rewrite Hseq. apply list_elem_of_fmap. by exists c2.
    + exfalso. apply Hc. rewrite <- Hseq. apply list_elem_of_fmap. by exists c1.
    + by apply IHl.
  - intros name Hin1 Hin2.
    apply list_elem_of_fmap in Hin1 as (c1 & -> & Hc1).
    apply list_elem_of_fmap in Hin2 as (c2 & Hname & Hc2).
    apply list_elem_of_In, in_flat_map in Hc2 as (page2 & Hp2 & Hc2).
    apply list_elem_of_In in Hp2, Hc2.
    destruct (chunks_of_page_seq self src page2) as [Hall2 _].
    rewrite Forall_forall in Hall2.
    apply chunk_name_inj in Hname as [Hpg _];
      [|destruct (Hall c1 Hc1) as [_ ->]; by destruct (Hall2 c2 Hc2) as [_ ->]].
    destruct (Hall c1 Hc1) as [Hpg1 _]. destruct (Hall2 c2 Hc2) as [Hpg2 _].
    apply Hpage. apply list_elem_of_fmap. exists page2. split; [congruence|done].
Qed.

(** X13. The pages are chunked one by one: the chunks of a list of pages
    are the chunks of its parts, one after the other, with the sequence
    numbers starting again on every page; and a page without text, or with
    white space only, can be left out without changing the result. *)
Theorem chunking_page_by_page self pages1 pages2 src :
  pages_to_chunks uuid5 split_text self (pages1 ++ pages2) src =
    pages_to_chunks uuid5 split_text self pages1 src
    ++ pages_to_chunks uuid5 split_text self pages2 src /\
  pages_to_chunks uuid5 split_text self (filter (fun p => has_text p = true) pages1) src =
    pages_to_chunks uuid5 split_text self pages1 src.
Proof.
  unfold pages_to_chunks. split; [apply flat_map_app|].
  induction pages1 as [|page pages IH]; [done|].
  rewrite filter_cons. simpl. case_decide as Htext.
  - simpl. by rewrite IH.
  - rewrite IH. unfold chunks_of_page at 2.
    unfold has_text in Htext. by destruct (nonempty _).
Qed.

End Chunks.

Lemma chunk_of_a_piece_witness :
  exists c,
    c ∈ pages_to_chunks demo_uuid5 demo_split_text (demo_chunker 5)
          [mkPage (Some 2%Z) (Some " alpha beta | |gamma")] "book.pdf" /\
    strip (chunk_text c) = chunk_text c.
Proof.
  exists (mkChunk "ns/book.pdf_p2_chunk3_gamma" "gamma" (mkMeta "book.pdf" 2 3 (Some 5))).
  assert (Hc : mkChunk "ns/book.pdf_p2_chunk3_gamma" "gamma"
                 (mkMeta "book.pdf" 2 3 (Some 5))
               ∈ pages_to_chunks demo_uuid5 demo_split_text (demo_chunker 5)
                   [mkPage (Some 2%Z) (Some " alpha beta | |gamma")] "book.pdf").
  { apply (proj2 (list_elem_of_In _ _)). right. left. reflexivity. }
  split; [exact Hc|].
  destruct (chunk_of_a_piece demo_uuid5 demo_split_text _ _ _ _ Hc)
    as (page & k & piece & _ & _ & _ & _ & _ & Hstrip & _).
  exact Hstrip.
Defined.

Lemma chunk_names_distinct_witness :
  NoDup ((fun page => default 0%Z (page_number page))
           <$> [mkPage (Some 1%Z) (Some "a|b"); mkPage (Some 2%Z) (Some "a|b")]) /\
  NoDup (chunk_name <$> pages_to_chunks demo_uuid5 demo_split_text (demo_chunker 5)
           [mkPage (Some 1%Z) (Some "a|b"); mkPage (Some 2%Z) (Some "a|b")] "book.pdf").
Proof.
  assert (Hpages : NoDup ((fun page => default 0%Z (page_number page))
            <$> [mkPage (Some 1%Z) (Some "a|b"); mkPage (Some 2%Z) (Some "a|b")])).
  { apply NoDup_cons. split; [|apply NoDup_singleton].
    intros Hin. apply list_elem_of_singleton in Hin. discriminate. }
  split; [exact Hpages|].
  apply (chunk_names_distinct demo_uuid5 demo_split_text (demo_chunker 5) _ "book.pdf"
           Hpages).
Defined.

End Chunker.

(** ** PDF parser ([src/data_ingestion/pdf_parser.py]) *)

Module PdfParser.

(** A document as PyMuPDF hands it over: for every page what loading it
    and reading its text gives, a text or an exception, and what [close]
    does. *)
Record Document : Type := mkDocument {
  doc_pages : list (Result string);
  doc_close : Result unit
}.

(** The file system and the library: [os.path.exists], [fitz.open] and
    [os.path.basename]. *)
Record Files : Type := mkFiles {
  path_exists : string -> bool;
  fitz_open : string -> Result Document;
  basename : string -> string
}.

Record PageData : Type := mkPageData {
  source_pdf : string;
  page_number : nat;
  text_content : string
}.

(** [for page_num in range(len(doc))], from the page [page_num] on. *)
Fixpoint read_pages (source : string) (page_num : nat) (pages : list (Result string))
    : Result (list PageData) :=
  match pages with
  | [] => Ok []
  | page :: rest =>
      text <- page ;;;
      let cleaned_text := strip text in
      tail <- read_pages source (S page_num) rest ;;;
      Ok (if nonempty cleaned_text
          then mkPageData source (page_num + 1) cleaned_text :: tail
          else tail)
  end.

(** [extract_text_from_pdf]: the empty list for a path that does not
    exist and for any exception inside [try]. *)
Definition extract_text_from_pdf (files : Files) (pdf_path : string) : list PageData :=
  if negb (path_exists files pdf_path) then []
  else
    match (doc <- fitz_open files pdf_path ;;;
           all_pages_data <- read_pages (basename files pdf_path) 0 (doc_pages doc) ;;;
           _ <- doc_close doc ;;;
           Ok all_pages_data) with
    | Ok all_pages_data => all_pages_data
    | Raise _ => []
    end.

(** The page as the chunker reads it, by its keys ["page_number"] and
    ["text_content"]. *)
Definition to_page (p : PageData) : Chunker.Page :=
  Chunker.mkPage (Some (Z.of_nat (page_number p))) (Some (text_content p)).

Lemma increasing_NoDup (l : list nat) : StronglySorted lt l -> NoDup l.
Proof.
  induction 1 as [|x l Hl IH Hall]; constructor; [|done].
  intros Hin. rewrite Forall_forall in Hall. specialize (Hall x Hin). lia.
Qed.

Lemma read_pages_Ok source pages :
  forall n out,
    read_pages source n pages = Ok out ->
    (forall k e, pages !! k <> Some (Raise e)) /\
    Forall (fun p => source_pdf p = source /\ n < page_number p <= n + length pages /\
                     exists text, pages !! (page_number p - 1 - n) = Some (Ok text) /\
                                  text_content p = strip text /\
                                  nonempty (text_content p) = true) out /\
    StronglySorted lt (page_number <$> out) /\
    (forall k text, pages !! k = Some (Ok text) -> nonempty (strip text) = true ->
       mkPageData source (n + k + 1) (strip text) ∈ out).
Proof.
  induction pages as [|page pages IH]; intros n out; cbn [read_pages].
  { intros [= <-]. repeat split; try done; constructor. }
  destruct page as [text|e]; cbn [bind]; [|done].
  destruct (read_pages source (S n) pages) as [tail|] eqn:Htail; cbn [bind]; [|done].
  destruct (IH _ _ Htail) as (Hno & Hall & Hsorted & Hcomplete).
  intros [= <-].
  assert (Hall' : Forall (fun p => source_pdf p = source /\
                    n < page_number p <= n + length (Ok text :: pages) /\
                    exists text', (Ok text :: pages) !! (page_number p - 1 - n)
                                    = Some (Ok text') /\
                                  text_content p = strip text' /\
                                  nonempty (text_content p) = true) tail).
  { eapply Forall_impl; [exact Hall|]. intros p (Hs & Hn & text' & Hk & Ht & Hne).
    split; [done|]. split; [simpl; lia|]. exists text'.
    replace (page_number p - 1 - n) with (S (page_number p - 1 - S n)) by lia.
    by repeat split. }
  split; [|split; [|split]].
  - intros [|k] e; [done|]. apply Hno.
  - destruct (nonempty (strip text)) eqn:Hne; [|done].
    constructor; [|done]. simpl. split; [done|]. split; [lia|].
    exists text. replace (n + 1 - 1 - n) with 0 by lia. by repeat split.
  - destruct (nonempty (strip text)); [|done].
    rewrite fmap_cons. constructor; [done|]. simpl.
    apply Forall_fmap. eapply Forall_impl; [exact Hall|].
    intros p (_ & Hn & _). simpl. lia.
  - intros [|k] text' Hk Hne.
    + injection Hk as <-. rewrite Hne, Nat.add_0_r. by left.
    + assert (Hin : mkPageData source (n + S k + 1) (strip text') ∈ tail).
      { replace (n + S k + 1) with (S n + k + 1) by lia. by apply Hcomplete. }
      destruct (nonempty (strip text)); [by right|done].
Qed.

Lemma read_pages_Raise source pages :
  forall n e, read_pages source n pages = Raise e -> exists k, pages !! k = Some (Raise e).
Proof.
  induction pages as [|page pages IH]; intros n e; cbn [read_pages]; [done|].
  destruct page as [t|e']; cbn [bind]; [|intros [= <-]; by exists 0].
  destruct (read_pages source (S n) pages) as [tail|e''] eqn:Htail; cbn [bind]; [done|].
  intros [= <-]. destruct (IH _ _ Htail) as [k Hk]. by exists (S k).
Qed.

(** X18. The pages [extract_text_from_pdf] returns carry the base
    name of the path, page numbers counted from 1 in strictly increasing
    order, and the stripped text of the page of that number, which is not
    empty and has white space at neither end. The result is all or
    nothing: when a page cannot be read, no page is returned, the pages
    read before it included; and when nothing raises, every page whose
    text is not blank is returned. *)
Theorem extracted_pages files pdf_path :
  let pages := extract_text_from_pdf files pdf_path in
  (forall p, p ∈ pages ->
     source_pdf p = basename files pdf_path /\ 1 <= page_number p /\
     nonempty (text_content p) = true /\ strip (text_content p) = text_content p /\
     exists doc text,
       fitz_open files pdf_path = Ok doc /\
       doc_pages doc !! (page_number p - 1) = Some (Ok text) /\
       text_content p = strip text) /\
  StronglySorted lt (page_number <$> pages) /\
  (forall doc k e, fitz_open files pdf_path = Ok doc ->
     doc_pages doc !! k = Some (Raise e) -> pages = []) /\
  (forall doc k text,
     path_exists files pdf_path = true -> fitz_open files pdf_path = Ok doc ->
     (forall j e, doc_pages doc !! j <> Some (Raise e)) -> doc_close doc = Ok tt ->
     doc_pages doc !! k = Some (Ok text) -> nonempty (strip text) = true ->
     mkPageData (basename files pdf_path) (k + 1) (strip text) ∈ pages).
Proof.
  cbv zeta. unfold extract_text_from_pdf.
  destruct (path_exists files pdf_path); simpl negb; cbv iota.
  2:{ split; [intros p Hp; by apply elem_of_nil in Hp|].
      split; [constructor|]. split; [done|]. by intros doc k text. }
  destruct (fitz_open files pdf_path) as [doc|e0] eqn:Hopen; cbn [bind].
  2:{ split; [intros p Hp; by apply elem_of_nil in Hp|].
      split; [constructor|]. split; [done|]. by intros doc k text _. }
  destruct (read_pages (basename files pdf_path) 0 (doc_pages doc)) as [out|e1] eqn:Hread;
    cbn [bind].
  2:{ split; [intros p Hp; by apply elem_of_nil in Hp|].
      split; [constructor|]. split; [done|].
      intros doc' k text _ [= <-] Hno. exfalso.
      apply read_pages_Raise in Hread as [j Hj]. by apply (Hno j e1). }
  apply read_pages_Ok in Hread as (Hno & Hall & Hsorted & Hcomplete).
  destruct (doc_close doc) as [[]|e2] eqn:Hclose; cbn [bind].
  2:{ split; [intros p Hp; by apply elem_of_nil in Hp|].
      split; [constructor|]. split; [done|].
      intros doc' k text _ [= <-] _ Hc. congruence. }
  split; [|split; [done|split]].
  - intros p Hp. rewrite Forall_forall in Hall.
    destruct (Hall p Hp) as (Hs & Hn & text & Hk & Ht & Hne).
    split; [done|]. split; [lia|]. split; [done|].
    split; [by rewrite Ht, strip_idem|].
    exists doc, text. rewrite Nat.sub_0_r in Hk. done.
  - intros doc' k e [= <-] Hk. by destruct (Hno k e).
  - intros doc' k text _ [= <-] _ _ Hk Hne. by apply (Hcomplete k text).
Qed.

(** X19. The pages of the parser are pages the chunker does not pass
    over: each has text that is not blank, and their page numbers are
    pairwise different. *)
Theorem extracted_pages_feed_the_chunker files pdf_path :
  let pages := to_page <$> extract_text_from_pdf files pdf_path in
  Forall (fun page => Chunker.has_text page = true) pages /\
  NoDup ((fun page => default 0%Z (Chunker.page_number page)) <$> pages).
Proof.
  cbv zeta.
  assert (Hshape : exists out,
            extract_text_from_pdf files pdf_path = out /\
            (out = [] \/ exists n pages,
               read_pages (basename files pdf_path) n pages = Ok out)).
  { unfold extract_text_from_pdf. eexists. split; [done|].
    destruct (negb _); [by left|].
    destruct (fitz_open files pdf_path) as [doc|]; cbn [bind]; [|by left].
    destruct (read_pages _ 0 (doc_pages doc)) as [out|] eqn:Hread; cbn [bind]; [|by left].
    destruct (doc_close doc); cbn [bind]; [|by left]. right. by exists 0, (doc_pages doc). }
  destruct Hshape as (out & -> & [->|(n & pages & Hread)]).
  { split; constructor. }
  apply read_pages_Ok in Hread as (_ & Hall & Hsorted & _). split.
  - apply Forall_fmap. eapply Forall_impl; [exact Hall|].
    intros p (_ & _ & text & _ & Ht & Hne). unfold Chunker.has_text, to_page. simpl.
    by rewrite Ht, strip_idem, <- Ht.
  - rewrite <- list_fmap_compose.
    change (NoDup ((Z.of_nat ∘ page_number) <$> out)).
    rewrite (list_fmap_compose page_number Z.of_nat).
    apply NoDup_fmap_2; [apply _|]. by apply increasing_NoDup.
Qed.

(** A file of three pages, the second blank: two pages are returned,
    numbered 1 and 3; with a page that cannot be read, none. *)
Example extract_text_from_pdf_run :
  let files doc := mkFiles (fun _ => true) (fun _ => Ok doc) (fun _ => "book.pdf") in
  extract_text_from_pdf
    (files (mkDocument [Ok " one "; Ok "   "; Ok "three"] (Ok tt))) "/data/book.pdf"
    = [mkPageData "book.pdf" 1 "one"; mkPageData "book.pdf" 3 "three"] /\
  extract_text_from_pdf
    (files (mkDocument [Ok " one "; Raise (LibraryError "damaged")] (Ok tt)))
    "/data/book.pdf" = [].
Proof. split; vm_compute; reflexivity. Qed.

End PdfParser.

(** ** Query generator ([src/rag_pipeline/query_generator.py]) *)

Module QueryGenerator.

(** *** The operations of Python the generator uses on its input *)

(** The value under a key of a dict built by [json.loads]. *)
Fixpoint dict_lookup (d : list (string * value)) (key : string) : option value :=
  match d with
  | [] => None
  | (k, v) :: d' => if String.eqb k key then Some v else dict_lookup d' key
  end.

(** [x.get(key, default)]: only a dict has the method. *)
Definition py_get (x : value) (key : string) (default : value) : Result value :=
  match x with
  | VDict d => Ok (from_option id default (dict_lookup d key))
  | _ => Raise AttributeError
  end.

(** [bool(x)]. *)
Definition py_truthy (x : value) : bool :=
  match x with
  | VNone => false
  | VBool b => b
  | VInt n => negb (n =? 0)%Z
  | VStr s => nonempty s
  | VList l => match l with [] => false | _ => true end
  | VDict d => match d with [] => false | _ => true end
  end.

(** [for y in x]: the items of a list, the characters of a string, the
    keys of a dict; anything else is not iterable. *)
Definition py_iter (x : value) : Result (list value) :=
  match x with
  | VList l => Ok l
  | VStr s => Ok (map (fun c => VStr (String c EmptyString)) (String.list_ascii_of_string s))
  | VDict d => Ok (map (fun kv => VStr kv.1) d)
  | _ => Raise TypeError
  end.

(** [x.lower()]: only a string has the method. *)
Definition py_lower (x : value) : Result string :=
  match x with
  | VStr s => Ok (lower s)
  | _ => Raise AttributeError
  end.

(** [x[:n]]: strings and lists are sliced, a dict refuses the slice as a
    key, the rest is not subscriptable. *)
Definition py_prefix (x : value) (n : nat) : Result value :=
  match x with
  | VStr s => Ok (VStr (first_chars n s))
  | VList l => Ok (VList (take n l))
  | _ => Raise TypeError
  end.

(** [sorted(list(set(queries)))]: insertion into a strictly increasing
    list, in the order of the code points. *)
Fixpoint insert_unique (x : string) (l : list string) : list string :=
  match l with
  | [] => [x]
  | y :: l' =>
      match String.compare x y with
      | Lt => x :: l
      | Eq => l
      | Gt => y :: insert_unique x l'
      end
  end.

Definition sorted_set (queries : list string) : list string :=
  foldr insert_unique [] queries.

Section Rules.

(** [repr] of a list or of a dict, which the f-strings print for such a
    value. *)
Variable repr : value -> string.

(** [f"{x}"]. *)
Definition py_str (x : value) : string :=
  match x with
  | VNone => "None"
  | VBool true => "True"
  | VBool false => "False"
  | VInt n => pretty n
  | VStr s => s
  | _ => repr x
  end.

(** The [if]/[elif] chain on the lowered room name. *)
Definition keyword_queries (lowered : string) : list string :=
  if contains "kitchen" lowered then
    ["Electrical standards for a residential kitchen";
     "Plumbing standards for a residential kitchen";
     "Ventilation standards for a kitchen"]
  else if contains "bath" lowered || contains "washroom" lowered then
    ["Plumbing standards for a bathroom";
     "Electrical safety standards for bathrooms";
     "Accessibility standards for bathrooms"]
  else if contains "bedroom" lowered then
    ["Lighting standards for a bedroom"]
  else [].

(** The body of [for attr in room_attributes]. *)
Definition attribute_queries (room_name attr : value) : Result (list string) :=
  let q := "Design considerations for a " +:+ py_str room_name
           +:+ " with attribute: " +:+ py_str attr in
  lowered <- py_lower attr ;;;
  if contains "godfather vibes" lowered || contains "mafia style" lowered
  then Ok [q; "Interior design elements for '" +:+ py_str attr
                +:+ "' in an office or library"]
  else Ok [q].

(** A loop that appends the queries of every item, stopping at the first
    exception. *)
Fixpoint for_each (body : value -> Result (list string)) (items : list value)
    : Result (list string) :=
  match items with
  | [] => Ok []
  | x :: rest =>
      qs <- body x ;;;
      tail <- for_each body rest ;;;
      Ok (qs ++ tail)
  end.

(** The body of [for room_spec in ...]. *)
Definition room_queries (style : value) (room_spec : value) : Result (list string) :=
  room_name <- py_get room_spec "room_name" (VStr "room") ;;;
  room_attributes <- py_get room_spec "attributes" (VList []) ;;;
  let general :=
    ["Standard dimensions and layout for a " +:+ py_str style +:+ " " +:+ py_str room_name;
     "Functional requirements for a " +:+ py_str room_name] in
  lowered <- py_lower room_name ;;;
  attrs <- py_iter room_attributes ;;;
  of_attrs <- for_each (attribute_queries room_name) attrs ;;;
  Ok (general ++ keyword_queries lowered ++ of_attrs).

(** The body of [for feature in ...]. *)
Definition feature_queries (feature : value) : Result (list string) :=
  feature_name <- py_get feature "feature_name" VNone ;;;
  feature_desc <- py_get feature "description" VNone ;;;
  if py_truthy feature_name then
    let q := "Standards or examples for implementing: " +:+ py_str feature_name in
    if py_truthy feature_desc then
      snippet <- py_prefix feature_desc 100 ;;;
      Ok [q; "Design details for: " +:+ py_str snippet]
    else Ok [q]
  else Ok [].

Definition generate_rule_based_queries (extracted_requirements : value)
    : Result (list string) :=
  project_summary <- py_get extracted_requirements "project_summary" (VDict []) ;;;
  building_type <- py_get project_summary "building_type" (VStr "building") ;;;
  style <- py_get project_summary "user_style_preference" (VStr "") ;;;
  let general :=
    ["General design standards for a " +:+ py_str style +:+ " " +:+ py_str building_type] in
  footprint <- py_get project_summary "total_footprint_sqft" VNone ;;;
  let planning :=
    if py_truthy footprint
    then ["Space planning considerations for a " +:+ py_str footprint
            +:+ " sq ft " +:+ py_str building_type]
    else [] in
  constraints <- py_get project_summary "key_constraints_or_desires" (VList []) ;;;
  constraints <- py_iter constraints ;;;
  let of_constraints :=
    map (fun constraint =>
           "Standards or solutions for: " +:+ py_str constraint
           +:+ " in a " +:+ py_str building_type) constraints in
  rooms <- py_get extracted_requirements "room_specifications" (VList []) ;;;
  rooms <- py_iter rooms ;;;
  of_rooms <- for_each (room_queries style) rooms ;;;
  features <- py_get extracted_requirements "special_features" (VList []) ;;;
  features <- py_iter features ;;;
  of_features <- for_each feature_queries features ;;;
  site_info <- py_get extracted_requirements "site_and_orientation" (VDict []) ;;;
  street_facing <- py_get site_info "lot_orientation_street_facing" VNone ;;;
  let of_site :=
    if py_truthy street_facing
    then ["Sunlight and passive design strategies for a " +:+ py_str street_facing
            +:+ " facing lot"]
    else [] in
  Ok (sorted_set (general ++ planning ++ of_constraints ++ of_rooms ++ of_features
                    ++ of_site)).

(** [generate_queries] with [use_llm_for_generation = False]. *)
Definition generate_queries (extracted_requirements : value) : Result (list string) :=
  if py_truthy extracted_requirements
  then generate_rule_based_queries extracted_requirements
  else Ok [].

End Rules.

(** *** Requirement sets with optional fields

    A requirement set as the extraction step describes it, every field
    the generator reads being optional: [Absent] is a missing key, [Null]
    a key holding [null]. The keys the generator does not read (the
    number of floors, the budget, the connectivity notes, ...) are kept as
    they come, in [*_other]. *)

Inductive Field (A : Type) : Type :=
  | Absent
  | Null
  | Present (a : A).

Arguments Absent {A}.
Arguments Null {A}.
Arguments Present {A} a.

Record ProjectSummary : Type := mkSummary {
  building_type : option string;
  total_footprint_sqft : Field Z;
  user_style_preference : option string;
  key_constraints_or_desires : option (list string);
  summary_other : list (string * value)
}.

Record RoomSpec : Type := mkRoom {
  room_name : option string;
  attributes : option (list string);
  room_other : list (string * value)
}.

Record Feature : Type := mkFeature {
  feature_name : Field string;
  description : Field string;
  feature_other : list (string * value)
}.

Record Site : Type := mkSite {
  lot_orientation_street_facing : Field string;
  site_other : list (string * value)
}.

Record RequirementSet : Type := mkRequirements {
  project_summary : option ProjectSummary;
  room_specifications : option (list RoomSpec);
  special_features : option (list Feature);
  site_and_orientation : option Site;
  requirements_other : list (string * value)
}.

(** The dict of a requirement set: an absent field has no key. *)
Definition opt_entry (key : string) (o : option value) : list (string * value) :=
  match o with
  | Some v => [(key, v)]
  | None => []
  end.

Definition field_value {A : Type} (f : A -> value) (x : Field A) : option value :=
  match x with
  | Absent => None
  | Null => Some VNone
  | Present a => Some (f a)
  end.

Definition strings (l : list string) : value := VList (VStr <$> l).

(** The entries of [d] under other keys than [keys]. *)
Definition without_keys (keys : list string) (d : list (string * value))
    : list (string * value) :=
  filter (fun kv => kv.1 ∉ keys) d.

Definition summary_keys : list string :=
  ["building_type"; "total_footprint_sqft"; "user_style_preference";
   "key_constraints_or_desires"].
Definition room_keys : list string := ["room_name"; "attributes"].
Definition feature_keys : list string := ["feature_name"; "description"].
Definition site_keys : list string := ["lot_orientation_street_facing"].
Definition requirements_keys : list string :=
  ["project_summary"; "room_specifications"; "special_features"; "site_and_orientation"].

Definition encode_summary (ps : ProjectSummary) : value :=
  VDict ((opt_entry "building_type" (VStr <$> building_type ps)
          ++ opt_entry "total_footprint_sqft" (field_value VInt (total_footprint_sqft ps))
          ++ opt_entry "user_style_preference" (VStr <$> user_style_preference ps)
          ++ opt_entry "key_constraints_or_desires"
               (strings <$> key_constraints_or_desires ps))
         ++ without_keys summary_keys (summary_other ps)).

Definition encode_room (room : RoomSpec) : value :=
  VDict ((opt_entry "room_name" (VStr <$> room_name room)
          ++ opt_entry "attributes" (strings <$> attributes room))
         ++ without_keys room_keys (room_other room)).

Definition encode_feature (f : Feature) : value :=
  VDict ((opt_entry "feature_name" (field_value VStr (feature_name f))
          ++ opt_entry "description" (field_value VStr (description f)))
         ++ without_keys feature_keys (feature_other f)).

Definition encode_site (site : Site) : value :=
  VDict (opt_entry "lot_orientation_street_facing"
           (field_value VStr (lot_orientation_street_facing site))
         ++ without_keys site_keys (site_other site)).

Definition encode (r : RequirementSet) : value :=
  VDict ((opt_entry "project_summary" (encode_summary <$> project_summary r)
          ++ opt_entry "room_specifications"
               ((fun l => VList (encode_room <$> l)) <$> room_specifications r)
          ++ opt_entry "special_features"
               ((fun l => VList (encode_feature <$> l)) <$> special_features r)
          ++ opt_entry "site_and_orientation" (encode_site <$> site_and_orientation r))
         ++ without_keys requirements_keys (requirements_other r)).

(** *** The queries planned for a requirement set

    What the rules give, field by field: an absent building type, style
    or room name is replaced by ["building"], [""] or ["room"]; the other
    fields contribute nothing when they are absent, and a scalar one also
    when it is null or falsy. *)

Definition present_text (x : Field string) : option string :=
  match x with
  | Present s => if nonempty s then Some s else None
  | _ => None
  end.

Definition attribute_plan (name attr : string) : list string :=
  ("Design considerations for a " +:+ name +:+ " with attribute: " +:+ attr)
  :: (if contains "godfather vibes" (lower attr) || contains "mafia style" (lower attr)
      then ["Interior design elements for '" +:+ attr +:+ "' in an office or library"]
      else []).

Definition room_plan (style : string) (room : RoomSpec) : list string :=
  let name := default "room" (room_name room) in
  ["Standard dimensions and layout for a " +:+ style +:+ " " +:+ name;
   "Functional requirements for a " +:+ name]
  ++ keyword_queries (lower name)
  ++ flat_map (attribute_plan name) (default [] (attributes room)).

Definition feature_plan (f : Feature) : list string :=
  match present_text (feature_name f) with
  | Some name =>
      ("Standards or examples for implementing: " +:+ name)
      :: match present_text (description f) with
         | Some d => ["Design details for: " +:+ first_chars 100 d]
         | None => []
         end
  | None => []
  end.

Definition no_summary : ProjectSummary := mkSummary None Absent None None [].

Definition no_site : Site := mkSite Absent [].

Definition planned_queries (r : RequirementSet) : list string :=
  let ps := default no_summary (project_summary r) in
  let building := default "building" (building_type ps) in
  let style := default "" (user_style_preference ps) in
  ["General design standards for a " +:+ style +:+ " " +:+ building]
  ++ match total_footprint_sqft ps with
     | Present n =>
         if (n =? 0)%Z then []
         else ["Space planning considerations for a " +:+ pretty n
                 +:+ " sq ft " +:+ building]
     | _ => []
     end
  ++ map (fun c => "Standards or solutions for: " +:+ c +:+ " in a " +:+ building)
         (default [] (key_constraints_or_desires ps))
  ++ flat_map (room_plan style) (default [] (room_specifications r))
  ++ flat_map feature_plan (default [] (special_features r))
  ++ match present_text
             (lot_orientation_street_facing
                (default no_site (site_and_orientation r))) with
     | Some s => ["Sunlight and passive design strategies for a " +:+ s +:+ " facing lot"]
     | None => []
     end.

(** *** The generator on requirement sets *)

Section Planned.

Variable repr : value -> string.

Lemma dict_lookup_app d1 d2 k :
  dict_lookup (d1 ++ d2) k =
    match dict_lookup d1 k with
    | Some v => Some v
    | None => dict_lookup d2 k
    end.
Proof.
  induction d1 as [|[k' v] d1 IH]; simpl; [done|]. by destruct (String.eqb k' k).
Qed.

Lemma dict_lookup_without_keys keys d k :
  k ∈ keys -> dict_lookup (without_keys keys d) k = None.
Proof.
  intros Hk. unfold without_keys.
  induction d as [|[k' v] d IH]; [done|].
  rewrite filter_cons. case_decide as Hk'; simpl in *; [|done].
  destruct (String.eqb_spec k' k) as [->|_]; [done|apply IH].
Qed.

(** A key the generator reads is looked up among the read entries. *)
Lemma py_get_read_key entries keys other k dflt :
  k ∈ keys ->
  py_get (VDict (entries ++ without_keys keys other)) k dflt
    = py_get (VDict entries) k dflt.
Proof.
  intros Hk. unfold py_get. rewrite dict_lookup_app, dict_lookup_without_keys by done.
  by destruct (dict_lookup entries k).
Qed.

Ltac read_key := apply py_get_read_key; set_solver.

Lemma attribute_queries_encode name attr :
  attribute_queries repr (VStr name) (VStr attr) = Ok (attribute_plan name attr).
Proof.
  unfold attribute_queries, attribute_plan. simpl.
  by destruct (contains "godfather vibes" (lower attr) || contains "mafia style" (lower attr)).
Qed.

Lemma for_each_attributes name attrs :
  for_each (attribute_queries repr (VStr name)) (VStr <$> attrs)
    = Ok (flat_map (attribute_plan name) attrs).
Proof.
  induction attrs as [|attr attrs IH]; [done|].
  rewrite fmap_cons. cbn [for_each flat_map].
  by rewrite attribute_queries_encode, IH.
Qed.

Lemma get_room_name room :
  py_get (encode_room room) "room_name" (VStr "room")
    = Ok (VStr (default "room" (room_name room))).
Proof.
  unfold encode_room. etrans; [read_key|]. by destruct room as [[name|] [attrs|] other].
Qed.

Lemma get_attributes room :
  py_get (encode_room room) "attributes" (VList [])
    = Ok (strings (default [] (attributes room))).
Proof.
  unfold encode_room. etrans; [read_key|]. by destruct room as [[name|] [attrs|] other].
Qed.

Lemma room_queries_encode style room :
  room_queries repr (VStr style) (encode_room room) = Ok (room_plan style room).
Proof.
  unfold room_queries, room_plan.
  rewrite get_room_name, get_attributes. cbn [bind py_lower py_iter strings].
  by rewrite for_each_attributes.
Qed.

Lemma for_each_rooms style rooms :
  for_each (room_queries repr (VStr style)) (encode_room <$> rooms)
    = Ok (flat_map (room_plan style) rooms).
Proof.
  induction rooms as [|room rooms IH]; [done|].
  rewrite fmap_cons. cbn [for_each flat_map].
  by rewrite room_queries_encode, IH.
Qed.

Lemma get_feature_name f :
  py_get (encode_feature f) "feature_name" VNone
    = Ok (default VNone (field_value VStr (feature_name f))).
Proof.
  unfold encode_feature. etrans; [read_key|]. by destruct f as [[| |name] [| |d] other].
Qed.

Lemma get_description f :
  py_get (encode_feature f) "description" VNone
    = Ok (default VNone (field_value VStr (description f))).
Proof.
  unfold encode_feature. etrans; [read_key|]. by destruct f as [[| |name] [| |d] other].
Qed.

Lemma feature_queries_encode f :
  feature_queries repr (encode_feature f) = Ok (feature_plan f).
Proof.
  unfold feature_queries, feature_plan.
  rewrite get_feature_name, get_description. cbn [bind].
  destruct (feature_name f) as [| |name]; try reflexivity.
  simpl. destruct (nonempty name); [|reflexivity].
  destruct (description f) as [| |d]; try reflexivity.
  simpl. by destruct (nonempty d).
Qed.

Lemma for_each_features features :
  for_each (feature_queries repr) (encode_feature <$> features)
    = Ok (flat_map feature_plan features).
Proof.
  induction features as [|f features IH]; [done|].
  rewrite fmap_cons. cbn [for_each flat_map].
  by rewrite feature_queries_encode, IH.
Qed.

Lemma get_project_summary r :
  py_get (encode r) "project_summary" (VDict [])
    = Ok (encode_summary (default no_summary (project_summary r))).
Proof.
  unfold encode. etrans; [read_key|].
  by destruct r as [[ps|] [rooms|] [fs|] [site|] other].
Qed.

Lemma get_room_specifications r :
  py_get (encode r) "room_specifications" (VList [])
    = Ok (VList (encode_room <$> default [] (room_specifications r))).
Proof.
  unfold encode. etrans; [read_key|].
  by destruct r as [[ps|] [rooms|] [fs|] [site|] other].
Qed.

Lemma get_special_features r :
  py_get (encode r) "special_features" (VList [])
    = Ok (VList (encode_feature <$> default [] (special_features r))).
Proof.
  unfold encode. etrans; [read_key|].
  by destruct r as [[ps|] [rooms|] [fs|] [site|] other].
Qed.

Lemma get_site_and_orientation r :
  py_get (encode r) "site_and_orientation" (VDict [])
    = Ok (encode_site (default no_site (site_and_orientation r))).
Proof.
  unfold encode. etrans; [read_key|].
  by destruct r as [[ps|] [rooms|] [fs|] [site|] other].
Qed.

Lemma get_building_type ps :
  py_get (encode_summary ps) "building_type" (VStr "building")
    = Ok (VStr (default "building" (building_type ps))).
Proof.
  unfold encode_summary. etrans; [read_key|].
  by destruct ps as [[bt|] [| |n] [sty|] [cs|] other].
Qed.

Lemma get_user_style_preference ps :
  py_get (encode_summary ps) "user_style_preference" (VStr "")
    = Ok (VStr (default "" (user_style_preference ps))).
Proof.
  unfold encode_summary. etrans; [read_key|].
  by destruct ps as [[bt|] [| |n] [sty|] [cs|] other].
Qed.

Lemma get_total_footprint_sqft ps :
  py_get (encode_summary ps) "total_footprint_sqft" VNone
    = Ok (default VNone (field_value VInt (total_footprint_sqft ps))).
Proof.
  unfold encode_summary. etrans; [read_key|].
  by destruct ps as [[bt|] [| |n] [sty|] [cs|] other].
Qed.

Lemma get_key_constraints_or_desires ps :
  py_get (encode_summary ps) "key_constraints_or_desires" (VList [])
    = Ok (strings (default [] (key_constraints_or_desires ps))).
Proof.
  unfold encode_summary. etrans; [read_key|].
  by destruct ps as [[bt|] [| |n] [sty|] [cs|] other].
Qed.

Lemma get_street_facing site :
  py_get (encode_site site) "lot_orientation_street_facing" VNone
    = Ok (default VNone (field_value VStr (lot_orientation_street_facing site))).
Proof.
  unfold encode_site. etrans; [read_key|]. by destruct site as [[| |s] other].
Qed.

Lemma elem_of_insert_unique x l y :
  y ∈ insert_unique x l <-> y = x \/ y ∈ l.
Proof.
  induction l as [|a l IH]; simpl.
  - rewrite list_elem_of_singleton. set_solver.
  - destruct (String.compare x a) eqn:Hcmp.
    + apply String.compare_eq_iff in Hcmp as ->. set_solver.
    + set_solver.
    + rewrite elem_of_cons, IH. set_solver.
Qed.

Lemma elem_of_sorted_set l y : y ∈ sorted_set l <-> y ∈ l.
Proof.
  induction l as [|x l IH]; [done|].
  unfold sorted_set in *. simpl. rewrite elem_of_insert_unique, IH. set_solver.
Qed.

(** C6, as the code has it. On the dict of a requirement set whose
    optional fields may be absent the generator returns, and it returns
    the planned queries without repetition and in order: an absent
    footprint, constraint list, room list, attribute list, feature list or
    street side contributes nothing, and so does a null or empty
    footprint, feature name, description or street side; an absent
    building type, style or room name is replaced by its default. *)
Theorem planning_tolerates_absent_fields r :
  exists qs,
    generate_rule_based_queries repr (encode r) = Ok qs /\
    qs = sorted_set (planned_queries r) /\
    forall q, q ∈ qs <-> q ∈ planned_queries r.
Proof.
  exists (sorted_set (planned_queries r)).
  split; [|split; [done|apply elem_of_sorted_set]].
  unfold generate_rule_based_queries, planned_queries.
  rewrite get_project_summary. cbn [bind]. cbv zeta.
  generalize (default no_summary (project_summary r)). intros ps.
  rewrite get_building_type, get_user_style_preference, get_total_footprint_sqft,
    get_key_constraints_or_desires.
  cbn [bind strings py_iter].
  rewrite get_room_specifications. cbn [bind py_iter].
  rewrite for_each_rooms. cbn [bind].
  rewrite get_special_features. cbn [bind py_iter].
  rewrite for_each_features. cbn [bind].
  rewrite get_site_and_orientation. cbn [bind].
  rewrite get_street_facing. cbn [bind].
  do 2 f_equal.
  apply (f_equal2 app); [reflexivity|].
  apply (f_equal2 app).
  { destruct (total_footprint_sqft ps) as [| |n]; try reflexivity.
    simpl. by destruct (n =? 0)%Z. }
  apply (f_equal2 app); [by rewrite map_map|].
  apply (f_equal2 app); [reflexivity|].
  apply (f_equal2 app); [reflexivity|].
  destruct (lot_orientation_street_facing _) as [| |s]; try reflexivity.
  simpl. by destruct (nonempty s).
Qed.

End Planned.

(** C6, as the specification words it, fails: a null room name raises
    (as a null room list does), and for an absent building type and an
    absent room name the placeholders ["building"] and ["room"] are put in
    the queries. *)
Lemma planning_raises_on_null_and_substitutes :
  generate_rule_based_queries (fun _ => "")
    (VDict [("room_specifications", VList [VDict [("room_name", VNone)]])])
    = Raise AttributeError /\
  generate_rule_based_queries (fun _ => "")
    (VDict [("room_specifications", VNone)]) = Raise TypeError /\
  generate_rule_based_queries (fun _ => "")
    (VDict [("project_summary", VDict [("user_style_preference", VStr "Modern")]);
            ("room_specifications", VList [VDict []])])
    = Ok ["Functional requirements for a room";
          "General design standards for a Modern building";
          "Standard dimensions and layout for a Modern room"].
Proof. repeat split; vm_compute; reflexivity. Qed.

(** A requirement set with a null street side, no special features and
    keys the generator does not read: its dict, and the queries for it. *)
Definition house_requirements : RequirementSet :=
  mkRequirements
    (Some (mkSummary (Some "House") (Present 1500%Z) None (Some ["Private backyard"])
             [("num_floors", VInt 3)]))
    (Some [mkRoom (Some "Kitchen") (Some ["large"]) [("quantity", VInt 1)]])
    None
    (Some (mkSite Null [("lot_shape", VStr "Rectangular")]))
    [].

Example encode_run :
  encode house_requirements =
  VDict [("project_summary",
          VDict [("building_type", VStr "House");
                 ("total_footprint_sqft", VInt 1500);
                 ("key_constraints_or_desires", VList [VStr "Private backyard"]);
                 ("num_floors", VInt 3)]);
         ("room_specifications",
          VList [VDict [("room_name", VStr "Kitchen");
                        ("attributes", VList [VStr "large"]);
                        ("quantity", VInt 1)]]);
         ("site_and_orientation",
          VDict [("lot_orientation_street_facing", VNone);
                 ("lot_shape", VStr "Rectangular")])].
Proof. vm_compute. reflexivity. Qed.

Example planning_run :
  generate_rule_based_queries (fun _ => "") (encode house_requirements) =
  Ok ["Design considerations for a Kitchen with attribute: large";
      "Electrical standards for a residential kitchen";
      "Functional requirements for a Kitchen";
      "General design standards for a  House";
      "Plumbing standards for a residential kitchen";
      "Space planning considerations for a 1500 sq ft House";
      "Standard dimensions and layout for a  Kitchen";
      "Standards or solutions for: Private backyard in a House";
      "Ventilation standards for a kitchen"].
Proof. vm_compute. reflexivity. Qed.

(** Nothing but the general query is planned for the empty requirement
    set. *)
Example planned_queries_of_nothing :
  planned_queries (mkRequirements None None None None [("client", VStr "A")])
    = ["General design standards for a  building"].
Proof. reflexivity. Qed.

(** *** Keyword-triggered queries *)

Section Keywords.

Variable repr : value -> string.

Lemma for_each_elem_of body items :
  forall qs x,
    for_each body items = Ok qs -> x ∈ items ->
    exists qx, body x = Ok qx /\ forall q, q ∈ qx -> q ∈ qs.
Proof.
  induction items as [|i items IH]; intros qs x Hrun Hx.
  - by apply elem_of_nil in Hx.
  - simpl in Hrun.
    destruct (body i) as [qi|] eqn:Hi; cbn [bind] in Hrun; [|done].
    destruct (for_each body items) as [tail|] eqn:Htail; cbn [bind] in Hrun; [|done].
    apply Ok_inj in Hrun. subst qs.
    apply elem_of_cons in Hx as [->|Hx].
    + exists qi. split; [done|]. intros q Hq. apply elem_of_app. by left.
    + destruct (IH tail x eq_refl Hx) as (qx & Hqx & Hsub).
      exists qx. split; [done|]. intros q Hq. apply elem_of_app. right. by apply Hsub.
Qed.

Lemma room_queries_keywords style room name qr q :
  room_queries repr style room = Ok qr ->
  py_get room "room_name" (VStr "room") = Ok (VStr name) ->
  q ∈ keyword_queries (lower name) -> q ∈ qr.
Proof.
  unfold room_queries. intros Hrun Hname Hq.
  rewrite Hname in Hrun. cbn [bind py_lower] in Hrun.
  destruct (py_get room "attributes" (VList [])) as [attrs_v|]; cbn [bind] in Hrun; [|done].
  destruct (py_iter attrs_v) as [attrs|]; cbn [bind] in Hrun; [|done].
  destruct (for_each _ attrs) as [of_attrs|]; cbn [bind] in Hrun; [|done].
  apply Ok_inj in Hrun. subst qr. rewrite !elem_of_app. tauto.
Qed.

(** The keyword queries of every room are among the queries returned. *)
Lemma generate_keyword_queries reqs qs rooms_v rooms room name q :
  generate_rule_based_queries repr reqs = Ok qs ->
  py_get reqs "room_specifications" (VList []) = Ok rooms_v ->
  py_iter rooms_v = Ok rooms ->
  room ∈ rooms ->
  py_get room "room_name" (VStr "room") = Ok (VStr name) ->
  q ∈ keyword_queries (lower name) -> q ∈ qs.
Proof.
  unfold generate_rule_based_queries. intros Hrun Hrooms_v Hrooms Hroom Hname Hq.
  destruct (py_get reqs "project_summary" (VDict [])) as [ps|];
    cbn [bind] in Hrun; [|done].
  destruct (py_get ps "building_type" _) as [bt|]; cbn [bind] in Hrun; [|done].
  destruct (py_get ps "user_style_preference" _) as [style|];
    cbn [bind] in Hrun; [|done].
  destruct (py_get ps "total_footprint_sqft" _) as [fp|]; cbn [bind] in Hrun; [|done].
  destruct (py_get ps "key_constraints_or_desires" _) as [cs_v|];
    cbn [bind] in Hrun; [|done].
  destruct (py_iter cs_v) as [cs|]; cbn [bind] in Hrun; [|done].
  rewrite Hrooms_v in Hrun. cbn [bind] in Hrun.
  rewrite Hrooms in Hrun. cbn [bind] in Hrun.
  destruct (for_each (room_queries repr style) rooms) as [of_rooms|] eqn:Hof;
    cbn [bind] in Hrun; [|done].
  destruct (py_get reqs "special_features" _) as [fs_v|]; cbn [bind] in Hrun; [|done].
  destruct (py_iter fs_v) as [fs|]; cbn [bind] in Hrun; [|done].
  destruct (for_each _ fs) as [of_features|]; cbn [bind] in Hrun; [|done].
  destruct (py_get reqs "site_and_orientation" _) as [site|]; cbn [bind] in Hrun; [|done].
  destruct (py_get site "lot_orientation_street_facing" _) as [sf|];
    cbn [bind] in Hrun; [|done].
  apply Ok_inj in Hrun. subst qs. rewrite elem_of_sorted_set.
  destruct (for_each_elem_of _ _ _ _ Hof Hroom) as (qr & Hqr & Hsub).
  pose proof (Hsub q (room_queries_keywords _ _ _ _ _ Hqr Hname Hq)) as Hin.
  rewrite !elem_of_app. tauto.
Qed.

(** C9, as the code has it. For every room whose name holds "kitchen"
    (in any case) the three kitchen queries are returned; for a name that
    holds "bath" or "washroom" but not "kitchen", the three bathroom
    queries; for a name that holds "bedroom" and none of the other
    keywords, the lighting query. *)
Theorem keyword_queries_triggered reqs qs rooms_v rooms room name :
  generate_rule_based_queries repr reqs = Ok qs ->
  py_get reqs "room_specifications" (VList []) = Ok rooms_v ->
  py_iter rooms_v = Ok rooms ->
  room ∈ rooms ->
  py_get room "room_name" (VStr "room") = Ok (VStr name) ->
  (contains "kitchen" (lower name) = true ->
     "Electrical standards for a residential kitchen" ∈ qs /\
     "Plumbing standards for a residential kitchen" ∈ qs /\
     "Ventilation standards for a kitchen" ∈ qs) /\
  (contains "kitchen" (lower name) = false ->
   contains "bath" (lower name) || contains "washroom" (lower name) = true ->
     "Plumbing standards for a bathroom" ∈ qs /\
     "Electrical safety standards for bathrooms" ∈ qs /\
     "Accessibility standards for bathrooms" ∈ qs) /\
  (contains "kitchen" (lower name) = false ->
   contains "bath" (lower name) || contains "washroom" (lower name) = false ->
   contains "bedroom" (lower name) = true ->
     "Lighting standards for a bedroom" ∈ qs).
Proof.
  intros Hrun Hrooms_v Hrooms Hroom Hname.
  pose proof (fun q => generate_keyword_queries _ _ _ _ _ _ q
                         Hrun Hrooms_v Hrooms Hroom Hname) as Hkw.
  unfold keyword_queries in Hkw.
  split; [|split].
  - intros Hk. rewrite Hk in Hkw.
    repeat split; apply Hkw; set_solver.
  - intros Hk Hb. rewrite Hk, Hb in Hkw.
    repeat split; apply Hkw; set_solver.
  - intros Hk Hb Hbed. rewrite Hk, Hb, Hbed in Hkw.
    apply Hkw. set_solver.
Qed.

End Keywords.

(** C9, as the specification words it, fails: the keywords are tried in
    the order kitchen, bath or washroom, bedroom, and only the first that
    is found counts. A bedroom with a bath gets no lighting query, a
    kitchen with a washroom no bathroom query. *)
Lemma keyword_chain_first_match_only :
  contains "bedroom" (lower "Master Bedroom with Bath") = true /\
  generate_rule_based_queries (fun _ => "")
    (VDict [("room_specifications",
             VList [VDict [("room_name", VStr "Master Bedroom with Bath")]])])
    = Ok ["Accessibility standards for bathrooms";
          "Electrical safety standards for bathrooms";
          "Functional requirements for a Master Bedroom with Bath";
          "General design standards for a  building";
          "Plumbing standards for a bathroom";
          "Standard dimensions and layout for a  Master Bedroom with Bath"] /\
  contains "washroom" (lower "Kitchen and washroom") = true /\
  generate_rule_based_queries (fun _ => "")
    (VDict [("room_specifications",
             VList [VDict [("room_name", VStr "Kitchen and washroom")]])])
    = Ok ["Electrical standards for a residential kitchen";
          "Functional requirements for a Kitchen and washroom";
          "General design standards for a  building";
          "Plumbing standards for a residential kitchen";
          "Standard dimensions and layout for a  Kitchen and washroom";
          "Ventilation standards for a kitchen"].
Proof. repeat split; vm_compute; reflexivity. Qed.

(** The scenario of the specification: one room "Kitchen" with the
    attribute "large". *)
Definition kitchen_room : value :=
  VDict [("room_name", VStr "Kitchen"); ("attributes", VList [VStr "large"])].

Definition kitchen_requirements : value :=
  VDict [("room_specifications", VList [kitchen_room])].

Definition kitchen_queries : list string :=
  ["Design considerations for a Kitchen with attribute: large";
   "Electrical standards for a residential kitchen";
   "Functional requirements for a Kitchen";
   "General design standards for a  building";
   "Plumbing standards for a residential kitchen";
   "Standard dimensions and layout for a  Kitchen";
   "Ventilation standards for a kitchen"].

Lemma keyword_queries_triggered_witness :
  generate_rule_based_queries (fun _ => "") kitchen_requirements = Ok kitchen_queries /\
  kitchen_room ∈ [kitchen_room] /\
  contains "kitchen" (lower "Kitchen") = true /\
  "Electrical standards for a residential kitchen" ∈ kitchen_queries.
Proof.
  split; [vm_compute; reflexivity|].
  split; [apply list_elem_of_singleton; reflexivity|].
  split; [reflexivity|].
  apply (keyword_queries_triggered (fun _ => "") kitchen_requirements kitchen_queries
           (VList [kitchen_room]) [kitchen_room] kitchen_room "Kitchen");
    [vm_compute; reflexivity | reflexivity | reflexivity
    | apply list_elem_of_singleton; reflexivity | reflexivity | reflexivity].
Defined.

(** *** Order of the result *)

(** The order of [sorted] on strings: by code points, a proper prefix
    first. *)
Definition string_lt (a b : string) : Prop := String.compare a b = Lt.

Lemma ascii_compare_lt_trans (a b c : ascii) :
  Ascii.compare a b = Lt -> Ascii.compare b c = Lt -> Ascii.compare a c = Lt.
Proof.
  unfold Ascii.compare. rewrite !N.compare_lt_iff. lia.
Qed.

Lemma string_lt_trans a b c : string_lt a b -> string_lt b c -> string_lt a c.
Proof.
  unfold string_lt. revert b c.
  induction a as [|x a IH]; intros [|y b] [|z c]; simpl; try done.
  destruct (Ascii.compare x y) eqn:Hxy; try done.
  - apply Ascii.compare_eq_iff in Hxy as ->.
    destruct (Ascii.compare y z); try done. apply IH.
  - intros _. destruct (Ascii.compare y z) eqn:Hyz; try done.
    + apply Ascii.compare_eq_iff in Hyz as <-. by rewrite Hxy.
    + by rewrite (ascii_compare_lt_trans x y z).
Qed.

Lemma string_lt_irrefl a : ~ string_lt a a.
Proof.
  unfold string_lt. induction a as [|x a IH]; simpl; [done|].
  unfold Ascii.compare. by rewrite N.compare_refl.
Qed.

Lemma string_compare_gt a b : String.compare a b = Gt -> string_lt b a.
Proof.
  unfold string_lt. intros Hgt. by rewrite String.compare_antisym, Hgt.
Qed.

Lemma insert_unique_hd x y l :
  string_lt y x -> HdRel string_lt y l -> HdRel string_lt y (insert_unique x l).
Proof.
  intros Hyx Hl. destruct l as [|z l]; simpl; [by constructor|].
  inversion_clear Hl. destruct (String.compare x z); by constructor.
Qed.

Lemma insert_unique_sorted x l :
  Sorted string_lt l -> Sorted string_lt (insert_unique x l).
Proof.
  induction l as [|y l IH]; intros Hl; simpl; [by repeat constructor|].
  destruct (String.compare x y) eqn:Hcmp; [done| |].
  - constructor; [done|]. by constructor.
  - inversion_clear Hl. constructor; [by apply IH|].
    apply insert_unique_hd; [by apply string_compare_gt|done].
Qed.

Lemma sorted_set_sorted l : Sorted string_lt (sorted_set l).
Proof.
  unfold sorted_set. induction l as [|x l IH]; simpl; [constructor|].
  by apply insert_unique_sorted.
Qed.

Lemma strictly_sorted_NoDup l : StronglySorted string_lt l -> NoDup l.
Proof.
  induction 1 as [|x l Hl IH Hall]; constructor; [|done].
  intros Hin. rewrite Forall_forall in Hall.
  by apply (string_lt_irrefl x), Hall.
Qed.

(** *** What a run that returns went through *)

Section Generated.

Variable repr : value -> string.

Lemma generate_rule_based_inv reqs qs :
  generate_rule_based_queries repr reqs = Ok qs ->
  exists ps bt style fp cs_v cs rooms_v rooms of_rooms fs_v fs of_features site sf,
    py_get reqs "project_summary" (VDict []) = Ok ps /\
    py_get ps "building_type" (VStr "building") = Ok bt /\
    py_get ps "user_style_preference" (VStr "") = Ok style /\
    py_get ps "total_footprint_sqft" VNone = Ok fp /\
    py_get ps "key_constraints_or_desires" (VList []) = Ok cs_v /\
    py_iter cs_v = Ok cs /\
    py_get reqs "room_specifications" (VList []) = Ok rooms_v /\
    py_iter rooms_v = Ok rooms /\
    for_each (room_queries repr style) rooms = Ok of_rooms /\
    py_get reqs "special_features" (VList []) = Ok fs_v /\
    py_iter fs_v = Ok fs /\
    for_each (feature_queries repr) fs = Ok of_features /\
    py_get reqs "site_and_orientation" (VDict []) = Ok site /\
    py_get site "lot_orientation_street_facing" VNone = Ok sf /\
    qs = sorted_set
           (["General design standards for a " +:+ py_str repr style +:+ " "
               +:+ py_str repr bt]
            ++ (if py_truthy fp
                then ["Space planning considerations for a " +:+ py_str repr fp
                        +:+ " sq ft " +:+ py_str repr bt]
                else [])
            ++ map (fun c => "Standards or solutions for: " +:+ py_str repr c
                               +:+ " in a " +:+ py_str repr bt) cs
            ++ of_rooms ++ of_features
            ++ (if py_truthy sf
                then ["Sunlight and passive design strategies for a "
                        +:+ py_str repr sf +:+ " facing lot"]
                else [])).
Proof.
  unfold generate_rule_based_queries. intros Hrun.
  destruct (py_get reqs "project_summary" (VDict [])) as [ps|] eqn:H1;
    cbn [bind] in Hrun; [|done].
  destruct (py_get ps "building_type" _) as [bt|] eqn:H2; cbn [bind] in Hrun; [|done].
  destruct (py_get ps "user_style_preference" _) as [style|] eqn:H3;
    cbn [bind] in Hrun; [|done].
  destruct (py_get ps "total_footprint_sqft" _) as [fp|] eqn:H4;
    cbn [bind] in Hrun; [|done].
  destruct (py_get ps "key_constraints_or_desires" _) as [cs_v|] eqn:H5;
    cbn [bind] in Hrun; [|done].
  destruct (py_iter cs_v) as [cs|] eqn:H6; cbn [bind] in Hrun; [|done].
  destruct (py_get reqs "room_specifications" _) as [rooms_v|] eqn:H7;
    cbn [bind] in Hrun; [|done].
  destruct (py_iter rooms_v) as [rooms|] eqn:H8; cbn [bind] in Hrun; [|done].
  destruct (for_each (room_queries repr style) rooms) as [of_rooms|] eqn:H9;
    cbn [bind] in Hrun; [|done].
  destruct (py_get reqs "special_features" _) as [fs_v|] eqn:H10;
    cbn [bind] in Hrun; [|done].
  destruct (py_iter fs_v) as [fs|] eqn:H11; cbn [bind] in Hrun; [|done].
  destruct (for_each _ fs) as [of_features|] eqn:H12; cbn [bind] in Hrun; [|done].
  destruct (py_get reqs "site_and_orientation" _) as [site|] eqn:H13;
    cbn [bind] in Hrun; [|done].
  destruct (py_get site "lot_orientation_street_facing" _) as [sf|] eqn:H14;
    cbn [bind] in Hrun; [|done].
  apply Ok_inj in Hrun.
  exists ps, bt, style, fp, cs_v, cs, rooms_v, rooms, of_rooms, fs_v, fs, of_features,
    site, sf.
  by repeat split.
Qed.

(** X14. The list [generate_queries] returns is in strictly increasing
    order of its strings, code point by code point, and so holds no query
    twice. *)
Theorem queries_sorted_without_duplicates reqs qs :
  generate_queries repr reqs = Ok qs ->
  StronglySorted string_lt qs /\ NoDup qs.
Proof.
  unfold generate_queries. intros Hrun.
  assert (Hsorted : StronglySorted string_lt qs).
  { destruct (py_truthy reqs).
    - apply generate_rule_based_inv in Hrun
        as (ps & bt & style & fp & cs_v & cs & rooms_v & rooms & of_rooms & fs_v & fs
            & of_features & site & sf & _ & _ & _ & _ & _ & _ & _ & _ & _ & _ & _ & _
            & _ & _ & ->).
      apply Sorted_StronglySorted; [|apply sorted_set_sorted].
      intros a b c. apply string_lt_trans.
    - apply Ok_inj in Hrun. subst qs. constructor. }
  split; [done|by apply strictly_sorted_NoDup].
Qed.

(** X15. [generate_queries] returns the empty list for requirements that
    are falsy ([None], an empty dict) and for these only: for any other
    requirements a run that returns holds the general query, built from
    the style and the building type or their defaults. *)
Theorem queries_empty_only_without_requirements reqs qs :
  generate_queries repr reqs = Ok qs ->
  (qs = [] <-> py_truthy reqs = false) /\
  (py_truthy reqs = true ->
     exists ps bt style,
       py_get reqs "project_summary" (VDict []) = Ok ps /\
       py_get ps "building_type" (VStr "building") = Ok bt /\
       py_get ps "user_style_preference" (VStr "") = Ok style /\
       ("General design standards for a " +:+ py_str repr style +:+ " "
          +:+ py_str repr bt) ∈ qs).
Proof.
  unfold generate_queries. intros Hrun.
  destruct (py_truthy reqs).
  - apply generate_rule_based_inv in Hrun
      as (ps & bt & style & fp & cs_v & cs & rooms_v & rooms & of_rooms & fs_v & fs
          & of_features & site & sf & Hps & Hbt & Hstyle & _ & _ & _ & _ & _ & _ & _ & _
          & _ & _ & _ & ->).
    assert (Hin : ("General design standards for a " +:+ py_str repr style +:+ " "
                     +:+ py_str repr bt)
                  ∈ sorted_set
                      (["General design standards for a " +:+ py_str repr style +:+ " "
                          +:+ py_str repr bt]
                       ++ (if py_truthy fp
                           then ["Space planning considerations for a "
                                   +:+ py_str repr fp +:+ " sq ft " +:+ py_str repr bt]
                           else [])
                       ++ map (fun c => "Standards or solutions for: " +:+ py_str repr c
                                          +:+ " in a " +:+ py_str repr bt) cs
                       ++ of_rooms ++ of_features
                       ++ (if py_truthy sf
                           then ["Sunlight and passive design strategies for a "
                                   +:+ py_str repr sf +:+ " facing lot"]
                           else []))).
    { apply elem_of_sorted_set. apply elem_of_app. left. by apply list_elem_of_singleton. }
    split.
    + split; [|done]. intros Hnil. rewrite Hnil in Hin. by apply elem_of_nil in Hin.
    + intros _. by exists ps, bt, style.
  - apply Ok_inj in Hrun. subst qs. by split.
Qed.

(** *** The rules, on any requirements *)

Lemma for_each_map (f : value -> Result (list string)) items qs x qx q :
  for_each f items = Ok qs -> x ∈ items -> f x = Ok qx -> q ∈ qx -> q ∈ qs.
Proof.
  intros Hrun Hx Hfx Hq.
  destruct (for_each_elem_of f items qs x Hrun Hx) as (qx' & Hqx' & Hsub).
  rewrite Hfx in Hqx'. apply Ok_inj in Hqx'. subst qx'. by apply Hsub.
Qed.

(** X16. In a run that returns, every room gives its two general
    queries, with the style and the name of the room, and every
    attribute of the room gives the query on the room with that
    attribute; an attribute that holds "godfather vibes" or "mafia
    style", in any case, gives the query on interior design elements as
    well. *)
Theorem room_and_attribute_queries reqs qs ps style rooms_v rooms room name :
  generate_rule_based_queries repr reqs = Ok qs ->
  py_get reqs "project_summary" (VDict []) = Ok ps ->
  py_get ps "user_style_preference" (VStr "") = Ok style ->
  py_get reqs "room_specifications" (VList []) = Ok rooms_v ->
  py_iter rooms_v = Ok rooms ->
  room ∈ rooms ->
  py_get room "room_name" (VStr "room") = Ok (VStr name) ->
  ("Standard dimensions and layout for a " +:+ py_str repr style +:+ " " +:+ name) ∈ qs /\
  ("Functional requirements for a " +:+ name) ∈ qs /\
  forall attrs_v attrs attr,
    py_get room "attributes" (VList []) = Ok attrs_v ->
    py_iter attrs_v = Ok attrs ->
    VStr attr ∈ attrs ->
    ("Design considerations for a " +:+ name +:+ " with attribute: " +:+ attr) ∈ qs /\
    (contains "godfather vibes" (lower attr) || contains "mafia style" (lower attr) = true ->
       ("Interior design elements for '" +:+ attr +:+ "' in an office or library") ∈ qs).
Proof.
  intros Hrun Hps Hstyle Hrooms_v Hrooms Hroom Hname.
  apply generate_rule_based_inv in Hrun
    as (ps' & bt & style' & fp & cs_v & cs & rooms_v' & rooms' & of_rooms & fs_v & fs
        & of_features & site & sf & Hps' & _ & Hstyle' & _ & _ & _ & Hrooms_v' & Hrooms'
        & Hof & _ & _ & _ & _ & _ & ->).
  rewrite Hps in Hps'. apply Ok_inj in Hps'. subst ps'.
  rewrite Hstyle in Hstyle'. apply Ok_inj in Hstyle'. subst style'.
  rewrite Hrooms_v in Hrooms_v'. apply Ok_inj in Hrooms_v'. subst rooms_v'.
  rewrite Hrooms in Hrooms'. apply Ok_inj in Hrooms'. subst rooms'.
  destruct (for_each_elem_of _ _ _ _ Hof Hroom) as (qr & Hqr & Hsub).
  assert (Hqs : forall q, q ∈ qr ->
            q ∈ sorted_set
                  (["General design standards for a " +:+ py_str repr style +:+ " "
                      +:+ py_str repr bt]
                   ++ (if py_truthy fp
                       then ["Space planning considerations for a "
                               +:+ py_str repr fp +:+ " sq ft " +:+ py_str repr bt]
                       else [])
                   ++ map (fun c => "Standards or solutions for: " +:+ py_str repr c
                                      +:+ " in a " +:+ py_str repr bt) cs
                   ++ of_rooms ++ of_features
                   ++ (if py_truthy sf
                       then ["Sunlight and passive design strategies for a "
                               +:+ py_str repr sf +:+ " facing lot"]
                       else []))).
  { intros q Hq. apply elem_of_sorted_set. rewrite !elem_of_app.
    right. right. right. left. by apply Hsub. }
  clear Hsub Hof. unfold room_queries in Hqr.
  rewrite Hname in Hqr. cbn [bind py_lower] in Hqr.
  destruct (py_get room "attributes" (VList [])) as [attrs_v|] eqn:Hav;
    cbn [bind] in Hqr; [|done].
  destruct (py_iter attrs_v) as [attrs|] eqn:Hattrs; cbn [bind] in Hqr; [|done].
  destruct (for_each _ attrs) as [of_attrs|] eqn:Hofa; cbn [bind] in Hqr; [|done].
  apply Ok_inj in Hqr. subst qr.
  split; [apply Hqs; set_solver|]. split; [apply Hqs; set_solver|].
  intros attrs_v' attrs' attr Hav' Hattrs' Hattr.
  apply Ok_inj in Hav'. subst attrs_v'.
  rewrite Hattrs in Hattrs'. apply Ok_inj in Hattrs'. subst attrs'.
  assert (Hbody : forall q,
            q ∈ (("Design considerations for a " +:+ name +:+ " with attribute: " +:+ attr)
                 :: (if contains "godfather vibes" (lower attr)
                        || contains "mafia style" (lower attr)
                     then ["Interior design elements for '" +:+ attr
                             +:+ "' in an office or library"]
                     else [])) ->
            q ∈ of_attrs).
  { intros q Hq. refine (for_each_map _ _ _ _ _ q Hofa Hattr _ Hq).
    unfold attribute_queries. cbn [bind py_lower py_str].
    by destruct (contains "godfather vibes" (lower attr)
                 || contains "mafia style" (lower attr)). }
  split.
  - apply Hqs. rewrite !elem_of_app. right. right. apply Hbody. by left.
  - intros Hvibes. apply Hqs. rewrite !elem_of_app. right. right. apply Hbody.
    rewrite Hvibes. right. by left.
Qed.

(** X17. In a run that returns, a special feature with a name gives
    the query on implementing it, and with a description as well the
    query on its design details, which quotes at most the first 100
    characters of the description; a feature without a name gives no
    query at all, whatever its description. *)
Theorem feature_queries_need_a_name reqs qs fs_v fs feature name_v desc_v :
  generate_rule_based_queries repr reqs = Ok qs ->
  py_get reqs "special_features" (VList []) = Ok fs_v ->
  py_iter fs_v = Ok fs ->
  feature ∈ fs ->
  py_get feature "feature_name" VNone = Ok name_v ->
  py_get feature "description" VNone = Ok desc_v ->
  (py_truthy name_v = false -> feature_queries repr feature = Ok []) /\
  (py_truthy name_v = true ->
     ("Standards or examples for implementing: " +:+ py_str repr name_v) ∈ qs /\
     forall d, desc_v = VStr d -> nonempty d = true ->
       ("Design details for: " +:+ first_chars 100 d) ∈ qs /\
       String.length (first_chars 100 d) <= 100).
Proof.
  intros Hrun Hfs_v Hfs Hfeature Hname Hdesc.
  split.
  { intros Hfalsy. unfold feature_queries. rewrite Hname, Hdesc. cbn [bind].
    by rewrite Hfalsy. }
  intros Htruthy.
  apply generate_rule_based_inv in Hrun
    as (ps & bt & style & fp & cs_v & cs & rooms_v & rooms & of_rooms & fs_v' & fs'
        & of_features & site & sf & _ & _ & _ & _ & _ & _ & _ & _ & _ & Hfs_v' & Hfs'
        & Hof & _ & _ & ->).
  rewrite Hfs_v in Hfs_v'. apply Ok_inj in Hfs_v'. subst fs_v'.
  rewrite Hfs in Hfs'. apply Ok_inj in Hfs'. subst fs'.
  destruct (for_each_elem_of _ _ _ _ Hof Hfeature) as (qf & Hqf & Hsub).
  assert (Hqs : forall q, q ∈ qf ->
            q ∈ sorted_set
                  (["General design standards for a " +:+ py_str repr style +:+ " "
                      +:+ py_str repr bt]
                   ++ (if py_truthy fp
                       then ["Space planning considerations for a "
                               +:+ py_str repr fp +:+ " sq ft " +:+ py_str repr bt]
                       else [])
                   ++ map (fun c => "Standards or solutions for: " +:+ py_str repr c
                                      +:+ " in a " +:+ py_str repr bt) cs
                   ++ of_rooms ++ of_features
                   ++ (if py_truthy sf
                       then ["Sunlight and passive design strategies for a "
                               +:+ py_str repr sf +:+ " facing lot"]
                       else []))).
  { intros q Hq. apply elem_of_sorted_set. rewrite !elem_of_app.
    right. right. right. right. left. by apply Hsub. }
  clear Hsub Hof. unfold feature_queries in Hqf.
  rewrite Hname, Hdesc in Hqf. cbn [bind] in Hqf. rewrite Htruthy in Hqf.
  split.
  - apply Hqs. destruct (py_truthy desc_v).
    + destruct (py_prefix desc_v 100) as [snippet|]; cbn [bind] in Hqf; [|done].
      apply Ok_inj in Hqf. subst qf. by left.
    + apply Ok_inj in Hqf. subst qf. by left.
  - intros d -> Hd. simpl in Hqf. rewrite Hd in Hqf. cbn [bind] in Hqf.
    apply Ok_inj in Hqf. subst qf.
    split; [apply Hqs; right; by left|].
    unfold first_chars. clear. generalize 100. generalize 0.
    induction d as [|c d IH]; intros n m; [by destruct n, m; simpl; lia|].
    destruct n as [|n]; simpl.
    + destruct m as [|m]; simpl; [lia|]. specialize (IH 0 m). lia.
    + apply IH.
Qed.

End Generated.

Lemma queries_sorted_without_duplicates_witness :
  generate_queries (fun _ => "") kitchen_requirements = Ok kitchen_queries /\
  NoDup kitchen_queries.
Proof.
  split; [vm_compute; reflexivity|].
  apply (queries_sorted_without_duplicates (fun _ => "") kitchen_requirements).
  vm_compute. reflexivity.
Defined.

Lemma queries_empty_only_without_requirements_witness :
  generate_queries (fun _ => "") (VDict []) = Ok [] /\
  py_truthy (VDict []) = false.
Proof.
  split; [reflexivity|].
  apply (queries_empty_only_without_requirements (fun _ => "") (VDict []) [] eq_refl).
  reflexivity.
Defined.

(** The office of the sample requirements of the module. *)
Definition office_requirements : value :=
  VDict [("project_summary", VDict [("user_style_preference", VStr "Modern")]);
         ("room_specifications",
          VList [VDict [("room_name", VStr "Office");
                        ("attributes", VList [VStr "minimal"; VStr "Godfather vibes"])]]);
         ("special_features",
          VList [VDict [("feature_name", VStr "Backyard");
                        ("description", VStr "mini-garden, pool")];
                 VDict [("description", VStr "no name")]])].

Definition office_queries : list string :=
  ["Design considerations for a Office with attribute: Godfather vibes";
   "Design considerations for a Office with attribute: minimal";
   "Design details for: mini-garden, pool";
   "Functional requirements for a Office";
   "General design standards for a Modern building";
   "Interior design elements for 'Godfather vibes' in an office or library";
   "Standard dimensions and layout for a Modern Office";
   "Standards or examples for implementing: Backyard"].

Example office_run :
  generate_rule_based_queries (fun _ => "") office_requirements = Ok office_queries.
Proof. vm_compute. reflexivity. Qed.

Lemma room_and_attribute_queries_witness :
  generate_rule_based_queries (fun _ => "") office_requirements = Ok office_queries /\
  "Interior design elements for 'Godfather vibes' in an office or library"
    ∈ office_queries.
Proof.
  split; [exact office_run|].
  destruct (room_and_attribute_queries (fun _ => "") office_requirements office_queries
              (VDict [("user_style_preference", VStr "Modern")]) (VStr "Modern")
              (VList [VDict [("room_name", VStr "Office");
                             ("attributes",
                              VList [VStr "minimal"; VStr "Godfather vibes"])]])
              [VDict [("room_name", VStr "Office");
                      ("attributes", VList [VStr "minimal"; VStr "Godfather vibes"])]]
              (VDict [("room_name", VStr "Office");
                      ("attributes", VList [VStr "minimal"; VStr "Godfather vibes"])])
              "Office" office_run eq_refl eq_refl eq_refl eq_refl
              (list_elem_of_here _ _) eq_refl)
    as (_ & _ & Hattr).
  destruct (Hattr (VList [VStr "minimal"; VStr "Godfather vibes"])
              [VStr "minimal"; VStr "Godfather vibes"] "Godfather vibes"
              eq_refl eq_refl
              (list_elem_of_further _ _ _ (list_elem_of_here _ _)))
    as [_ Hvibes].
  apply Hvibes. reflexivity.
Defined.

Lemma feature_queries_need_a_name_witness :
  generate_rule_based_queries (fun _ => "") office_requirements = Ok office_queries /\
  "Design details for: mini-garden, pool" ∈ office_queries.
Proof.
  split; [exact office_run|].
  destruct (feature_queries_need_a_name (fun _ => "") office_requirements office_queries
              (VList [VDict [("feature_name", VStr "Backyard");
                             ("description", VStr "mini-garden, pool")];
                      VDict [("description", VStr "no name")]])
              [VDict [("feature_name", VStr "Backyard");
                      ("description", VStr "mini-garden, pool")];
               VDict [("description", VStr "no name")]]
              (VDict [("feature_name", VStr "Backyard");
                      ("description", VStr "mini-garden, pool")])
              (VStr "Backyard") (VStr "mini-garden, pool")
              office_run eq_refl eq_refl
              (list_elem_of_here _ _) eq_refl eq_refl)
    as [_ Hnamed].
  destruct (Hnamed eq_refl) as [_ Hdesc].
  destruct (Hdesc "mini-garden, pool" eq_refl eq_refl) as [Hin _].
  exact Hin.
Defined.

End QueryGenerator.

(** ** Answers of the language model
    ([src/rag_pipeline/requirement_extractor.py],
     [src/rag_pipeline/synthesizer.py]) *)

Module ModelResponse.

(** [s.startswith(prefix)] and [s.endswith(suffix)]. *)
Definition startswith (prefix s : string) : bool := String.prefix prefix s.

Definition endswith (suffix s : string) : bool :=
  String.prefix (string_rev suffix) (string_rev s).

(** [s[n:]]. *)
Fixpoint drop_chars (n : nat) (s : string) : string :=
  match n, s with
  | O, _ => s
  | S _, EmptyString => EmptyString
  | S n', String _ s' => drop_chars n' s'
  end.

(** [s[:-n]] for a positive [n]. *)
Definition drop_last (n : nat) (s : string) : string :=
  first_chars (String.length s - n) s.

(** The text handed to [json.loads]: the answer stripped, without an
    opening [```json] and without a closing [```], stripped again. *)
Definition unfence (text : string) : string :=
  let json_response_text := strip text in
  let json_response_text :=
    if startswith "```json" json_response_text
    then drop_chars 7 json_response_text else json_response_text in
  let json_response_text :=
    if endswith "```" json_response_text
    then drop_last 3 json_response_text else json_response_text in
  strip json_response_text.

(** What leaves [extract_requirements] as an exception: the
    [UnboundLocalError] of a handler that reads [response] before it was
    assigned, or an exception no handler is there for. *)
Inductive Raised : Type :=
  | UnboundLocalError
  | Propagated (e : PyExn).

Inductive Outcome (A : Type) : Type :=
  | Returns (a : A)
  | Raises (e : Raised).

Arguments Returns {A} a.
Arguments Raises {A} e.

(** The answer of [generate_content]: its [text], a property that raises
    [ValueError] for an answer without text. *)
Record Response : Type := mkResponse {
  response_text : Result string
}.

(** The generative model, [None] when its construction failed. *)
Definition Model : Type := option (string -> Result Response).

Section Extraction.

(** [json.dumps(_, indent=2)], [json.loads] and the prompt template. *)
Variable json_dumps : value -> Result string.
Variable json_loads : string -> Result value.
Variable create_extraction_prompt : string -> string.

(** [extract_requirements]. When [generate_content] raises, the handler
    that catches the exception evaluates [response], a local name that has
    no value yet. *)
Definition extract_requirements (model : Model) (conversation_data : value)
    : Outcome (option value) :=
  match model with
  | None => Returns None
  | Some generate_content =>
      match json_dumps conversation_data with
      | Raise TypeError => Returns None
      | Raise e => Raises (Propagated e)
      | Ok conversation_json_string =>
          let prompt := create_extraction_prompt conversation_json_string in
          match generate_content prompt with
          | Raise _ => Raises UnboundLocalError
          | Ok response =>
              match response_text response with
              | Raise _ => Returns None
              | Ok text =>
                  match json_loads (unfence text) with
                  | Ok extracted_json => Returns (Some extracted_json)
                  | Raise _ => Returns None
                  end
              end
          end
      end
  end.

End Extraction.

(** *** Fences *)

(** A string of white space. *)
Fixpoint blank (s : string) : bool :=
  match s with
  | EmptyString => true
  | String c s' => is_space c && blank s'
  end.

Lemma blank_app a b : blank (a +:+ b) = blank a && blank b.
Proof.
  induction a as [|c a IH]; [done|]. rewrite string_app_cons. simpl.
  by rewrite IH, andb_assoc.
Qed.

Lemma blank_rev s : blank (string_rev s) = blank s.
Proof.
  induction s as [|c s IH]; [done|].
  change (String c s) with (String c "" +:+ s).
  rewrite string_rev_app, !blank_app, IH. apply andb_comm.
Qed.

Lemma blank_lstrip s : blank s = true -> lstrip s = "".
Proof.
  induction s as [|c s IH]; [done|]. simpl.
  destruct (is_space c); [exact IH|done].
Qed.

(** White space around a text that has none at its ends is what [strip]
    removes. *)
Lemma strip_padded ws core ws' :
  blank ws = true -> blank ws' = true ->
  lstrip core = core -> lstrip (string_rev core) = string_rev core ->
  strip (ws +:+ core +:+ ws') = core.
Proof.
  intros Hws Hws' Hl Hr. unfold strip.
  rewrite lstrip_app_space by (by apply blank_lstrip).
  destruct core as [|c r].
  { change ("" +:+ ws') with ws'. rewrite (blank_lstrip ws') by done. done. }
  rewrite (lstrip_app_head _ c r) by done.
  rewrite string_rev_app.
  rewrite lstrip_app_space by (apply blank_lstrip; by rewrite blank_rev).
  by rewrite Hr, string_rev_involutive.
Qed.

Lemma prefix_app p s : String.prefix p (p +:+ s) = true.
Proof.
  induction p as [|c p IH]; [by destruct s|]. rewrite string_app_cons. simpl.
  by destruct (ascii_dec c c).
Qed.

Lemma drop_chars_app p s : drop_chars (String.length p) (p +:+ s) = s.
Proof. induction p as [|c p IH]; [done|]. rewrite string_app_cons. exact IH. Qed.

Lemma first_chars_app a b : first_chars (String.length a) (a +:+ b) = a.
Proof.
  unfold first_chars. induction a as [|c a IH]; [by destruct b|].
  rewrite string_app_cons. simpl. by rewrite IH.
Qed.

Lemma endswith_app a suffix : endswith suffix (a +:+ suffix) = true.
Proof. unfold endswith. rewrite string_rev_app. apply prefix_app. Qed.

Lemma unfence_fenced_body ws body ws' :
  blank ws = true -> blank ws' = true ->
  unfence (ws +:+ "```json" +:+ body +:+ "```" +:+ ws') = strip body.
Proof.
  intros Hws Hws'. unfold unfence.
  replace (ws +:+ "```json" +:+ body +:+ "```" +:+ ws')
    with (ws +:+ ("```json" +:+ body +:+ "```") +:+ ws')
    by (by rewrite !string_app_assoc).
  rewrite strip_padded; [|done|done|done|].
  2:{ rewrite !string_rev_app. done. }
  unfold startswith. rewrite prefix_app.
  change 7 with (String.length "```json"). rewrite drop_chars_app.
  rewrite endswith_app. unfold drop_last.
  rewrite string_app_length. simpl String.length.
  replace (String.length body + 3 - 3) with (String.length body) by lia.
  by rewrite first_chars_app.
Qed.

(** X20. The text passed on to [json.loads], for an answer that wraps
    its JSON in a fence: with white space before [```json] and after the
    closing [```], what is parsed is the text between the two fences,
    stripped. For an answer whose stripped text neither opens with
    [```json] nor closes with [```], what is parsed is the stripped
    answer. In all cases the text parsed has white space at neither
    end. *)
Theorem unfence_fenced ws body ws' text :
  (blank ws = true -> blank ws' = true ->
     unfence (ws +:+ "```json" +:+ body +:+ "```" +:+ ws') = strip body) /\
  (startswith "```json" (strip text) = false ->
   endswith "```" (strip text) = false ->
     unfence text = strip text) /\
  strip (unfence text) = unfence text.
Proof.
  split; [|split].
  - intros Hws Hws'. by apply unfence_fenced_body.
  - intros Hopen Hclose. unfold unfence. rewrite Hopen, Hclose. apply strip_idem.
  - unfold unfence. apply strip_idem.
Qed.

Section ExtractionFacts.

Variable json_dumps : value -> Result string.
Variable json_loads : string -> Result value.
Variable create_extraction_prompt : string -> string.

(** X21. [extract_requirements] gives [None] without a model, and when
    [json.dumps] raises [TypeError]. Once the model has answered it never
    raises: it gives [None] when the answer has no text, the parsed JSON
    when the unfenced text parses (for an answer in a fence, when the
    stripped body of the fence parses), and [None] when it does not. But
    when the call of the model itself raises, the handlers read
    [response] before it is bound, and the function raises
    [UnboundLocalError] instead of giving [None]. *)
Theorem extract_requirements_outcome conversation_data :
  let run := extract_requirements json_dumps json_loads create_extraction_prompt in
  run None conversation_data = Returns None /\
  (forall generate_content,
     json_dumps conversation_data = Raise TypeError ->
     run (Some generate_content) conversation_data = Returns None) /\
  forall generate_content s,
    json_dumps conversation_data = Ok s ->
    (forall e, generate_content (create_extraction_prompt s) = Raise e ->
       run (Some generate_content) conversation_data = Raises UnboundLocalError) /\
    (forall response, generate_content (create_extraction_prompt s) = Ok response ->
       (exists v, run (Some generate_content) conversation_data = Returns v) /\
       (forall e, response_text response = Raise e ->
          run (Some generate_content) conversation_data = Returns None) /\
       (forall text v,
          response_text response = Ok text -> json_loads (unfence text) = Ok v ->
          run (Some generate_content) conversation_data = Returns (Some v)) /\
       (forall ws body ws' v,
          response_text response = Ok (ws +:+ "```json" +:+ body +:+ "```" +:+ ws') ->
          blank ws = true -> blank ws' = true ->
          json_loads (strip body) = Ok v ->
          run (Some generate_content) conversation_data = Returns (Some v)) /\
       (forall text e,
          response_text response = Ok text -> json_loads (unfence text) = Raise e ->
          run (Some generate_content) conversation_data = Returns None)).
Proof.
  cbv zeta. split; [done|]. split.
  { intros generate_content Hdumps. unfold extract_requirements. by rewrite Hdumps. }
  intros generate_content s Hdumps. unfold extract_requirements. rewrite Hdumps.
  split; [by intros e ->|].
  intros response ->. split; [|split; [|split; [|split]]].
  - destruct (response_text response) as [text|]; [|by eexists].
    destruct (json_loads (unfence text)); by eexists.
  - by intros e ->.
  - intros text v -> Hloads. by rewrite Hloads.
  - intros ws body ws' v -> Hws Hws' Hloads.
    by rewrite unfence_fenced_body, Hloads.
  - intros text e -> Hloads. by rewrite Hloads.
Qed.

End ExtractionFacts.

(** An answer in a fence, as the prompt's wording makes the model give
    it, and an answer without one. *)
Example unfence_run :
  unfence "  ```json {} ```  " = "{}" /\ unfence " [1, 2] " = "[1, 2]" /\
  unfence "``` {} ```" = "``` {}".
Proof. repeat split; vm_compute; reflexivity. Qed.

End ModelResponse.

(** ** Context of the synthesis prompt ([src/rag_pipeline/synthesizer.py]) *)

Module Synthesizer.

Import Orchestrator.

Definition newline : string := String (ascii_of_nat 10) "".
Definition double_quote : string := String (ascii_of_nat 34) "".

Section Context.

(** [repr] of a list or of a dict, for a metadata value of that kind. *)
Variable repr : value -> string.

(** [d.get(key, default)] on the metadata of a context, as the f-string
    prints it. *)
Definition metadata_text (metadata : Chroma.Metadata) (key default : string) : string :=
  match QueryGenerator.dict_lookup metadata key with
  | Some v => QueryGenerator.py_str repr v
  | None => default
  end.

(** The line of the context number [i] of a query:
    [f"  Context {i+1} (Source: {source}, Page: {page}):\n    \"{text[:500].strip()}...\""]. *)
Definition context_line (i : nat) (ctx : RetrievedContext) : string :=
  let text := ctx_text ctx in
  let metadata := ctx_metadata ctx in
  let source := metadata_text metadata "source_document" "Unknown source" in
  let page := metadata_text metadata "original_page_number" "N/A" in
  "  Context " +:+ pretty (i + 1) +:+ " (Source: " +:+ source +:+ ", Page: " +:+ page
  +:+ "):" +:+ newline +:+ "    " +:+ double_quote +:+ strip (first_chars 500 text)
  +:+ "..." +:+ double_quote.

Definition query_header (query : string) : string :=
  "For the query '" +:+ query
  +:+ "', relevant information from architectural standards includes:".

Definition rule : string := "--------------------".

(** What one item of [retrieved_contexts_per_query.items()] appends. *)
Definition query_parts (item : string * list RetrievedContext) : list string :=
  match item.2 with
  | [] => []
  | contexts => query_header item.1 :: imap context_line contexts ++ [rule]
  end.

Definition context_str_parts (items : list (string * list RetrievedContext))
    : list string :=
  flat_map query_parts items.

Definition no_context : string :=
  "No specific context was retrieved from the knowledge base for the generated queries. Please rely on general architectural knowledge and the user's requirements.".

(** [full_context_str]: the parts joined by newlines, or the sentence
    that says that nothing was retrieved. *)
Definition full_context_str (items : list (string * list RetrievedContext)) : string :=
  let joined := String.concat newline (context_str_parts items) in
  if nonempty joined then joined else no_context.

Lemma query_header_cons query :
  exists rest, query_header query = String "F" rest.
Proof. by eexists. Qed.

Lemma concat_head sep x rest l :
  exists rest', String.concat sep (String x rest :: l) = String x rest'.
Proof. destruct l as [|y l]; simpl; by eexists. Qed.

Lemma query_parts_contexts query contexts :
  contexts <> [] ->
  query_parts (query, contexts)
    = query_header query :: imap context_line contexts ++ [rule].
Proof. by destruct contexts. Qed.

Lemma context_str_parts_nil items :
  Forall (fun item => item.2 = []) items -> context_str_parts items = [].
Proof.
  induction 1 as [|[q ctxs] items Hq _ IH]; [done|].
  simpl in *. by rewrite Hq, IH.
Qed.

Lemma context_str_parts_head items :
  context_str_parts items = [] \/
  exists query l, context_str_parts items = query_header query :: l.
Proof.
  induction items as [|[q ctxs] items IH]; [by left|].
  unfold context_str_parts. simpl. destruct ctxs as [|ctx ctxs].
  - exact IH.
  - right. unfold query_parts. simpl. by eexists _, _.
Qed.

(** X22. The context block of the synthesis prompt names the queries
    that retrieved something and no other: a query with contexts
    contributes its header, one line per context and a rule, a query with
    an empty list contributes nothing. The block is the sentence saying
    that no context was retrieved exactly when every query came back
    empty. *)
Theorem context_block_of_the_prompt items :
  length (context_str_parts items)
    = sum_list ((fun item => match item.2 with
                             | [] => 0
                             | contexts => length contexts + 2
                             end) <$> items) /\
  (forall query contexts, (query, contexts) ∈ items -> contexts <> [] ->
     query_header query ∈ context_str_parts items /\
     forall i ctx, contexts !! i = Some ctx ->
       context_line i ctx ∈ context_str_parts items) /\
  (full_context_str items = no_context <-> Forall (fun item => item.2 = []) items).
Proof.
  split; [|split].
  - unfold context_str_parts. induction items as [|[q ctxs] items IH]; [done|].
    simpl. rewrite length_app, IH. f_equal.
    unfold query_parts. simpl. destruct ctxs as [|ctx ctxs]; [done|].
    simpl. rewrite length_app, length_imap. simpl. lia.
  - intros query contexts Hin Hne. unfold context_str_parts.
    assert (Hsub : forall part, part ∈ query_parts (query, contexts) ->
              part ∈ flat_map query_parts items).
    { intros part Hpart. apply list_elem_of_In, in_flat_map.
      exists (query, contexts). split; by apply list_elem_of_In. }
    rewrite query_parts_contexts in Hsub by done.
    split; [apply Hsub; by left|].
    intros i ctx Hi. apply Hsub. right. apply elem_of_app. left.
    apply list_elem_of_lookup. exists i. by rewrite list_lookup_imap, Hi.
  - unfold full_context_str. split.
    + intros Hfull. destruct (context_str_parts_head items) as [Hnil|(q & l & Hparts)].
      * clear Hfull. induction items as [|[q ctxs] items IH]; [constructor|].
        unfold context_str_parts in Hnil. simpl in Hnil.
        apply app_eq_nil in Hnil as [Hq Hrest].
        constructor; [|by apply IH].
        simpl. unfold query_parts in Hq. simpl in Hq. by destruct ctxs.
      * exfalso. rewrite Hparts in Hfull.
        destruct (query_header_cons q) as [rest Hq]. rewrite Hq in Hfull.
        destruct (concat_head newline "F" rest l) as [rest' Hc].
        rewrite Hc in Hfull. simpl in Hfull. discriminate.
    + intros Hall. by rewrite context_str_parts_nil.
Qed.

End Context.

(** One query with a context and one without. *)
Example full_context_str_run :
  context_str_parts (fun _ => "")
    [("kitchen", [mkContext "c1" " a passage "
                    [("source_document", VStr "book.pdf");
                     ("original_page_number", VInt 3)] 0.25%Q]);
     ("stairs", [])] =
  ["For the query 'kitchen', relevant information from architectural standards includes:";
   "  Context 1 (Source: book.pdf, Page: 3):" +:+ newline +:+ "    " +:+ double_quote
     +:+ "a passage..." +:+ double_quote;
   "--------------------"] /\
  full_context_str (fun _ => "") [("kitchen", []); ("stairs", [])] = no_context.
Proof. split; vm_compute; reflexivity. Qed.

End Synthesizer.

(** ** From the requirements to the contexts ([run_query_service.py]) *)

Module Pipeline.

Import Orchestrator.

Section Stages.

Variable repr : value -> string.

(** Steps 2 and 3 of [run_full_rag_pipeline], from the extracted
    requirements on: [None] stands for the early [return None] on
    requirements that are falsy. *)
Definition queries_and_contexts (env : Env) (st : RunState)
    (extracted_requirements : value)
    : Result (option (list string * RunState * gmap string (list RetrievedContext))) :=
  if negb (QueryGenerator.py_truthy extracted_requirements) then Ok None
  else
    rag_queries <- QueryGenerator.generate_queries repr extracted_requirements ;;;
    r <- match rag_queries with
         | [] => Ok (st, ∅)
         | _ => retrieve_contexts env rag_queries st ∅
         end ;;;
    Ok (Some (rag_queries, r.1, r.2)).

(** X23. With requirements that pass the check of the pipeline, a
    generator that returns and a collection that answers in parallel
    arrays, the retrieval step is reached with a list of queries that is
    not empty, and it records exactly one entry per generated query: the
    keys of the context map are the queries, as many as the generator
    gave. *)
Theorem one_entry_per_generated_query env st reqs qs :
  QueryGenerator.py_truthy reqs = true ->
  QueryGenerator.generate_queries repr reqs = Ok qs ->
  collection_well_formed env ->
  exists st' m,
    queries_and_contexts env st reqs = Ok (Some (qs, st', m)) /\
    qs <> [] /\
    dom m = list_to_set qs /\
    size m = length qs.
Proof.
  intros Htruthy Hgen Hwf. unfold queries_and_contexts.
  rewrite Htruthy, Hgen. cbn [negb bind].
  unfold QueryGenerator.generate_queries in Hgen. rewrite Htruthy in Hgen.
  apply QueryGenerator.generate_rule_based_inv in Hgen
    as (ps & bt & style & fp & cs_v & cs & rooms_v & rooms & of_rooms & fs_v & fs
        & of_features & site & sf & _ & _ & _ & _ & _ & _ & _ & _ & _ & _ & _ & _
        & _ & _ & Hqs).
  assert (Hnd : NoDup qs).
  { subst qs. apply QueryGenerator.strictly_sorted_NoDup.
    apply Sorted_StronglySorted; [|apply QueryGenerator.sorted_set_sorted].
    intros a b c. apply QueryGenerator.string_lt_trans. }
  assert (Hne : qs <> []).
  { intros Hnil.
    assert (Hin : ("General design standards for a " +:+ QueryGenerator.py_str repr style
                     +:+ " " +:+ QueryGenerator.py_str repr bt) ∈ qs).
    { subst qs. apply QueryGenerator.elem_of_sorted_set. apply elem_of_app. left.
      by apply list_elem_of_singleton. }
    rewrite Hnil in Hin. by apply elem_of_nil in Hin. }
  clear Hqs.
  destruct (retrieve_contexts_returns env qs Hwf st ∅) as (st' & m & Hrun & Hdom).
  exists st', m.
  assert (Hdom' : dom m = list_to_set qs) by (rewrite Hdom; set_solver).
  split.
  - destruct qs as [|q qs']; [done|]. by rewrite Hrun.
  - split; [done|]. split; [done|].
    rewrite <- size_dom, Hdom'. by apply size_list_to_set.
Qed.

End Stages.

Lemma one_entry_per_generated_query_witness :
  QueryGenerator.py_truthy QueryGenerator.kitchen_requirements = true /\
  QueryGenerator.generate_queries (fun _ => "") QueryGenerator.kitchen_requirements
    = Ok QueryGenerator.kitchen_queries /\
  collection_well_formed env_demo /\
  exists st' m,
    queries_and_contexts (fun _ => "") env_demo run0 QueryGenerator.kitchen_requirements
      = Ok (Some (QueryGenerator.kitchen_queries, st', m)) /\
    size m = 7.
Proof.
  assert (Hgen : QueryGenerator.generate_queries (fun _ => "")
                   QueryGenerator.kitchen_requirements
                 = Ok QueryGenerator.kitchen_queries) by (vm_compute; reflexivity).
  split; [reflexivity|]. split; [exact Hgen|]. split; [exact env_demo_well_formed|].
  destruct (one_entry_per_generated_query (fun _ => "") env_demo run0
              QueryGenerator.kitchen_requirements QueryGenerator.kitchen_queries
              eq_refl Hgen env_demo_well_formed) as (st' & m & Hrun & _ & _ & Hsize).
  exists st', m. split; [exact Hrun|exact Hsize].
Defined.

End Pipeline.
